(** * OCR web application: page extraction, OCR normalisation, persistence

    A shallow embedding of [ocr.py], [main.py], [models.py] and [schemas.py]
    and the properties of the pipeline they implement.

    Conventions of the embedding.
    - A Python [str] is a [string] of 8-bit characters; [bytes] is a list of
      bytes.
    - A Python [int] is a [Z]. The coordinates of a polygon, on which the
      code computes, are Python floats: IEEE 754 binary64 numbers
      ([spec_float] at precision 53 and maximal exponent 1024), with the
      rounding, the infinities and the NaN of the format. A float the code
      only converts and stores (a confidence, a cell of the layout engine's
      table) is the rational it denotes ([Q]).
    - A function that can raise returns a [result]; an exception is a class
      together with its message, so that [str(e)] is the message.
    - The OCR engines, the PDF renderer, the image decoder, the configuration
      and the faults of the storage engine are collaborators outside these
      files: they are the fields of the record [External]. *)

From Stdlib Require Import List ZArith QArith Qround Qpower Bool Ascii String Lia Lqa.
From Stdlib Require Import Floats.SpecFloat.
From Stdlib Require Import Sorting.Sorted Sorting.Permutation.
From Stdlib Require Import Numbers.DecimalString.
From Stdlib Require Init.Byte.
From Equations Require Import Equations.
Import ListNotations.

Set Implicit Arguments.
Close Scope Q_scope.
Local Open Scope string_scope.
Local Open Scope list_scope.

(** ** Python strings *)

Module Str.

(** [str.isspace] on one character of the 8-bit range: TAB..CR, FS..US,
    SPACE, NEL and NBSP. *)
Definition isspace (c : ascii) : bool :=
  let n := nat_of_ascii c in
  ((9 <=? n) && (n <=? 13) || (28 <=? n) && (n <=? 32)
   || (n =? 133) || (n =? 160))%nat.

Fixpoint lstrip (s : string) : string :=
  match s with
  | EmptyString => EmptyString
  | String c s' => if isspace c then lstrip s' else s
  end.

Fixpoint rstrip (s : string) : string :=
  match s with
  | EmptyString => EmptyString
  | String c s' =>
      match rstrip s' with
      | EmptyString => if isspace c then EmptyString else String c EmptyString
      | r => String c r
      end
  end.

(** [s.strip()] *)
Definition strip (s : string) : string := rstrip (lstrip s).

(** Truth value of a string: [if text:] *)
Definition truthy (s : string) : bool :=
  match s with EmptyString => false | _ => true end.

(** [str.lower] on one character: A..Z and the upper-case letters of the
    Latin-1 block (all of 0xC0..0xDE except the multiplication sign). *)
Definition lower_char (c : ascii) : ascii :=
  let n := nat_of_ascii c in
  if ((65 <=? n) && (n <=? 90)
      || (192 <=? n) && (n <=? 222) && negb (n =? 215))%nat
  then ascii_of_nat (n + 32) else c.

Fixpoint lower (s : string) : string :=
  match s with
  | EmptyString => EmptyString
  | String c s' => String (lower_char c) (lower s')
  end.

(** [s.startswith(p)] and [s.endswith(p)] *)
Definition startswith (s p : string) : bool := prefix p s.

Definition endswith (s p : string) : bool :=
  (length p <=? length s)%nat
  && (substring (length s - length p) (length p) s =? p).

(** [str(n)] for an integer *)
Definition of_Z (n : Z) : string := NilZero.string_of_int (Z.to_int n).

End Str.

(** ** Exceptions and results *)

Inductive exn_class :=
| FileNotFoundError | ValueError | RuntimeError | EOFError | IndexError
| TypeError | OSError | UnidentifiedImageError | PDFPageCountError
| TesseractError | IntegrityError | OperationalError | OverflowError.

Definition exn_class_eqb (a b : exn_class) : bool :=
  match a, b with
  | FileNotFoundError, FileNotFoundError | ValueError, ValueError
  | RuntimeError, RuntimeError | EOFError, EOFError | IndexError, IndexError
  | TypeError, TypeError | OSError, OSError
  | UnidentifiedImageError, UnidentifiedImageError
  | PDFPageCountError, PDFPageCountError | TesseractError, TesseractError
  | IntegrityError, IntegrityError | OperationalError, OperationalError
  | OverflowError, OverflowError => true
  | _, _ => false
  end.

(** An exception instance: its class and its message ([str(e)]). *)
Record exn := Exn { exn_cls : exn_class; exn_msg : string }.

Inductive result (A : Type) : Type :=
| Ok (a : A)
| Raise (e : exn).
Arguments Ok {A} a.
Arguments Raise {A} e.

Definition bind {A B} (c : result A) (k : A -> result B) : result B :=
  match c with
  | Ok a => k a
  | Raise e => Raise e
  end.

Notation "x <- c ;; k" := (bind c (fun x => k))
  (at level 61, c at next level, right associativity).

(** [for x in xs: body], the body updating the loop state [s] or raising. *)
Fixpoint for_each {A S} (xs : list A) (body : A -> S -> result S) (s : S)
  : result S :=
  match xs with
  | [] => Ok s
  | a :: rest => s' <- body a s ;; for_each rest body s'
  end.

(** [range(n)] *)
Definition range (n : nat) : list nat := seq 0 n.

(** [xs[i]] *)
Definition index {A} (xs : list A) (i : nat) : result A :=
  match nth_error xs i with
  | Some a => Ok a
  | None => Raise (Exn IndexError "list index out of range")
  end.

(** ** Python numbers *)

(** A cell of the engine's output table: a string, an integer or a float. *)
Inductive pyval :=
| PyStr (s : string)
| PyInt (z : Z)
| PyFloat (q : Q).

(** The string parsers behind the builtins [float(s)] and [int(s)]. *)
Class Builtins := {
  float_of_str : string -> option Q;
  int_of_str : string -> option Z
}.

(** [int(f)] on a float: truncation toward zero. *)
Definition Qtrunc (q : Q) : Z :=
  if Qle_bool 0 q then Qfloor q else Qceiling q.

Section Numbers.
Context {B : Builtins}.

(** [float(v)] *)
Definition py_float (v : pyval) : result Q :=
  match v with
  | PyStr s =>
      match float_of_str s with
      | Some q => Ok q
      | None =>
          Raise (Exn ValueError ("could not convert string to float: '" ++ s ++ "'"))
      end
  | PyInt z => Ok (inject_Z z)
  | PyFloat q => Ok q
  end.

(** [int(v)] *)
Definition py_int (v : pyval) : result Z :=
  match v with
  | PyStr s =>
      match int_of_str s with
      | Some z => Ok z
      | None =>
          Raise (Exn ValueError
                   ("invalid literal for int() with base 10: '" ++ s ++ "'"))
      end
  | PyInt z => Ok z
  | PyFloat q => Ok (Qtrunc q)
  end.

(** [v != s] for a string literal [s]: values of another type are never
    equal to a string. *)
Definition py_ne_str (v : pyval) (s : string) : bool :=
  match v with
  | PyStr t => negb (t =? s)
  | _ => true
  end.
End Numbers.

(** *** Floats in arithmetic

    A binary64 number: a signed zero, an infinity, the NaN, or a sign, a
    mantissa and an exponent. *)
Definition double := spec_float.

(** The pairs of mantissa and exponent that are numbers of the format. *)
Definition valid_double (f : double) : bool := valid_binary 53 1024 f.

Definition is_finite (f : double) : bool :=
  match f with
  | S754_zero _ | S754_finite _ _ _ => true
  | _ => false
  end.

Definition is_nan (f : double) : bool :=
  match f with
  | S754_nan => true
  | _ => false
  end.

(** [int(f)]: truncation toward zero; the NaN and the infinities have no
    integer. *)
Definition int_of_float (f : double) : result Z :=
  match f with
  | S754_nan => Raise (Exn ValueError "cannot convert float NaN to integer")
  | S754_infinity _ =>
      Raise (Exn OverflowError "cannot convert float infinity to integer")
  | S754_zero _ => Ok 0%Z
  | S754_finite s m e => Ok (cond_Zopp s (Z.shiftl (Zpos m) e))
  end.

(** The conversion of the [int] operand of a float operation: the nearest
    double, ties to even. *)
Definition float_of_int (z : Z) : result double :=
  match binary_normalize 53 1024 z 0 false with
  | S754_infinity _ => Raise (Exn OverflowError "int too large to convert to float")
  | f => Ok f
  end.

(** [a - b] on floats: the difference, rounded to the nearest double. *)
Definition float_sub (a b : double) : double := SFsub 53 1024 a b.

(** [min(xs)] and [max(xs)]: [ValueError] on an empty sequence; the first
    element is kept until a later one compares below (above) it, and
    nothing compares with a NaN. *)
Definition py_min (xs : list double) : result double :=
  match xs with
  | [] => Raise (Exn ValueError "min() arg is an empty sequence")
  | a :: rest => Ok (fold_left (fun m v => if SFltb v m then v else m) rest a)
  end.

Definition py_max (xs : list double) : result double :=
  match xs with
  | [] => Raise (Exn ValueError "max() arg is an empty sequence")
  | a :: rest => Ok (fold_left (fun m v => if SFltb m v then v else m) rest a)
  end.

(** ** OCR rows and engine outputs *)

(** The dictionary an adapter builds for one detection. The keys
    [file_name] and [page_number] are absent until [run_ocr_on_file] adds
    them with [r.update]. *)
Record Row := {
  line_number : Z;
  line_text : string;
  confidence : option Q;
  x : Z;
  y : Z;
  width : Z;
  height : Z;
  file_name : option string;
  page_number : option Z
}.

(** [r.update({"file_name": ..., "page_number": ...})] *)
Definition update (r : Row) (name : string) (page : Z) : Row :=
  {| line_number := line_number r; line_text := line_text r;
     confidence := confidence r; x := x r; y := y r;
     width := width r; height := height r;
     file_name := Some name; page_number := Some page |}.

(** [pytesseract.image_to_data(..., output_type=Output.DICT)]: parallel
    columns indexed by detection. *)
Record TessData := {
  d_text : list string;
  d_conf : list pyval;
  d_left : list pyval;
  d_top : list pyval;
  d_width : list pyval;
  d_height : list pyval
}.

(** One element of PaddleOCR's per-image list: either it unpacks as
    [box, (text, confidence)] or it does not. A box is a list of points, a
    point a list of coordinates, a coordinate a float. *)
Inductive paddle_line :=
| Detection (box : list (list double)) (text : string) (conf : pyval)
| Malformed.

(** The value of [ocr.ocr(...)]: [None], or a list with one entry per
    image, itself [None] or the list of detected lines. *)
Definition paddle_result := option (list (option (list paddle_line))).

Inductive SupportedEngine := tesseract | paddle.

Definition engine_value (e : SupportedEngine) : string :=
  match e with tesseract => "tesseract" | paddle => "paddle" end.

(** ** The stored rows ([models.py]) and the storage session *)

Module models.

(** One row of the table [ocr_results]. *)
Record OCRResult := {
  id : Z;
  file_name : string;
  page_number : Z;
  line_number : Z;
  line_text : string;
  x : Z;
  y : Z;
  width : Z;
  height : Z;
  processed_at : Z
}.

End models.

Inductive db_call :=
| BulkInsert (n : nat)
| Commit
| Rollback.

(** A storage session: the committed table, the rows written by the open
    transaction, the next identity key, the server clock and the calls
    received so far. *)
Record Session := {
  table : list models.OCRResult;
  pending : list models.OCRResult;
  next_id : Z;
  now : Z;
  calls : list db_call
}.

(** ** Collaborators *)

Definition bytes := list Byte.byte.

Record External (Image : Type) := {
  (** pdf2image: the rendered pages of a PDF file *)
  convert_from_path : bytes -> result (list Image);
  (** PIL: the frames [Image.open] gives access to through [seek] *)
  Image_open : bytes -> result (list Image);
  (** PIL: [im.convert("RGB")] *)
  convert_RGB : Image -> result Image;
  (** pytesseract *)
  image_to_data : Image -> result TessData;
  (** PaddleOCR: [None] when the package is not installed *)
  PaddleOCR : option (Image -> result paddle_result);
  (** [os.getcwd()] *)
  getcwd : string;
  (** [config.settings] *)
  UPLOAD_DIR : string;
  MAX_FILE_BYTES : Z;
  (** storage engine: whether the bulk insert of a batch fails, and after
      how many rows; whether a commit fails *)
  insert_fault : list Row -> option (nat * exn);
  commit_fault : list models.OCRResult -> option exn
}.

(** ** The OCR adapters ([ocr.py]) *)

Section Adapters.
Context {B : Builtins} {Image : Type}.
Variable E : External Image.

(** One iteration of the loop of [_ocr_tesseract]. *)
Definition tesseract_step (data : TessData) (i : nat) (results : list Row)
  : result (list Row) :=
  cell <- index (d_text data) i ;;
  let text := Str.strip cell in
  if Str.truthy text then
    c <- index (d_conf data) i ;;
    conf <- (if py_ne_str c "-1"
             then (f <- py_float c ;; Ok (Some f))
             else Ok None) ;;
    l <- index (d_left data) i ;;
    vx <- py_int l ;;
    t <- index (d_top data) i ;;
    vy <- py_int t ;;
    w <- index (d_width data) i ;;
    vw <- py_int w ;;
    h <- index (d_height data) i ;;
    vh <- py_int h ;;
    Ok (results ++ [{| line_number := Z.of_nat i; line_text := text;
                        confidence := conf;
                        x := vx; y := vy; width := vw; height := vh;
                        file_name := None; page_number := None |}])
  else Ok results.

Definition _ocr_tesseract (image : Image) : result (list Row) :=
  data <- image_to_data E image ;;
  for_each (range (List.length (d_text data))) (tesseract_step data) [].

(** [get_paddle_ocr()]: the engine instance, or [RuntimeError] when the
    package is missing. *)
Definition get_paddle_ocr : result (Image -> result paddle_result) :=
  match PaddleOCR E with
  | None => Raise (Exn RuntimeError
      "PaddleOCR not installed. Run `pip install paddleocr paddlepaddle`.")
  | Some ocr => Ok ocr
  end.

(** [[p[k] for p in box]] *)
Definition coords (k : nat) (box : list (list double)) : result (list double) :=
  for_each box (fun p acc => c <- index p k ;; Ok (acc ++ [c])) [].

(** One iteration of the loop of [_ocr_paddle]. *)
Definition paddle_step (i : nat) (line : paddle_line) (results : list Row)
  : result (list Row) :=
  match line with
  | Malformed => Ok results
  | Detection box text conf =>
      if negb (Str.truthy text) then Ok results
      else
        xs <- coords 0 box ;;
        ys <- coords 1 box ;;
        mx <- py_min xs ;;
        vx <- int_of_float mx ;;
        my <- py_min ys ;;
        vy <- int_of_float my ;;
        Mx <- py_max xs ;;
        kx <- float_of_int vx ;;
        w <- int_of_float (float_sub Mx kx) ;;
        My <- py_max ys ;;
        ky <- float_of_int vy ;;
        h <- int_of_float (float_sub My ky) ;;
        f <- py_float conf ;;
        Ok (results ++ [{| line_number := Z.of_nat i; line_text := text;
                            confidence := Some f;
                            x := vx; y := vy; width := w; height := h;
                            file_name := None; page_number := None |}])
  end.

(** [for i, line in enumerate(lines)] *)
Fixpoint paddle_loop (i : nat) (lines : list paddle_line) (results : list Row)
  : result (list Row) :=
  match lines with
  | [] => Ok results
  | line :: rest =>
      results' <- paddle_step i line results ;;
      paddle_loop (S i) rest results'
  end.

Definition _ocr_paddle (image : Image) : result (list Row) :=
  ocr <- get_paddle_ocr ;;
  res <- ocr image ;;
  match res with
  | None | Some [] | Some (None :: _) | Some (Some [] :: _) => Ok []
  | Some (Some lines :: _) => paddle_loop 0 lines []
  end.

End Adapters.

(** ** [os.path] (POSIX flavour) *)

Module os_path.

Definition sep : ascii := "/"%char.
Definition extsep : ascii := "."%char.

(** [s.rfind(c)]: the index of the last occurrence, or -1. *)
Fixpoint rfind (c : ascii) (s : string) : Z :=
  match s with
  | EmptyString => -1
  | String a s' =>
      let k := rfind c s' in
      if (0 <=? k)%Z then (k + 1)%Z
      else if Ascii.eqb a c then 0%Z else (-1)%Z
  end.

(** [s.split("/")] *)
Fixpoint split (s : string) : list string :=
  match s with
  | EmptyString => [EmptyString]
  | String c s' =>
      if Ascii.eqb c sep then EmptyString :: split s'
      else match split s' with
           | h :: t => String c h :: t
           | [] => [String c EmptyString]
           end
  end.

(** ["/".join(comps)] *)
Fixpoint join_sep (comps : list string) : string :=
  match comps with
  | [] => EmptyString
  | [c] => c
  | c :: rest => (c ++ String sep (join_sep rest))%string
  end.

Definition isabs (p : string) : bool := Str.startswith p "/".

(** [os.path.join(a, b)] *)
Definition join (a b : string) : string :=
  if Str.startswith b "/" then b
  else if negb (Str.truthy a) || Str.endswith a "/" then (a ++ b)%string
  else (a ++ String sep b)%string.

(** The number of leading slashes [normpath] keeps: two when the path
    starts with exactly two, otherwise one or none. *)
Definition initial_slashes (p : string) : nat :=
  if Str.startswith p "/" then
    if Str.startswith p "//" && negb (Str.startswith p "///") then 2 else 1
  else 0.

(** The body of the loop of [normpath] over the components. *)
Definition norm_step (slashes : nat) (new_comps : list string) (comp : string)
  : list string :=
  if (comp =? "") || (comp =? ".") then new_comps
  else if negb (comp =? "..")
          || (Nat.eqb slashes 0 && Nat.eqb (List.length new_comps) 0)
          || (negb (Nat.eqb (List.length new_comps) 0)
              && (last new_comps "" =? ".."))
       then new_comps ++ [comp]
       else removelast new_comps.

Fixpoint repeat_sep (n : nat) : string :=
  match n with O => EmptyString | S k => String sep (repeat_sep k) end.

Definition normpath (path : string) : string :=
  if negb (Str.truthy path) then "."
  else
    let slashes := initial_slashes path in
    let comps := fold_left (norm_step slashes) (split path) [] in
    let p := (repeat_sep slashes ++ join_sep comps)%string in
    if Str.truthy p then p else ".".

(** [os.path.abspath(path)] with the working directory [cwd]. *)
Definition abspath (cwd path : string) : string :=
  if isabs path then normpath path else normpath (join cwd path).

(** [os.path.splitext(p)]: the extension starts at the last dot of the last
    component, unless only dots precede it there. *)
Definition splitext (p : string) : string * string :=
  let sepIndex := rfind sep p in
  let dotIndex := rfind extsep p in
  if (sepIndex <? dotIndex)%Z
     && existsb (fun k => match get k p with
                          | Some c => negb (Ascii.eqb c extsep)
                          | None => true
                          end)
                (seq (Z.to_nat (sepIndex + 1))
                     (Z.to_nat dotIndex - Z.to_nat (sepIndex + 1)))
  then (substring 0 (Z.to_nat dotIndex) p,
        substring (Z.to_nat dotIndex) (length p - Z.to_nat dotIndex) p)
  else (p, EmptyString).

End os_path.

(** ** The file system *)

(** The files by absolute path; [None] where there is none. *)
Definition filesystem := string -> option bytes.

Definition fs_write (fs : filesystem) (p : string) (contents : bytes) : filesystem :=
  fun q => if q =? p then Some contents else fs q.

Definition fs_remove (fs : filesystem) (p : string) : filesystem :=
  fun q => if q =? p then None else fs q.

(** What a function did to the file system, in order. *)
Inductive io_event :=
| IoExists (p : string)
| IoConvertFromPath (p : string)
| IoImageOpen (p : string)
| IoSeek (i : nat)
| IoMakedirs (p : string)
| IoWrite (p : string)
| IoRemove (p : string).

(** Events that open or read the contents of a file. *)
Definition reads_file (ev : io_event) : bool :=
  match ev with
  | IoConvertFromPath _ | IoImageOpen _ | IoSeek _ => true
  | _ => false
  end.

(** ** Page extraction ([ocr.py]) *)

Definition is_EOFError (e : exn) : bool := exn_class_eqb (exn_cls e) EOFError.

(** A value together with the equation that it is the one inspected. *)
Definition inspect {A : Type} (a : A) : {b : A | a = b} := exist _ a eq_refl.

Section Extraction.
Context {Image : Type}.
Variable E : External Image.

(** [for i, page in enumerate(pages, start=1):
       images.append((i, page.convert("RGB")))] *)
Fixpoint pdf_loop (i : Z) (pages : list Image) (images : list (Z * Image))
  : result (list (Z * Image)) :=
  match pages with
  | [] => Ok images
  | page :: rest =>
      rgb <- convert_RGB E page ;;
      pdf_loop (i + 1) rest (images ++ [(i, rgb)])
  end.

(** The [while True] loop over the frames of a TIFF: it only ever ends
    with an exception, [EOFError] when [seek] runs past the last frame.
    The pages appended before the exception stay in [images]. *)
Equations? tiff_loop (frames : list Image) (i : nat) (images : list (Z * Image))
  : list (Z * Image) * exn by wf (List.length frames - i) lt :=
  tiff_loop frames i images with inspect (nth_error frames i) := {
    | exist _ None _ =>
        (images, Exn EOFError "attempt to seek outside sequence")
    | exist _ (Some frame) _ with convert_RGB E frame := {
        | Raise e => (images, e)
        | Ok rgb =>
            tiff_loop frames (S i) (images ++ [(Z.of_nat i + 1, rgb)])%Z } }.
Proof.
  assert (i < List.length frames)%nat
    by (apply nth_error_Some; congruence).
  lia.
Qed.

Definition _images_from_file (fs : filesystem) (path : string)
  : list io_event * result (list (Z * Image)) :=
  let abs_path := os_path.abspath (getcwd E) path in
  match fs abs_path with
  | None =>
      ([IoExists abs_path],
       Raise (Exn FileNotFoundError ("File not found: " ++ abs_path)))
  | Some contents =>
      let ext := Str.lower (snd (os_path.splitext abs_path)) in
      if ext =? ".pdf" then
        ([IoExists abs_path; IoConvertFromPath abs_path],
         pages <- convert_from_path E contents ;;
         match pages with
         | [] => Raise (Exn RuntimeError "No pages extracted from PDF.")
         | _ => pdf_loop 1 pages []
         end)
      else if (ext =? ".tif") || (ext =? ".tiff") then
        ([IoExists abs_path; IoImageOpen abs_path],
         let '(images, e) :=
           match Image_open E contents with
           | Raise e => ([], e)
           | Ok frames => tiff_loop frames 0 []
           end in
         if is_EOFError e then Ok images else Raise e)
      else
        ([IoExists abs_path],
         Raise (Exn ValueError
                  "Unsupported file format. Only PDF and TIFF are supported."))
  end.

End Extraction.

(** ** The storage session *)

Section Storage.
Context {Image : Type}.
Variable E : External Image.

(** The stored row of one mapping: the key and the timestamp come from the
    server; a mapping without [file_name] or [page_number] violates the
    NOT NULL constraints. The column set has no [confidence]. *)
Definition to_record (key stamp : Z) (r : Row) : result models.OCRResult :=
  match file_name r, page_number r with
  | Some f, Some p =>
      Ok {| models.id := key; models.file_name := f; models.page_number := p;
            models.line_number := line_number r;
            models.line_text := line_text r;
            models.x := x r; models.y := y r;
            models.width := width r; models.height := height r;
            models.processed_at := stamp |}
  | _, _ => Raise (Exn IntegrityError "NOT NULL constraint failed")
  end.

(** Write the mappings one after the other until one is refused. *)
Fixpoint stage (key stamp : Z) (rows : list Row)
  : list models.OCRResult * option exn :=
  match rows with
  | [] => ([], None)
  | r :: rest =>
      match to_record key stamp r with
      | Raise e => ([], Some e)
      | Ok rec =>
          let '(recs, err) := stage (key + 1) stamp rest in
          (rec :: recs, err)
      end
  end.

(** [db.bulk_insert_mappings(OCRResult, mappings)]: the rows go to the open
    transaction; on a failure at row [k] the rows before it are already
    there. *)
Definition bulk_insert_mappings (s : Session) (mappings : list Row)
  : Session * result unit :=
  let fault := insert_fault E mappings in
  let attempted :=
    match fault with
    | Some (k, _) => firstn k mappings
    | None => mappings
    end in
  let '(recs, err) := stage (next_id s) (now s) attempted in
  let s' := {| table := table s;
               pending := pending s ++ recs;
               next_id := next_id s + Z.of_nat (List.length recs);
               now := now s;
               calls := calls s ++ [BulkInsert (List.length mappings)] |} in
  match err, fault with
  | Some e, _ => (s', Raise e)
  | None, Some (_, e) => (s', Raise e)
  | None, None => (s', Ok tt)
  end.

(** [db.commit()] *)
Definition commit (s : Session) : Session * result unit :=
  match commit_fault E (pending s) with
  | Some e =>
      ({| table := table s; pending := pending s; next_id := next_id s;
          now := now s; calls := calls s ++ [Commit] |}, Raise e)
  | None =>
      ({| table := table s ++ pending s; pending := []; next_id := next_id s;
          now := now s; calls := calls s ++ [Commit] |}, Ok tt)
  end.

(** [db.rollback()] *)
Definition rollback (s : Session) : Session :=
  {| table := table s; pending := []; next_id := next_id s;
     now := now s; calls := calls s ++ [Rollback] |}.

End Storage.

(** ** The OCR runner ([ocr.py]) *)

Section Runner.
Context {B : Builtins} {Image : Type}.
Variable E : External Image.

Definition ocr_page (engine : SupportedEngine) (image : Image)
  : result (list Row) :=
  match engine with
  | tesseract => _ocr_tesseract E image
  | paddle => _ocr_paddle E image
  end.

(** The loop over the pages: OCR, tag every row, extend the batch. A
    failure of the adapter is raised again as a [RuntimeError] that names
    the page. *)
Fixpoint pages_loop (original_name : string) (engine : SupportedEngine)
    (images : list (Z * Image)) (all_results : list Row)
  : result (list Row) :=
  match images with
  | [] => Ok all_results
  | (page, image) :: rest =>
      match ocr_page engine image with
      | Raise e =>
          Raise (Exn RuntimeError
                   ("OCR failed on page " ++ Str.of_Z page ++ ": " ++ exn_msg e))
      | Ok rows =>
          let rows := map (fun r => update r original_name page) rows in
          pages_loop original_name engine rest (all_results ++ rows)
      end
  end.

Definition run_ocr_on_file (fs : filesystem) (path original_name : string)
    (engine : SupportedEngine) (db : option Session)
  : list io_event * option Session * result (Z * Z) :=
  let '(io, extracted) := _images_from_file E fs path in
  match extracted with
  | Raise e => (io, db, Raise e)
  | Ok images =>
      match pages_loop original_name engine images [] with
      | Raise e => (io, db, Raise e)
      | Ok all_results =>
          let pages := Z.of_nat (List.length images) in
          match db, all_results with
          | Some s, _ :: _ =>
              let '(s1, inserted) := bulk_insert_mappings E s all_results in
              match inserted with
              | Raise e => (io, Some (rollback s1), Raise e)
              | Ok _ =>
                  let '(s2, committed) := commit E s1 in
                  match committed with
                  | Raise e => (io, Some (rollback s2), Raise e)
                  | Ok _ =>
                      (io, Some s2,
                       Ok (Z.of_nat (List.length all_results), pages))
                  end
              end
          | _, _ => (io, db, Ok (0%Z, pages))
          end
      end
  end.

End Runner.

(** ** Response schemas ([schemas.py]) *)

Module schemas.

Record ResultRow := {
  id : Z;
  file_name : string;
  page_number : Z;
  line_number : Z;
  line_text : string;
  x : Z;
  y : Z;
  width : Z;
  height : Z
}.

Record PaginatedResults := {
  total : Z;
  items : list ResultRow
}.

Record OCRJobResult := {
  job_file_name : string;
  engine : string;
  pages : Z;
  rows_inserted : Z;
  message : string
}.

(** [orm_mode]: a response row read off a stored row. *)
Definition from_orm (r : models.OCRResult) : ResultRow :=
  {| id := models.id r; file_name := models.file_name r;
     page_number := models.page_number r;
     line_number := models.line_number r;
     line_text := models.line_text r;
     x := models.x r; y := models.y r;
     width := models.width r; height := models.height r |}.

End schemas.

Record HTTPException := { status_code : Z; detail : string }.

(** ** The HTTP operations ([main.py]) *)

Record UploadFile := {
  filename : string;
  content_type : string;
  contents : bytes
}.

Definition accepted_content_types : list string :=
  ["application/pdf"; "image/tiff"; "image/tif"; "image/x-tiff"].

Definition mem_str (s : string) (l : list string) : bool :=
  existsb (String.eqb s) l.

Section Upload.
Context {B : Builtins} {Image : Type}.
Variable E : External Image.

(** [".pdf" if file.filename.lower().endswith(".pdf") else ".tiff"] *)
Definition upload_ext (file : UploadFile) : string :=
  if Str.endswith (Str.lower (filename file)) ".pdf" then ".pdf" else ".tiff".

(** [os.path.join(settings.UPLOAD_DIR, f"{temp_id}{ext}")] *)
Definition upload_temp_path (file : UploadFile) (temp_id : string) : string :=
  os_path.join (UPLOAD_DIR E) (temp_id ++ upload_ext file).

(** [upload_and_process]; [temp_id] is the value of [uuid.uuid4().hex].
    The calls to the operating system (creating the directory, reading the
    upload, writing and removing the temporary file) are taken to succeed:
    the 500 of the outer handler, which answers when one of them raises,
    is outside this embedding. *)
Definition upload_and_process (fs : filesystem) (db : Session)
    (file : UploadFile) (engine : SupportedEngine) (temp_id : string)
  : filesystem * list io_event * Session
    * (schemas.OCRJobResult + HTTPException) :=
  if negb (mem_str (content_type file) accepted_content_types) then
    (fs, [], db,
     inr {| status_code := 415;
            detail := "Unsupported file format. Only PDF or TIFF allowed." |})
  else
    let temp_path := upload_temp_path file temp_id in
    let io0 := [IoMakedirs (UPLOAD_DIR E)] in
    if (MAX_FILE_BYTES E <? Z.of_nat (List.length (contents file)))%Z then
      (fs, io0, db, inr {| status_code := 413; detail := "File too large." |})
    else
      let abs := os_path.abspath (getcwd E) temp_path in
      let fs1 := fs_write fs abs (contents file) in
      let '(io1, db1, outcome) :=
        run_ocr_on_file E fs1 temp_path (filename file) engine (Some db) in
      let db2 := match db1 with Some s => s | None => db end in
      (** [finally]: the temporary file is removed when it is there *)
      let '(fs2, io2) :=
        match fs1 abs with
        | Some _ => (fs_remove fs1 abs, [IoExists abs; IoRemove abs])
        | None => (fs1, [IoExists abs])
        end in
      let io := io0 ++ [IoWrite abs] ++ io1 ++ io2 in
      match outcome with
      | Raise e =>
          (fs2, io, db2,
           inr {| status_code := 500;
                  detail := "OCR failed: " ++ exn_msg e |})
      | Ok (total_rows, total_pages) =>
          (fs2, io, db2,
           inl {| schemas.job_file_name := filename file;
                  schemas.engine := engine_value engine;
                  schemas.pages := total_pages;
                  schemas.rows_inserted := total_rows;
                  schemas.message := "OCR completed and results stored." |})
      end.

End Upload.

(** *** Queries *)

(** A query under construction: the table it reads, the conjunction of its
    filters, the ordering columns, LIMIT and OFFSET. *)
Record Query := {
  q_from : list models.OCRResult;
  q_where : models.OCRResult -> bool;
  q_order_by : option ((models.OCRResult -> Z) * (models.OCRResult -> Z));
  q_limit : option Z;
  q_offset : option Z
}.

Definition db_query (s : Session) : Query :=
  {| q_from := table s; q_where := fun _ => true; q_order_by := None;
     q_limit := None; q_offset := None |}.

Definition q_filter (q : Query) (p : models.OCRResult -> bool) : Query :=
  {| q_from := q_from q; q_where := fun r => q_where q r && p r;
     q_order_by := q_order_by q; q_limit := q_limit q; q_offset := q_offset q |}.

Definition order_by (q : Query) (k1 k2 : models.OCRResult -> Z) : Query :=
  {| q_from := q_from q; q_where := q_where q; q_order_by := Some (k1, k2);
     q_limit := q_limit q; q_offset := q_offset q |}.

Definition limit (q : Query) (n : Z) : Query :=
  {| q_from := q_from q; q_where := q_where q; q_order_by := q_order_by q;
     q_limit := Some n; q_offset := q_offset q |}.

Definition offset (q : Query) (n : Z) : Query :=
  {| q_from := q_from q; q_where := q_where q; q_order_by := q_order_by q;
     q_limit := q_limit q; q_offset := Some n |}.

(** Lexicographic order on two integer columns. *)
Definition key_leb (k1 k2 : models.OCRResult -> Z) (a b : models.OCRResult) : bool :=
  ((k1 a <? k1 b) || ((k1 a =? k1 b) && (k2 a <=? k2 b)))%Z.

(** ORDER BY as a stable insertion sort. The database is free in the order
    of rows that tie on the keys: what is proved of an answer uses that
    the rows are sorted and are a permutation of the selected rows, or
    takes the keys to be distinct. *)
Fixpoint insert_sorted (leb : models.OCRResult -> models.OCRResult -> bool)
    (a : models.OCRResult) (l : list models.OCRResult) : list models.OCRResult :=
  match l with
  | [] => [a]
  | b :: rest => if leb a b then a :: l else b :: insert_sorted leb a rest
  end.

Definition sort_rows (leb : models.OCRResult -> models.OCRResult -> bool)
    (l : list models.OCRResult) : list models.OCRResult :=
  fold_right (insert_sorted leb) [] l.

(** [q.count()]: the number of rows that pass the filters. *)
Definition q_count (q : Query) : Z :=
  Z.of_nat (List.length (filter (q_where q) (q_from q))).

(** [q.all()]: WHERE, then ORDER BY, then OFFSET, then LIMIT. *)
Definition q_all (q : Query) : list models.OCRResult :=
  let rows := filter (q_where q) (q_from q) in
  let rows := match q_order_by q with
              | Some (k1, k2) => sort_rows (key_leb k1 k2) rows
              | None => rows
              end in
  let rows := match q_offset q with
              | Some o => skipn (Z.to_nat o) rows
              | None => rows
              end in
  match q_limit q with
  | Some n => firstn (Z.to_nat n) rows
  | None => rows
  end.

(** The body of [get_results], its parameters already validated. *)
Definition get_results (file_name : string) (page_number : option Z)
    (lim off : Z) (db : Session) : schemas.PaginatedResults :=
  let base := q_filter (db_query db)
                (fun r => models.file_name r =? file_name) in
  let base :=
    match page_number with
    | Some p => if (p =? 0)%Z then base
                else q_filter base (fun r => (models.page_number r =? p)%Z)
    | None => base
    end in
  let total := q_count base in
  let items :=
    q_all (offset (limit (order_by base models.page_number models.line_number)
                         lim) off) in
  {| schemas.total := total; schemas.items := map schemas.from_orm items |}.

(** The declared query parameters: [file_name] required, [page_number]
    optional and at least 1, [limit] in 1..500 with default 50, [offset] at
    least 0 with default 0. A request outside them is answered 422 without
    entering the body. *)
Definition get_results_endpoint (file_name : option string)
    (page_number lim off : option Z) (db : Session)
  : schemas.PaginatedResults + HTTPException :=
  let invalid := inr {| status_code := 422; detail := "validation error" |} in
  match file_name with
  | None => invalid
  | Some name =>
      let lim := match lim with Some n => n | None => 50%Z end in
      let off := match off with Some n => n | None => 0%Z end in
      let page_ok := match page_number with
                     | Some p => (1 <=? p)%Z
                     | None => true
                     end in
      if page_ok && (1 <=? lim)%Z && (lim <=? 500)%Z && (0 <=? off)%Z
      then inl (get_results name page_number lim off db)
      else invalid
  end.

(** ** Specification predicates *)

(** What a row of [_ocr_tesseract] is, in terms of the engine's table. *)
Definition tesseract_row {B : Builtins} (data : TessData) (r : Row) : Prop :=
  exists (i : nat) (cell : string) (c : pyval),
    line_number r = Z.of_nat i
    /\ nth_error (d_text data) i = Some cell
    /\ line_text r = Str.strip cell
    /\ line_text r <> ""
    /\ nth_error (d_conf data) i = Some c
    /\ (if py_ne_str c "-1"
        then exists f, py_float c = Ok f /\ confidence r = Some f
        else confidence r = None).

(** The extent of a polygon along one axis, as [_ocr_paddle] computes it from
    the coordinates [cs]: the origin [lo] and the length [len]. *)
Definition axis_envelope (cs : list double) (lo len : Z) : Prop :=
  exists m M k,
    py_min cs = Ok m /\ int_of_float m = Ok lo
    /\ py_max cs = Ok M /\ float_of_int lo = Ok k
    /\ int_of_float (float_sub M k) = Ok len.

(** The number a double denotes. *)
Definition float_value (f : double) : Q :=
  match f with
  | S754_finite s m e => (inject_Z (cond_Zopp s (Zpos m)) * 2 ^ e)%Q
  | _ => 0%Q
  end.

(** The coordinates are numbers of the format: [spec_float] also has
    pairs of a mantissa and an exponent that are not in normal form or are
    out of range, and no Python float is one of them. *)
Definition valid_coords (cs : list double) : Prop :=
  Forall (fun c => valid_double c = true) cs.

Definition valid_line (line : paddle_line) : Prop :=
  match line with
  | Detection box _ _ => Forall valid_coords box
  | Malformed => True
  end.

(** The coordinates are integers of at most 52 bits. *)
Definition integral (cs : list double) : Prop :=
  Forall (fun c => is_finite c = true
                   /\ exists z, (Z.abs z <= 2 ^ 52)%Z
                                /\ (float_value c == inject_Z z)%Q) cs.

(** The points have the same coordinate ([==] on floats). *)
Definition shared (cs : list double) : Prop :=
  forall u v, In u cs -> In v cs -> SFeqb u v = true.

(** The value of a double in units of 2^-1074, the spacing of the smallest
    doubles: an integer. *)
Definition ulps (f : double) : Z :=
  match f with
  | S754_finite s m e => (cond_Zopp s (Zpos m) * 2 ^ (e + 1074))%Z
  | _ => 0%Z
  end.

Definition scale : Z := (2 ^ 1074)%Z.

(** [z] is the integer part of [a / scale]. *)
Definition truncates (a z : Z) : Prop :=
  (0 <= a /\ z * scale <= a < (z + 1) * scale)%Z
  \/ (a <= 0 /\ (z - 1) * scale < a <= z * scale)%Z.

(** The order of the doubles that are not NaN, the infinities at the
    ends. *)
Definition rank (f : double) : Z :=
  match f with
  | S754_infinity s => cond_Zopp s (2 ^ 2100)%Z
  | _ => ulps f
  end.

(** The lines [_ocr_paddle] iterates over. *)
Definition detected (res : paddle_result) : list paddle_line :=
  match res with
  | Some (Some lines :: _) => lines
  | _ => []
  end.

(** What a row of [_ocr_paddle] is, in terms of the engine's detections. *)
Definition paddle_row {B : Builtins} (lines : list paddle_line) (r : Row) : Prop :=
  exists (i : nat) box text conf xs ys f,
    nth_error lines i = Some (Detection box text conf)
    /\ line_number r = Z.of_nat i
    /\ text <> "" /\ line_text r = text
    /\ coords 0 box = Ok xs /\ coords 1 box = Ok ys
    /\ axis_envelope xs (x r) (width r)
    /\ axis_envelope ys (y r) (height r)
    /\ py_float conf = Ok f /\ confidence r = Some f.

(** The confidence of a row is absent or a number of 0..100. *)
Definition confidence_in_range (r : Row) : Prop :=
  confidence r = None
  \/ exists q, confidence r = Some q /\ (0 <= q)%Q /\ (q <= 100)%Q.

(** The envelope without rounding: origin and length are the minimum and the
    spread of the coordinates, and the length is 0 exactly when the
    coordinates are all the same. *)
Definition exact_envelope (cs : list double) (lo len : Z) : Prop :=
  exists m M,
    py_min cs = Ok m /\ py_max cs = Ok M
    /\ (inject_Z lo == float_value m)%Q
    /\ (inject_Z len == float_value M - float_value m)%Q
    /\ (len = 0%Z <-> shared cs).

(** ** Sample collaborators

    Concrete engines and files on which the theorems are instantiated. An
    image is named by a label. *)

Module Sample.

(** [float] and [int] on the decimal integer literals. *)
Definition builtins : Builtins :=
  {| float_of_str := fun s =>
       option_map (fun i => inject_Z (Z.of_int i)) (NilZero.int_of_string s);
     int_of_str := fun s => option_map Z.of_int (NilZero.int_of_string s) |}.

Definition column (n : nat) (v : Z) : list pyval := repeat (PyInt v) n.

Definition tesseract_engine (image : string) : result TessData :=
  if image =? "invoice" then
    Ok {| d_text := [""; "Invoice"; "   "; " Total "];
          d_conf := [PyStr "-1"; PyStr "96"; PyStr "95"; PyInt 91];
          d_left := column 4 12; d_top := column 4 30;
          d_width := column 4 80; d_height := column 4 14 |}
  else if image =? "stamp" then
    Ok {| d_text := ["PAID"];
          d_conf := [PyInt (-1)];
          d_left := column 1 40; d_top := column 1 40;
          d_width := column 1 64; d_height := column 1 20 |}
  else if image =? "torn" then
    Raise (Exn TesseractError "Image too small to scale")
  else
    Ok {| d_text := []; d_conf := []; d_left := []; d_top := [];
          d_width := []; d_height := [] |}.

(** The double a decimal literal denotes: the nearest one. *)
Definition literal (q : Q) : double :=
  SFdiv 53 1024 (binary_normalize 53 1024 (Qnum q) 0 false)
                (binary_normalize 53 1024 (Zpos (Qden q)) 0 false).

Definition quad (x0 y0 x1 y1 : Q) : list (list double) :=
  [[literal x0; literal y0]; [literal x1; literal y0];
   [literal x1; literal y1]; [literal x0; literal y1]].

Definition paddle_engine (image : string) : result paddle_result :=
  if image =? "invoice" then
    Ok (Some [Some [Detection (quad 24 36 304 72) "Invoice" (PyFloat (49 # 50));
                    Malformed;
                    Detection (quad 24 90 120 110) "" (PyFloat (1 # 10))]])
  else if image =? "smudge" then
    Ok (Some [Some [Detection (quad 10 10 20 30) " " (PyFloat (1 # 2))]])
  else if image =? "hairline" then
    Ok (Some [Some [Detection (quad (51 # 5) 3 (109 # 10) 7) "l" (PyFloat (9 # 10))]])
  else if image =? "torn" then
    Raise (Exn RuntimeError "could not execute a primitive")
  else Ok (Some [None]).

(** The files on disk. *)
Definition tiff_bytes : bytes := [Byte.x49; Byte.x49; Byte.x2a; Byte.x00].
Definition damaged_tiff_bytes : bytes := [Byte.x4d; Byte.x4d; Byte.x00; Byte.x2a].
Definition blank_tiff_bytes : bytes := [Byte.x49; Byte.x49; Byte.x2a; Byte.x00; Byte.x08].
Definition pdf_bytes : bytes := [Byte.x25; Byte.x50; Byte.x44; Byte.x46].
Definition png_bytes : bytes := [Byte.x89; Byte.x50; Byte.x4e; Byte.x47].

Definition files : filesystem :=
  fun p =>
    if p =? "/srv/app/scans/ledger.tiff" then Some tiff_bytes
    else if p =? "/srv/app/scans/damaged.tiff" then Some damaged_tiff_bytes
    else if p =? "/srv/app/scans/blank.tiff" then Some blank_tiff_bytes
    else if p =? "/srv/app/scans/report.pdf" then Some pdf_bytes
    else if p =? "/srv/app/scans/notes.png" then Some png_bytes
    else None.

Fixpoint bytes_eqb (a b : bytes) : bool :=
  match a, b with
  | [], [] => true
  | c :: a', d :: b' => Byte.eqb c d && bytes_eqb a' b'
  | _, _ => false
  end.

(** The decoders: the frames of each TIFF, the pages of the PDF. *)
Definition open_image (contents : bytes) : result (list string) :=
  if bytes_eqb contents tiff_bytes then Ok ["invoice"; "blank"; "stamp"]
  else if bytes_eqb contents damaged_tiff_bytes then Ok ["invoice"; "torn"; "blank"]
  else if bytes_eqb contents blank_tiff_bytes then Ok ["blank"; "blank"]
  else Raise (Exn UnidentifiedImageError "cannot identify image file").

Definition render_pdf (contents : bytes) : result (list string) :=
  if bytes_eqb contents pdf_bytes then Ok ["invoice"; "blank"]
  else Raise (Exn PDFPageCountError "Unable to get page count.").

Definition external : External string :=
  {| convert_from_path := render_pdf;
     Image_open := open_image;
     convert_RGB := fun im => Ok im;
     image_to_data := tesseract_engine;
     PaddleOCR := Some paddle_engine;
     getcwd := "/srv/app";
     UPLOAD_DIR := "uploads";
     MAX_FILE_BYTES := 1024;
     insert_fault := fun _ => None;
     commit_fault := fun _ => None |}.

(** The same collaborators over a storage engine whose commits fail. *)
Definition external_commit_fails : External string :=
  {| convert_from_path := render_pdf;
     Image_open := open_image;
     convert_RGB := fun im => Ok im;
     image_to_data := tesseract_engine;
     PaddleOCR := Some paddle_engine;
     getcwd := "/srv/app";
     UPLOAD_DIR := "uploads";
     MAX_FILE_BYTES := 1024;
     insert_fault := fun _ => None;
     commit_fault := fun _ => Some (Exn OperationalError "database is locked") |}.

(** A session on a table that already holds one row. *)
Definition session : Session :=
  {| table := [{| models.id := 1; models.file_name := "old.pdf";
                  models.page_number := 1; models.line_number := 0;
                  models.line_text := "Receipt";
                  models.x := 5; models.y := 6;
                  models.width := 70; models.height := 12;
                  models.processed_at := 900 |}];
     pending := [];
     next_id := 2;
     now := 1000;
     calls := [] |}.

Definition stored (key : Z) (name : string) (page line : Z) (text : string)
  : models.OCRResult :=
  {| models.id := key; models.file_name := name;
     models.page_number := page; models.line_number := line;
     models.line_text := text;
     models.x := 10; models.y := 20; models.width := 90; models.height := 12;
     models.processed_at := 900 |}.

(** A session on a table with the rows of two files, in insertion order. *)
Definition archive : Session :=
  {| table := [stored 1 "ledger.tiff" 2 0 "Total";
               stored 2 "ledger.tiff" 1 3 "Item";
               stored 3 "memo.pdf" 1 0 "Memo";
               stored 4 "ledger.tiff" 1 1 "Invoice";
               stored 5 "ledger.tiff" 1 3 "Qty"];
     pending := [];
     next_id := 6;
     now := 1000;
     calls := [] |}.

(** The pages of [ledger.tiff] and the batch the layout engine reads off
    them. *)
Definition ledger_pages : list (Z * string) :=
  [(1%Z, "invoice"); (2%Z, "blank"); (3%Z, "stamp")].

Definition ledger_batch : list Row :=
  Eval vm_compute in
    match pages_loop (B := builtins) external "ledger.tiff" tesseract ledger_pages [] with
    | Ok batch => batch
    | Raise _ => []
    end.

End Sample.

(** The pages a list of converted frames gives: numbered from [first]. *)
Fixpoint numbered {Image : Type} (first : Z) (rgbs : list Image) : list (Z * Image) :=
  match rgbs with
  | [] => []
  | rgb :: rest => (first, rgb) :: numbered (first + 1) rest
  end.

(** The extension [_images_from_file] dispatches on. *)
Definition file_ext {Image : Type} (E : External Image) (path : string) : string :=
  Str.lower (snd (os_path.splitext (os_path.abspath (getcwd E) path))).

(** A row that carries the two keys [run_ocr_on_file] adds. *)
Definition tagged (name : string) (r : Row) : Prop :=
  file_name r = Some name /\ exists p, page_number r = Some p.

(** The exception [run_ocr_on_file] raises when the adapter raised [e] on
    page [page]. *)
Definition ocr_failed (page : Z) (e : exn) : exn :=
  Exn RuntimeError ("OCR failed on page " ++ Str.of_Z page ++ ": " ++ exn_msg e).

(** The rows a query for [name], and for page [page] when one is given, is
    about. *)
Definition matches (name : string) (page : option Z) (r : models.OCRResult) : bool :=
  (models.file_name r =? name)
  && match page with
     | Some p => (models.page_number r =? p)%Z
     | None => true
     end.

(** The rows the query of [get_results] selects: those of the file, and of
    the page when one is given and is not 0 ([if page_number:]). *)
Definition selected (name : string) (page : option Z) (r : models.OCRResult) : bool :=
  (models.file_name r =? name)
  && match page with
     | Some p => if (p =? 0)%Z then true else (models.page_number r =? p)%Z
     | None => true
     end.

(** The columns of the ORDER BY. *)
Definition sort_key (r : models.OCRResult) : Z * Z :=
  (models.page_number r, models.line_number r).

(** Ascending order on [(page_number, line_number)], on stored rows and on
    response rows. *)
Definition stored_order (a b : models.OCRResult) : Prop :=
  (models.page_number a < models.page_number b)%Z
  \/ (models.page_number a = models.page_number b
      /\ (models.line_number a <= models.line_number b)%Z).

Definition page_line_order (a b : schemas.ResultRow) : Prop :=
  (schemas.page_number a < schemas.page_number b)%Z
  \/ (schemas.page_number a = schemas.page_number b
      /\ (schemas.line_number a <= schemas.line_number b)%Z).

(** ** File names *)





(** ** Sample documents for the page extractor *)

Module Documents.

Definition empty_pdf_bytes : bytes :=
  [Byte.x25; Byte.x50; Byte.x44; Byte.x46; Byte.x2d].

Definition files : filesystem :=
  fun p =>
    if p =? "/srv/app/scans/report.pdf" then Some Sample.pdf_bytes
    else if p =? "/srv/app/scans/empty.pdf" then Some empty_pdf_bytes
    else if p =? "/srv/app/scans/broken.pdf" then Some Sample.png_bytes
    else if p =? "/srv/app/scans/damaged.tiff" then Some Sample.damaged_tiff_bytes
    else None.

Definition render_pdf (contents : bytes) : result (list string) :=
  if Sample.bytes_eqb contents empty_pdf_bytes then Ok []
  else Sample.render_pdf contents.

(** The frame "torn" is cut short: converting it runs off the end of the
    data. *)
Definition convert (frame : string) : result string :=
  if frame =? "torn" then Raise (Exn EOFError "unexpected end of file")
  else Ok frame.

Definition external : External string :=
  {| convert_from_path := render_pdf;
     Image_open := Sample.open_image;
     convert_RGB := convert;
     image_to_data := Sample.tesseract_engine;
     PaddleOCR := Some Sample.paddle_engine;
     getcwd := "/srv/app";
     UPLOAD_DIR := "uploads";
     MAX_FILE_BYTES := 1024;
     insert_fault := fun _ => None;
     commit_fault := fun _ => None |}.

End Documents.

(** ** Specification of the layout-engine adapter *)

(** The cell of the text column at index [i] has text left after trimming. *)
Definition nonblank (texts : list string) (i : nat) : bool :=
  match nth_error texts i with
  | Some cell => Str.truthy (Str.strip cell)
  | None => false
  end.



(** The box of a row is read off the geometry columns at the row's index. *)
Definition tesseract_box {B : Builtins} (data : TessData) (r : Row) : Prop :=
  exists (i : nat) l t w h,
    line_number r = Z.of_nat i
    /\ nth_error (d_left data) i = Some l /\ py_int l = Ok (x r)
    /\ nth_error (d_top data) i = Some t /\ py_int t = Ok (y r)
    /\ nth_error (d_width data) i = Some w /\ py_int w = Ok (width r)
    /\ nth_error (d_height data) i = Some h /\ py_int h = Ok (height r).

(** ** Sample tables of the layout engine *)

Module Tables.

(** A page of blank cells, the other columns left empty. *)
Definition engine (image : string) : result TessData :=
  if image =? "margins" then
    Ok {| d_text := [""; "   "; " "];
          d_conf := []; d_left := []; d_top := [];
          d_width := []; d_height := [] |}
  else Sample.tesseract_engine image.

Definition external : External string :=
  {| convert_from_path := Sample.render_pdf;
     Image_open := Sample.open_image;
     convert_RGB := fun im => Ok im;
     image_to_data := engine;
     PaddleOCR := None;
     getcwd := "/srv/app";
     UPLOAD_DIR := "uploads";
     MAX_FILE_BYTES := 1024;
     insert_fault := fun _ => None;
     commit_fault := fun _ => None |}.

Definition stamp_table : TessData :=
  {| d_text := ["PAID"];
     d_conf := [PyInt (-1)];
     d_left := Sample.column 1 40; d_top := Sample.column 1 40;
     d_width := Sample.column 1 64; d_height := Sample.column 1 20 |}.

Definition invoice_table : TessData :=
  Eval vm_compute in
    match Sample.tesseract_engine "invoice" with
    | Ok data => data
    | Raise _ => stamp_table
    end.

Definition invoice_rows : list Row :=
  Eval vm_compute in
    match _ocr_tesseract (B := Sample.builtins) Sample.external "invoice" with
    | Ok rows => rows
    | Raise _ => []
    end.

End Tables.

(** ** Specification of the detector-recognizer adapter *)

(** The entry at index [i] is a detection with text. *)
Definition kept_line (lines : list paddle_line) (i : nat) : bool :=
  match nth_error lines i with
  | Some (Detection _ text _) => Str.truthy text
  | _ => false
  end.



(** ** Sample detections *)

Module Detections.

Definition engine (image : string) : result paddle_result :=
  if image =? "receipt" then
    Ok (Some [Some [Malformed;
                    Detection (Sample.quad 8 8 120 30) "Shop" (PyFloat (97 # 100));
                    Detection (Sample.quad 8 40 90 60) "" (PyFloat (1 # 5));
                    Detection (Sample.quad 8 70 140 96) "Total" (PyInt 1)]])
  else if image =? "speck" then
    Ok (Some [Some [Detection (Sample.quad 8 8 120 30) "Shop" (PyFloat (97 # 100));
                    Detection [] "x" (PyFloat (1 # 2));
                    Detection (Sample.quad 8 70 140 96) "Total" (PyInt 1)]])
  else Ok None.

Definition external : External string :=
  {| convert_from_path := Sample.render_pdf;
     Image_open := Sample.open_image;
     convert_RGB := fun im => Ok im;
     image_to_data := Sample.tesseract_engine;
     PaddleOCR := Some engine;
     getcwd := "/srv/app";
     UPLOAD_DIR := "uploads";
     MAX_FILE_BYTES := 1024;
     insert_fault := fun _ => None;
     commit_fault := fun _ => None |}.

Definition receipt_lines : list paddle_line :=
  Eval vm_compute in
    match engine "receipt" with
    | Ok res => detected res
    | Raise _ => []
    end.

Definition receipt_rows : list Row :=
  Eval vm_compute in
    match _ocr_paddle (B := Sample.builtins) external "receipt" with
    | Ok rows => rows
    | Raise _ => []
    end.

End Detections.

(** ** Polygons at the edges of the format *)

Module Polygons.

(** The double next below 1, and the largest double. *)
Definition below_one : double := S754_finite false 9007199254740991 (-53).
Definition largest : double := S754_finite false 9007199254740991 971.

Definition segment (x0 x1 : double) : list (list double) :=
  [[x0; Sample.literal 5]; [x1; Sample.literal 9]].

Definition engine (image : string) : result paddle_result :=
  if image =? "rounded" then
    Ok (Some [Some [Detection (segment (Sample.literal (-3 # 2)) below_one)
                      "a" (PyFloat 1)]])
  else if image =? "vast" then
    Ok (Some [Some [Detection (segment (SFopp largest) largest) "b" (PyFloat 1)]])
  else if image =? "undefined" then
    Ok (Some [Some [Detection (segment S754_nan below_one) "c" (PyFloat 1)]])
  else Ok None.

Definition external : External string :=
  {| convert_from_path := Sample.render_pdf;
     Image_open := Sample.open_image;
     convert_RGB := fun im => Ok im;
     image_to_data := Sample.tesseract_engine;
     PaddleOCR := Some engine;
     getcwd := "/srv/app";
     UPLOAD_DIR := "uploads";
     MAX_FILE_BYTES := 1024;
     insert_fault := fun _ => None;
     commit_fault := fun _ => None |}.

End Polygons.

(** ** A table without ties *)

Module Journal.

(** A session on a table where no two rows of a file have the same page
    and line, in an insertion order that is not the sorted one. *)
Definition session : Session :=
  {| table := [Sample.stored 1 "journal.tiff" 2 1 "Carried";
               Sample.stored 2 "journal.tiff" 1 4 "Rent";
               Sample.stored 3 "notes.pdf" 1 0 "Notes";
               Sample.stored 4 "journal.tiff" 1 0 "Journal";
               Sample.stored 5 "journal.tiff" 2 0 "Balance";
               Sample.stored 6 "journal.tiff" 1 2 "Wages"];
     pending := [];
     next_id := 7;
     now := 1000;
     calls := [] |}.

End Journal.

(** ** Specification of the batch *)

(** The rows of one page, tagged. *)
Definition tag_rows (name : string) (page : Z) (rows : list Row) : list Row :=
  map (fun r => update r name page) rows.

(** The batch of a document: page after page, each page's rows in the
    adapter's order. *)
Definition batch_of {Image : Type} (name : string) (images : list (Z * Image))
    (rowss : list (list Row)) : list Row :=
  List.concat (map (fun pr : (Z * Image) * list Row => tag_rows name (fst (fst pr)) (snd pr))
              (combine images rowss)).

(** The message of [get_paddle_ocr] when the package is missing. *)
Definition paddle_missing : string :=
  "PaddleOCR not installed. Run `pip install paddleocr paddlepaddle`.".

(** ** The listing operation ([main.py]) *)

Module files.

(** [schemas.FileSummary] *)
Record FileSummary := {
  file_name : string;
  pages : Z;
  rows : Z
}.

End files.

(** The dictionary [results] of [list_files]: file name to the pair
    (pages, rows), in insertion order. *)
Definition tallies := list (string * (Z * Z)).

(** [d.get(f)] *)
Fixpoint dict_get (f : string) (d : tallies) : option (Z * Z) :=
  match d with
  | [] => None
  | (k, v) :: rest => if k =? f then Some v else dict_get f rest
  end.

(** [d[f] = v]: in place when the key is there, at the end when it is not. *)
Fixpoint dict_set (f : string) (v : Z * Z) (d : tallies) : tallies :=
  match d with
  | [] => [(f, v)]
  | (k, w) :: rest =>
      if k =? f then (k, v) :: rest else (k, w) :: dict_set f v rest
  end.

(** The body of the loop of [list_files] for one pair of the query. *)
Definition list_files_step (results : tallies) (fp : string * Z) : tallies :=
  let '(f, p) := fp in
  let results :=
    match dict_get f results with
    | None => dict_set f (0%Z, 0%Z) results
    | Some _ => results
    end in
  match dict_get f results with
  | Some (pages, rows) => dict_set f (Z.max pages p, (rows + 1)%Z) results
  | None => results
  end.

(** [list_files]: the query over the table, the loop, the summaries in the
    order of the dictionary. *)
Definition list_files (db : Session) : list files.FileSummary :=
  let q := map (fun r => (models.file_name r, models.page_number r)) (table db) in
  let results := fold_left list_files_step q [] in
  map (fun kv : string * (Z * Z) =>
         {| files.file_name := fst kv;
            files.pages := fst (snd kv);
            files.rows := snd (snd kv) |})
      results.

(** The stored rows of one file, the number of them, and the largest of 0
    and their page numbers. *)
Definition rows_of (f : string) (t : list models.OCRResult) : list models.OCRResult :=
  filter (fun r => models.file_name r =? f) t.

Definition max_page (f : string) (t : list models.OCRResult) : Z :=
  fold_left Z.max (map models.page_number (rows_of f t)) 0%Z.
(** What the dictionary holds once the loop has read the rows [t]. *)
Definition tally_of (f : string) (t : list models.OCRResult) : option (Z * Z) :=
  match rows_of f t with
  | [] => None
  | _ => Some (max_page f t, Z.of_nat (List.length (rows_of f t)))
  end.

(** The sum of a list of integers. *)
Definition sum_Z (l : list Z) : Z := fold_right Z.add 0%Z l.

(** * Properties *)

Unset Implicit Arguments.

(** ** Strings *)

Lemma rstrip_idempotent (s : string) : Str.rstrip (Str.rstrip s) = Str.rstrip s.
Proof.
  induction s as [|c s IH]; simpl; [reflexivity|].
  destruct (Str.rstrip s) as [|d r] eqn:Hr.
  - destruct (Str.isspace c) eqn:Hc; simpl; [reflexivity|].
    rewrite Hc. reflexivity.
  - simpl in *. rewrite IH. reflexivity.
Qed.

Lemma rstrip_head (c : ascii) (s : string) :
  Str.isspace c = false -> exists r, Str.rstrip (String c s) = String c r.
Proof.
  intros Hc. simpl. destruct (Str.rstrip s).
  - rewrite Hc. eauto.
  - eauto.
Qed.

Lemma lstrip_head (s : string) :
  Str.lstrip s = "" \/ exists c r, Str.lstrip s = String c r /\ Str.isspace c = false.
Proof.
  induction s as [|c s IH]; simpl; [now left|].
  destruct (Str.isspace c) eqn:Hc; [exact IH|].
  right. eauto.
Qed.

(** Trimming a trimmed string changes nothing. *)
Lemma strip_idempotent (s : string) : Str.strip (Str.strip s) = Str.strip s.
Proof.
  unfold Str.strip.
  destruct (lstrip_head s) as [H | (c & r & H & Hc)]; rewrite H.
  - reflexivity.
  - destruct (rstrip_head c r Hc) as [r' Hr]. rewrite Hr.
    simpl Str.lstrip. rewrite Hc. rewrite <- Hr. apply rstrip_idempotent.
Qed.

Lemma truthy_true (s : string) : Str.truthy s = true <-> s <> "".
Proof. destruct s; simpl; split; congruence. Qed.

(** ** Loops *)

(** A property of the loop state that every iteration preserves holds when
    the loop ends. *)
Lemma for_each_invariant {A S} (P : S -> Prop) (body : A -> S -> result S) :
  forall (xs : list A) (s s' : S),
    P s ->
    (forall a t t', In a xs -> P t -> body a t = Ok t' -> P t') ->
    for_each xs body s = Ok s' -> P s'.
Proof.
  induction xs as [|a xs IH]; simpl; intros s s' Hs Hstep Hrun.
  - congruence.
  - destruct (body a s) as [t|e] eqn:Hb; simpl in Hrun; [|discriminate].
    eapply IH; [ | | exact Hrun ]; eauto.
Qed.

Lemma bind_Ok {A B} (c : result A) (k : A -> result B) (b : B) :
  bind c k = Ok b -> exists a, c = Ok a /\ k a = Ok b.
Proof. destruct c; simpl; [eauto | discriminate]. Qed.

Lemma index_Ok {A} (xs : list A) (i : nat) (a : A) :
  index xs i = Ok a -> nth_error xs i = Some a.
Proof. unfold index. destruct (nth_error xs i); congruence. Qed.

Ltac inv_bind H :=
  let a := fresh "v" in
  let Ha := fresh "Hv" in
  apply bind_Ok in H; destruct H as (a & Ha & H).

(** ** Doubles

    Rounding, truncation and order on the binary64 numbers, through their
    values in units of 2^-1074. *)

Section DoubleFacts.
Local Open Scope Z_scope.

Lemma digits2_size (p : positive) : digits2_pos p = Pos.size p.
Proof. induction p; simpl; congruence. Qed.

Lemma digits2_log2 (p : positive) : Zpos (digits2_pos p) = Z.log2 (Zpos p) + 1.
Proof.
  destruct p; simpl; rewrite ?digits2_size; lia.
Qed.

Lemma digits2_bounds (p : positive) :
  2 ^ (Zpos (digits2_pos p) - 1) <= Zpos p < 2 ^ Zpos (digits2_pos p).
Proof.
  rewrite digits2_log2. replace (Z.log2 (Zpos p) + 1 - 1) with (Z.log2 (Zpos p)) by lia.
  apply Z.log2_spec. lia.
Qed.

Lemma iter_xO (m p : positive) : Zpos (Pos.iter xO m p) = Zpos m * 2 ^ Zpos p.
Proof.
  induction p as [|p IH] using Pos.peano_ind.
  - simpl. lia.
  - rewrite Pos.iter_succ, Pos2Z.inj_succ, Z.pow_succ_r by lia.
    rewrite Pos2Z.inj_xO, IH. lia.
Qed.

Lemma iter_pos_iter {A} (f : A -> A) (p : positive) (a : A) :
  iter_pos f p a = Pos.iter f a p.
Proof.
  revert a. induction p as [p IH|p IH|]; intros a; simpl.
  - rewrite !IH. now rewrite !Pos.iter_swap.
  - now rewrite !IH.
  - reflexivity.
Qed.

Lemma shr_low_zeros (m p : positive) :
  iter_pos shr_1 p {| shr_m := Zpos m * 2 ^ Zpos p; shr_r := false; shr_s := false |}
  = {| shr_m := Zpos m; shr_r := false; shr_s := false |}.
Proof.
  rewrite iter_pos_iter.
  induction p as [|p IH] using Pos.peano_ind.
  - replace (Zpos m * 2 ^ 1) with (Zpos m~0) by lia. reflexivity.
  - rewrite Pos.iter_succ_r.
    rewrite Pos2Z.inj_succ, Z.pow_succ_r by lia.
    replace (Zpos m * (2 * 2 ^ Zpos p)) with (Zpos (Pos.iter xO m p)~0)
      by (rewrite Pos2Z.inj_xO, iter_xO; lia).
    simpl. rewrite iter_xO. exact IH.
Qed.

(** Rounding a mantissa that is already canonical. *)
Lemma round_aux_canonical (s : bool) (m : positive) (e : Z) :
  bounded 53 1024 m e = true ->
  binary_round_aux 53 1024 s (Zpos m) e loc_Exact = S754_finite s m e.
Proof.
  intros Hb. apply andb_true_iff in Hb as [Hc He].
  unfold canonical_mantissa in Hc. apply Z.eqb_eq in Hc.
  unfold binary_round_aux, shr_fexp. cbn [Zdigits2 shr_record_of_loc].
  rewrite Hc, Z.sub_diag. cbn [shr shr_m loc_of_shr_record round_nearest_even Zdigits2].
  rewrite Hc, Z.sub_diag. cbn [shr shr_m]. now rewrite He.
Qed.

Lemma round_aux_low_zeros (s : bool) (m D : positive) (e ez : Z) :
  bounded 53 1024 m e = true -> ez < e ->
  Zpos D = Zpos m * 2 ^ (e - ez) ->
  binary_round_aux 53 1024 s (Zpos D) ez loc_Exact = S754_finite s m e.
Proof.
  intros Hb Hlt HD. pose proof Hb as Hb'.
  apply andb_true_iff in Hb as [Hc He].
  unfold canonical_mantissa in Hc. apply Z.eqb_eq in Hc.
  assert (Hd : Zpos (digits2_pos D) + ez = Zpos (digits2_pos m) + e).
  { rewrite !digits2_log2, HD, Z.log2_mul_pow2 by lia. lia. }
  unfold binary_round_aux, shr_fexp. cbn [Zdigits2 shr_record_of_loc].
  rewrite Hd, Hc.
  destruct (e - ez) as [|p|p] eqn:Hp; try lia.
  cbn [shr]. rewrite HD, shr_low_zeros.
  cbn [shr_m loc_of_shr_record round_nearest_even Zdigits2].
  replace (ez + Zpos p) with e by lia.
  rewrite Hc, Z.sub_diag. cbn [shr shr_m]. now rewrite He.
Qed.

(** Rounding is the identity on the representable numbers: a mantissa and
    exponent of the value of a valid double round to that double. *)
Lemma round_representable (s : bool) (D m : positive) (ez e : Z) :
  bounded 53 1024 m e = true -> -1074 <= ez ->
  Zpos D * 2 ^ (ez + 1074) = Zpos m * 2 ^ (e + 1074) ->
  binary_round 53 1024 s D ez = S754_finite s m e.
Proof.
  intros Hb Hez Hval. pose proof Hb as Hb'.
  apply andb_true_iff in Hb as [Hc He].
  unfold canonical_mantissa in Hc. apply Z.eqb_eq in Hc.
  assert (Hemin : -1074 <= e) by (unfold fexp, emin in Hc; lia).
  assert (Hd : Zpos (digits2_pos D) + ez = Zpos (digits2_pos m) + e).
  { apply (f_equal Z.log2) in Hval.
    assert (H1 : 0 <= ez + 1074) by lia. assert (H2 : 0 <= e + 1074) by lia.
    rewrite (Z.log2_mul_pow2 (Zpos D)), (Z.log2_mul_pow2 (Zpos m)) in Hval
      by (reflexivity || assumption).
    rewrite !digits2_log2. lia. }
  assert (H1 : 0 <= ez + 1074) by lia. assert (H2 : 0 <= e + 1074) by lia.
  assert (H3 : 2 ^ (ez + 1074) <> 0) by (apply Z.pow_nonzero; lia).
  assert (H4 : 2 ^ (e + 1074) <> 0) by (apply Z.pow_nonzero; lia).
  unfold binary_round. rewrite Hd, Hc. unfold shl_align.
  destruct (e - ez) as [|p|p] eqn:Hp.
  - assert (e = ez) by lia. subst ez.
    assert (D = m) by (apply Z.mul_cancel_r in Hval; [congruence | assumption]).
    subst D. now apply round_aux_canonical.
  - apply round_aux_low_zeros; [exact Hb' | lia |].
    rewrite Hp.
    replace (e + 1074) with (Zpos p + (ez + 1074)) in Hval by lia.
    rewrite (Z.pow_add_r 2 (Zpos p)), Z.mul_assoc in Hval by lia.
    apply Z.mul_cancel_r in Hval; [exact Hval | assumption].
  - assert (Pos.iter xO D p = m) as ->.
    { assert (Zpos (Pos.iter xO D p) = Zpos m) as Heq; [|congruence].
      rewrite iter_xO.
      replace (ez + 1074) with (Zpos p + (e + 1074)) in Hval by lia.
      rewrite (Z.pow_add_r 2 (Zpos p)), Z.mul_assoc in Hval by lia.
      apply Z.mul_cancel_r in Hval; [exact Hval | assumption]. }
    now apply round_aux_canonical.
Qed.

(** *** The value of a valid double *)

Lemma bounded_spec (m : positive) (e : Z) :
  bounded 53 1024 m e = true ->
  -1074 <= e <= 971 /\ Zpos (digits2_pos m) <= 53
  /\ (-1074 < e -> Zpos (digits2_pos m) = 53).
Proof.
  intros Hb. apply andb_true_iff in Hb as [Hc He].
  unfold canonical_mantissa in Hc. apply Z.eqb_eq in Hc. apply Z.leb_le in He.
  unfold fexp, emin in Hc. lia.
Qed.

Lemma bounded_intro (m : positive) (e : Z) :
  -1074 <= e <= 971 -> Zpos (digits2_pos m) <= 53 ->
  (-1074 < e -> Zpos (digits2_pos m) = 53) ->
  bounded 53 1024 m e = true.
Proof.
  intros He Hd Hn. apply andb_true_iff. split.
  - apply Z.eqb_eq. unfold fexp, emin. lia.
  - apply Z.leb_le. lia.
Qed.

Lemma pow2_pos (n : Z) : 0 <= n -> 0 < 2 ^ n.
Proof. intros. apply Z.pow_pos_nonneg; lia. Qed.

Lemma ulps_finite (s : bool) (m : positive) (e : Z) :
  -1074 <= e ->
  if s then ulps (S754_finite s m e) < 0 else 0 < ulps (S754_finite s m e).
Proof.
  intros He. pose proof (pow2_pos (e + 1074) ltac:(lia)) as Hp.
  unfold ulps, cond_Zopp. destruct s; [rewrite Z.mul_opp_l|]; nia.
Qed.

Lemma normalize_representable (D ez : Z) (f : double) :
  valid_double f = true -> is_finite f = true -> -1074 <= ez -> D <> 0 ->
  ulps f = D * 2 ^ (ez + 1074) ->
  binary_normalize 53 1024 D ez false = f.
Proof.
  intros Hv Hf Hez HD Hu.
  pose proof (pow2_pos (ez + 1074) ltac:(lia)) as Hp.
  destruct f as [s|s| |s m e]; try discriminate.
  - simpl in Hu. nia.
  - simpl in Hv. pose proof (bounded_spec m e Hv) as (He & _).
    pose proof (ulps_finite s m e ltac:(lia)) as Hs.
    destruct D as [|d|d]; [lia| |]; simpl binary_normalize.
    + destruct s; [rewrite Hu in Hs; clear - Hs Hp; nia|].
      apply round_representable; [exact Hv | exact Hez |].
      cbn [ulps cond_Zopp] in Hu. lia.
    + destruct s; [|rewrite Hu in Hs; clear - Hs Hp; nia].
      apply round_representable; [exact Hv | exact Hez |].
      cbn [ulps cond_Zopp] in Hu. lia.
Qed.

Lemma shl_align_ulps (m : positive) (e ez : Z) :
  ez <= e -> -1074 <= ez ->
  Zpos (fst (shl_align m e ez)) * 2 ^ (ez + 1074) = Zpos m * 2 ^ (e + 1074).
Proof.
  intros Hle Hez. unfold shl_align.
  destruct (ez - e) as [|p|p] eqn:Hp; cbn [fst]; try lia.
  - replace e with ez by lia. reflexivity.
  - rewrite iter_xO. replace (e + 1074) with (Zpos p + (ez + 1074)) by lia.
    rewrite (Z.pow_add_r 2 (Zpos p)) by lia. ring.
Qed.

(** The difference of two doubles, when it is a double, is computed
    exactly. *)
Lemma sub_exact (a b f : double) :
  valid_double a = true -> valid_double b = true -> valid_double f = true ->
  is_finite a = true -> is_finite b = true -> is_finite f = true ->
  ulps f = ulps a - ulps b ->
  is_finite (SFsub 53 1024 a b) = true
  /\ valid_double (SFsub 53 1024 a b) = true
  /\ ulps (SFsub 53 1024 a b) = ulps a - ulps b.
Proof.
  intros Va Vb Vf Fa Fb Ff Hu.
  destruct a as [sa|sa| |sa ma ea]; try discriminate;
    destruct b as [sb|sb| |sb mb eb]; try discriminate.
  - destruct sa, sb; simpl; auto.
  - cbn [SFsub]. split; [reflexivity|]. split; [exact Vb|].
    destruct sb; cbn [ulps cond_Zopp negb]; rewrite ?Z.mul_opp_l; lia.
  - cbn [SFsub]. split; [reflexivity|]. split; [exact Va|]. cbn [ulps]. lia.
  - simpl in Va, Vb.
    pose proof (bounded_spec ma ea Va) as (Hea & _).
    pose proof (bounded_spec mb eb Vb) as (Heb & _).
    cbn [SFsub].
    set (ez := Z.min ea eb).
    set (D := cond_Zopp sa (Zpos (fst (shl_align ma ea ez)))
              - cond_Zopp sb (Zpos (fst (shl_align mb eb ez)))).
    assert (Hez : -1074 <= ez) by (subst ez; lia).
    assert (HD : D * 2 ^ (ez + 1074)
                 = ulps (S754_finite sa ma ea) - ulps (S754_finite sb mb eb)).
    { subst D. cbn [ulps]. rewrite Z.mul_sub_distr_r.
      pose proof (shl_align_ulps ma ea ez ltac:(subst ez; lia) Hez) as H1.
      pose proof (shl_align_ulps mb eb ez ltac:(subst ez; lia) Hez) as H2.
      destruct sa, sb; cbn [cond_Zopp]; lia. }
    destruct (Z.eq_dec D 0) as [H0|H0].
    + rewrite H0. cbn [binary_normalize]. rewrite H0 in HD. simpl in HD |- *.
      repeat split; try reflexivity. simpl. lia.
    + rewrite (normalize_representable D ez f Vf Ff Hez H0) by lia.
      repeat split; assumption || lia.
Qed.

(** Every [D * 2^k] with [D] of at most 53 bits, within the exponent
    range, is a double. *)
Lemma representable_small (D k : Z) :
  Z.abs D < 2 ^ 53 -> 0 <= k <= 2045 ->
  exists f, valid_double f = true /\ is_finite f = true /\ ulps f = D * 2 ^ k.
Proof.
  intros HD Hk.
  destruct (Z.eq_dec D 0) as [->|Hnz].
  { exists (S754_zero false). repeat split. }
  set (a := Z.to_pos (Z.abs D)).
  assert (Ha : Zpos a = Z.abs D) by (subst a; rewrite Z2Pos.id; lia).
  set (d := Zpos (digits2_pos a)).
  pose proof (digits2_bounds a) as Hd. fold d in Hd.
  assert (Hd53 : d <= 53).
  { destruct (Z_le_gt_dec d 53) as [|Hgt]; [assumption|].
    assert (2 ^ 53 <= 2 ^ (d - 1)) by (apply Z.pow_le_mono_r; lia). lia. }
  assert (Hd1 : 1 <= d) by (subst d; lia).
  set (e := Z.max (d + (k - 1074) - 53) (-1074)).
  set (sh := k - 1074 - e).
  assert (Hsh : 0 <= sh) by (subst sh e; lia).
  set (m := Z.to_pos (Zpos a * 2 ^ sh)).
  pose proof (pow2_pos sh Hsh) as Hpsh.
  assert (Hm : Zpos m = Zpos a * 2 ^ sh) by (subst m; rewrite Z2Pos.id; nia).
  assert (Hdm : Zpos (digits2_pos m) = d + sh).
  { rewrite digits2_log2, Hm, Z.log2_mul_pow2 by lia.
    subst d. rewrite digits2_log2. lia. }
  exists (S754_finite (D <? 0) m e). split; [|split].
  - simpl. apply bounded_intro; subst e sh; lia.
  - reflexivity.
  - cbn [ulps]. rewrite Hm.
    replace (2 ^ k) with (2 ^ sh * 2 ^ (e + 1074))
      by (rewrite <- Z.pow_add_r by (subst e; lia); f_equal; subst sh; lia).
    destruct (Z.ltb_spec D 0); cbn [cond_Zopp]; rewrite Ha; [|rewrite Z.abs_eq by lia; ring].
    rewrite Z.abs_neq by lia. ring.
Qed.

(** *** Truncation *)

Lemma shiftl_quot (m : positive) (e : Z) :
  -1074 <= e -> Z.shiftl (Zpos m) e = (Zpos m * 2 ^ (e + 1074)) / scale.
Proof.
  intros He. unfold scale. destruct (Z_le_gt_dec 0 e) as [Hpos|Hneg].
  - rewrite Z.shiftl_mul_pow2 by lia.
    rewrite (Z.pow_add_r 2 e 1074), Z.mul_assoc by lia.
    symmetry. apply Z.div_mul. apply Z.pow_nonzero; lia.
  - rewrite Z.shiftl_div_pow2 by lia.
    replace 1074 with (- e + (e + 1074)) at 2 by lia.
    rewrite (Z.pow_add_r 2 (- e)) by lia.
    symmetry. apply Z.div_mul_cancel_r; apply Z.pow_nonzero; lia.
Qed.

Lemma scale_pos : 0 < scale.
Proof. unfold scale. apply pow2_pos. lia. Qed.

Lemma int_of_float_quot (f : double) :
  valid_double f = true -> is_finite f = true ->
  int_of_float f = Ok (Z.quot (ulps f) scale).
Proof.
  intros Hv Hf. pose proof scale_pos as HT.
  destruct f as [s|s| |s m e]; try discriminate.
  - reflexivity.
  - simpl in Hv. pose proof (bounded_spec m e Hv) as (He & _).
    cbn [int_of_float ulps]. f_equal.
    pose proof (pow2_pos (e + 1074) ltac:(lia)) as Hp.
    rewrite shiftl_quot by lia.
    destruct s; cbn [cond_Zopp].
    + rewrite Z.mul_opp_l, Z.quot_opp_l by lia. f_equal.
      symmetry. apply Z.quot_div_nonneg; nia.
    + symmetry. apply Z.quot_div_nonneg; nia.
Qed.

Lemma quot_truncates (a : Z) : truncates a (Z.quot a scale).
Proof.
  pose proof scale_pos as HT. unfold truncates.
  destruct (Z_le_gt_dec 0 a) as [Hpos|Hneg].
  - left. rewrite Z.quot_div_nonneg by lia.
    pose proof (Z.div_mod a scale ltac:(lia)). pose proof (Z.mod_pos_bound a scale HT). nia.
  - right.
    assert (Hq : Z.quot a scale = - (- a / scale)).
    { rewrite <- (Z.opp_involutive a) at 1.
      rewrite Z.quot_opp_l, Z.quot_div_nonneg by lia. reflexivity. }
    rewrite Hq.
    pose proof (Z.div_mod (- a) scale ltac:(lia)). pose proof (Z.mod_pos_bound (- a) scale HT).
    nia.
Qed.

Lemma truncates_unique (a z z' : Z) : truncates a z -> truncates a z' -> z = z'.
Proof.
  pose proof scale_pos as HT. unfold truncates.
  assert (Hlt : forall u v, u * scale < v * scale -> u < v)
    by (intros u v; apply Z.mul_lt_mono_pos_r; exact HT).
  intros [H|H] [H'|H'].
  - assert (z < z' + 1) by (apply Hlt; lia). assert (z' < z + 1) by (apply Hlt; lia). lia.
  - assert (z < z' + 1) by (apply Hlt; lia). assert (z' - 1 < z + 1) by (apply Hlt; lia).
    assert (z' - 1 < 0) by (apply Hlt; lia). assert (-1 < z) by (apply Hlt; lia).
    assert (z < 1) by (apply Hlt; lia). assert (-1 < z') by (apply Hlt; lia). lia.
  - assert (z - 1 < 0) by (apply Hlt; lia). assert (-1 < z') by (apply Hlt; lia).
    assert (z' < 1) by (apply Hlt; lia). assert (-1 < z) by (apply Hlt; lia). lia.
  - assert (z - 1 < z') by (apply Hlt; lia). assert (z' - 1 < z) by (apply Hlt; lia). lia.
Qed.

Lemma int_of_float_spec (f : double) (z : Z) :
  valid_double f = true -> is_finite f = true ->
  int_of_float f = Ok z <-> truncates (ulps f) z.
Proof.
  intros Hv Hf. rewrite (int_of_float_quot f Hv Hf). split.
  - intros [= <-]. apply quot_truncates.
  - intros H. f_equal. eapply truncates_unique; [apply quot_truncates | exact H].
Qed.

Lemma int_of_float_finite (f : double) (z : Z) :
  int_of_float f = Ok z -> is_finite f = true.
Proof. destruct f; simpl; congruence. Qed.

(** *** Conversion of integers *)

Lemma mantissa_bound (m : positive) (e : Z) :
  bounded 53 1024 m e = true -> Zpos m < 2 ^ 53.
Proof.
  intros Hb. pose proof (bounded_spec m e Hb) as (_ & Hd & _).
  pose proof (digits2_bounds m) as [_ Hm].
  assert (2 ^ Zpos (digits2_pos m) <= 2 ^ 53) by (apply Z.pow_le_mono_r; lia). lia.
Qed.

Lemma float_of_int_representable (z : Z) (f : double) :
  valid_double f = true -> is_finite f = true -> ulps f = z * scale ->
  exists k, float_of_int z = Ok k /\ valid_double k = true /\ is_finite k = true
            /\ ulps k = z * scale.
Proof.
  intros Hv Hf Hu. unfold float_of_int.
  destruct (Z.eq_dec z 0) as [->|Hnz].
  - exists (S754_zero false). repeat split.
  - rewrite (normalize_representable z 0 f Hv Hf) by (assumption || lia).
    exists f. destruct f; try discriminate; repeat split; assumption.
Qed.

(** The integer part of a double is a double. *)
Lemma float_of_int_trunc (c : double) (z : Z) :
  valid_double c = true -> int_of_float c = Ok z ->
  exists k, float_of_int z = Ok k /\ valid_double k = true /\ is_finite k = true
            /\ ulps k = z * scale.
Proof.
  intros Hv Hz. pose proof (int_of_float_finite c z Hz) as Hf.
  destruct c as [s|s| |s m e]; try discriminate.
  - injection Hz as <-. exists (S754_zero false). repeat split.
  - simpl in Hv. pose proof (bounded_spec m e Hv) as (He & _).
    destruct (Z_le_gt_dec 0 e) as [Hpos|Hneg].
    + apply (float_of_int_representable z (S754_finite s m e)); try assumption.
      cbn [int_of_float] in Hz. injection Hz as <-. cbn [ulps].
      rewrite Z.shiftl_mul_pow2 by lia. unfold scale.
      rewrite (Z.pow_add_r 2 e 1074) by lia.
      destruct s; cbn [cond_Zopp]; ring.
    + destruct (representable_small z 1074) as (f & Vf & Ff & Uf); [|lia|].
      * cbn [int_of_float] in Hz. injection Hz as <-.
        rewrite Z.shiftl_div_pow2 by lia.
        pose proof (mantissa_bound m e Hv) as Hm.
        pose proof (pow2_pos (- e) ltac:(lia)) as Hp.
        assert (0 <= Zpos m / 2 ^ (- e) <= Zpos m).
        { split; [apply Z.div_pos; lia|].
          apply Z.div_le_upper_bound; [lia|]. nia. }
        destruct s; cbn [cond_Zopp]; lia.
      * apply (float_of_int_representable z f Vf Ff). exact Uf.
Qed.

(** *** Comparison *)

Lemma ulps_bound (f : double) :
  valid_double f = true -> Z.abs (ulps f) < 2 ^ 2098.
Proof.
  intros Hv.
  destruct f as [s|s| |s m e]; try (change (0 < 2 ^ 2098); apply pow2_pos; lia).
  simpl in Hv. pose proof (bounded_spec m e Hv) as (He & _).
  pose proof (mantissa_bound m e Hv) as Hm.
  pose proof (pow2_pos (e + 1074) ltac:(lia)) as Hp.
  assert (Hle : 2 ^ (e + 1074) <= 2 ^ 2045) by (apply Z.pow_le_mono_r; lia).
  replace (2 ^ 2098) with (2 ^ 53 * 2 ^ 2045) by (rewrite <- Z.pow_add_r by lia; reflexivity).
  cbn [ulps]. rewrite Z.abs_mul, (Z.abs_eq (2 ^ (e + 1074))) by lia.
  assert (Z.abs (cond_Zopp s (Zpos m)) = Zpos m) as -> by (destruct s; simpl; lia).
  apply Z.le_lt_trans with (Zpos m * 2 ^ 2045).
  - apply Z.mul_le_mono_nonneg_l; lia.
  - apply Z.mul_lt_mono_pos_r; [apply pow2_pos; lia | exact Hm].
Qed.

Lemma cross_binade (m1 m2 : positive) (e1 e2 : Z) :
  bounded 53 1024 m1 e1 = true -> bounded 53 1024 m2 e2 = true -> e1 < e2 ->
  Zpos m1 * 2 ^ (e1 + 1074) < Zpos m2 * 2 ^ (e2 + 1074).
Proof.
  intros H1 H2 Hlt.
  pose proof (bounded_spec m1 e1 H1) as (He1 & _).
  pose proof (bounded_spec m2 e2 H2) as (He2 & _ & Hn).
  pose proof (mantissa_bound m1 e1 H1) as Hm1.
  pose proof (digits2_bounds m2) as [Hm2 _]. rewrite Hn in Hm2 by lia.
  change (53 - 1) with 52 in Hm2.
  replace (e2 + 1074) with ((e2 - e1) + (e1 + 1074)) by lia.
  rewrite (Z.pow_add_r 2 (e2 - e1)) by lia.
  pose proof (pow2_pos (e1 + 1074) ltac:(lia)) as Hp.
  assert (Hq : 2 ^ 1 <= 2 ^ (e2 - e1)) by (apply Z.pow_le_mono_r; lia).
  change (2 ^ 1) with 2 in Hq.
  rewrite Z.mul_assoc. apply Z.mul_lt_mono_pos_r; [exact Hp|].
  apply Z.lt_le_trans with (2 ^ 52 * 2); [exact Hm1|].
  apply Z.mul_le_mono_nonneg; lia.
Qed.

Lemma compare_intro (u v : Z) (c : comparison) :
  match c with Lt => u < v | Eq => u = v | Gt => v < u end -> c = (u ?= v).
Proof.
  destruct c; intros H; symmetry.
  - now apply Z.compare_eq_iff.
  - now apply Z.compare_lt_iff.
  - now apply Z.compare_gt_iff.
Qed.

Lemma compare_finite (s : bool) (m1 m2 : positive) (e1 e2 : Z) :
  bounded 53 1024 m1 e1 = true -> bounded 53 1024 m2 e2 = true ->
  match Z.compare e1 e2 with
  | Lt => Lt
  | Gt => Gt
  | Eq => Pos.compare_cont Eq m1 m2
  end = (Zpos m1 * 2 ^ (e1 + 1074) ?= Zpos m2 * 2 ^ (e2 + 1074)).
Proof.
  intros H1 H2. apply compare_intro.
  destruct (Z.compare_spec e1 e2) as [->|Hlt|Hgt].
  - pose proof (bounded_spec m2 e2 H2) as (He2 & _).
    pose proof (pow2_pos (e2 + 1074) ltac:(lia)) as Hp.
    change (Pos.compare_cont Eq m1 m2) with (m1 ?= m2)%positive.
    destruct (Pos.compare_spec m1 m2) as [->|Hm|Hm].
    + reflexivity.
    + apply Z.mul_lt_mono_pos_r; [exact Hp | lia].
    + apply Z.mul_lt_mono_pos_r; [exact Hp | lia].
  - now apply cross_binade.
  - now apply cross_binade.
Qed.

Lemma compare_rank (a b : double) :
  valid_double a = true -> valid_double b = true ->
  is_nan a = false -> is_nan b = false ->
  SFcompare a b = Some (rank a ?= rank b).
Proof.
  intros Va Vb Na Nb.
  pose proof (ulps_bound a Va) as Ba. pose proof (ulps_bound b Vb) as Bb.
  assert (Hbig : 2 ^ 2098 < 2 ^ 2100) by (apply Z.pow_lt_mono_r; lia).
  destruct a as [sa|sa| |sa ma ea]; try discriminate;
    destruct b as [sb|sb| |sb mb eb]; try discriminate;
    cbn [SFcompare rank]; f_equal.
  - change (ulps (S754_zero sa)) with 0.
    destruct sb; apply compare_intro; cbn [cond_Zopp]; lia.
  - simpl in Vb. pose proof (bounded_spec mb eb Vb) as (He & _).
    pose proof (ulps_finite sb mb eb ltac:(lia)) as Hs.
    change (ulps (S754_zero sa)) with 0. destruct sb; apply compare_intro; lia.
  - change (ulps (S754_zero sb)) with 0.
    destruct sa; apply compare_intro; cbn [cond_Zopp]; lia.
  - destruct sa, sb; apply compare_intro; cbn [cond_Zopp]; lia.
  - destruct sa; apply compare_intro; cbn [cond_Zopp]; lia.
  - simpl in Va. pose proof (bounded_spec ma ea Va) as (He & _).
    pose proof (ulps_finite sa ma ea ltac:(lia)) as Hs.
    change (ulps (S754_zero sb)) with 0. destruct sa; apply compare_intro; lia.
  - destruct sb; apply compare_intro; cbn [cond_Zopp]; lia.
  - simpl in Va, Vb.
    pose proof (bounded_spec ma ea Va) as (Hea & _).
    pose proof (bounded_spec mb eb Vb) as (Heb & _).
    pose proof (ulps_finite sa ma ea ltac:(lia)) as Hsa.
    pose proof (ulps_finite sb mb eb ltac:(lia)) as Hsb.
    destruct sa, sb.
    + transitivity (CompOpp match ea ?= eb with
                              | Lt => Lt
                              | Gt => Gt
                              | Eq => Pos.compare_cont Eq ma mb
                              end); [destruct (ea ?= eb); reflexivity|].
      rewrite (compare_finite true ma mb ea eb Va Vb).
      cbn [ulps cond_Zopp]. rewrite !Z.mul_opp_l, Z.compare_opp.
      symmetry. apply Z.compare_antisym.
    + apply compare_intro. lia.
    + apply compare_intro. lia.
    + rewrite (compare_finite false ma mb ea eb Va Vb). reflexivity.
Qed.

Lemma SFltb_rank (a b : double) :
  valid_double a = true -> valid_double b = true ->
  is_nan a = false -> is_nan b = false ->
  SFltb a b = (rank a <? rank b).
Proof.
  intros Va Vb Na Nb. unfold SFltb, Z.ltb.
  rewrite (compare_rank a b Va Vb Na Nb). reflexivity.
Qed.

Lemma SFeqb_rank (a b : double) :
  valid_double a = true -> valid_double b = true ->
  SFeqb a b = true -> is_nan a = false /\ is_nan b = false /\ rank a = rank b.
Proof.
  intros Va Vb H.
  assert (Na : is_nan a = false) by (destruct a; try reflexivity; discriminate).
  assert (Nb : is_nan b = false)
    by (destruct b; try reflexivity; destruct a; discriminate).
  split; [exact Na|]. split; [exact Nb|].
  unfold SFeqb in H. rewrite (compare_rank a b Va Vb Na Nb) in H.
  destruct (Z.compare_spec (rank a) (rank b)); congruence.
Qed.

Lemma SFltb_nan_l (b : double) : SFltb S754_nan b = false.
Proof. reflexivity. Qed.

Lemma SFltb_nan_r (a : double) : SFltb a S754_nan = false.
Proof. destruct a; reflexivity. Qed.

(** *** [min] and [max] *)

Lemma fold_min_rank (rest : list double) (a : double) :
  Forall (fun c => valid_double c = true) (a :: rest) -> is_nan a = false ->
  let m := fold_left (fun m v => if SFltb v m then v else m) rest a in
  In m (a :: rest) /\ is_nan m = false
  /\ forall v, In v (a :: rest) -> is_nan v = false -> rank m <= rank v.
Proof.
  revert a. induction rest as [|b rest IH]; intros a Hv Ha; cbn [fold_left].
  - split; [now left|]. split; [exact Ha|]. intros v [<-|[]] _. lia.
  - inversion Hv as [|? ? Va Hv']; subst. inversion Hv' as [|? ? Vb Hv'']; subst.
    destruct (is_nan b) eqn:Nb.
    + destruct b; try discriminate. rewrite SFltb_nan_l.
      destruct (IH a) as (Hin & Hn & Hmin); [constructor; assumption | exact Ha |].
      split; [destruct Hin; [now left | now right; right]|]. split; [exact Hn|].
      intros v [<-|[<-|Hv0]] Nv; [apply Hmin; [now left | exact Nv] | discriminate
                                  | apply Hmin; [now right | exact Nv]].
    + rewrite (SFltb_rank b a Vb Va Nb Ha).
      destruct (Z.ltb_spec (rank b) (rank a)) as [Hlt|Hge].
      * destruct (IH b) as (Hin & Hn & Hmin); [exact Hv' | exact Nb |].
        split; [now right|]. split; [exact Hn|].
        intros v [<-|Hv0] Nv; [|now apply Hmin].
        specialize (Hmin b (or_introl eq_refl) Nb). lia.
      * destruct (IH a) as (Hin & Hn & Hmin); [constructor; assumption | exact Ha |].
        split; [destruct Hin; [now left | now right; right]|]. split; [exact Hn|].
        intros v [<-|[<-|Hv0]] Nv;
          [apply Hmin; [now left | exact Nv]
          | specialize (Hmin a (or_introl eq_refl) Ha); lia
          | apply Hmin; [now right | exact Nv]].
Qed.

Lemma fold_max_rank (rest : list double) (a : double) :
  Forall (fun c => valid_double c = true) (a :: rest) -> is_nan a = false ->
  let M := fold_left (fun m v => if SFltb m v then v else m) rest a in
  In M (a :: rest) /\ is_nan M = false
  /\ forall v, In v (a :: rest) -> is_nan v = false -> rank v <= rank M.
Proof.
  revert a. induction rest as [|b rest IH]; intros a Hv Ha; cbn [fold_left].
  - split; [now left|]. split; [exact Ha|]. intros v [<-|[]] _. lia.
  - inversion Hv as [|? ? Va Hv']; subst. inversion Hv' as [|? ? Vb Hv'']; subst.
    destruct (is_nan b) eqn:Nb.
    + destruct b; try discriminate. rewrite SFltb_nan_r.
      destruct (IH a) as (Hin & Hn & Hmax); [constructor; assumption | exact Ha |].
      split; [destruct Hin; [now left | now right; right]|]. split; [exact Hn|].
      intros v [<-|[<-|Hv0]] Nv; [apply Hmax; [now left | exact Nv] | discriminate
                                  | apply Hmax; [now right | exact Nv]].
    + rewrite (SFltb_rank a b Va Vb Ha Nb).
      destruct (Z.ltb_spec (rank a) (rank b)) as [Hlt|Hge].
      * destruct (IH b) as (Hin & Hn & Hmax); [exact Hv' | exact Nb |].
        split; [now right|]. split; [exact Hn|].
        intros v [<-|Hv0] Nv; [|now apply Hmax].
        specialize (Hmax b (or_introl eq_refl) Nb). lia.
      * destruct (IH a) as (Hin & Hn & Hmax); [constructor; assumption | exact Ha |].
        split; [destruct Hin; [now left | now right; right]|]. split; [exact Hn|].
        intros v [<-|[<-|Hv0]] Nv;
          [apply Hmax; [now left | exact Nv]
          | specialize (Hmax a (or_introl eq_refl) Ha); lia
          | apply Hmax; [now right | exact Nv]].
Qed.

Lemma fold_min_nan (rest : list double) :
  fold_left (fun m v => if SFltb v m then v else m) rest S754_nan = S754_nan.
Proof. induction rest as [|b rest IH]; cbn [fold_left]; [reflexivity|]. now rewrite SFltb_nan_r. Qed.

(** *** Subtraction *)

Lemma sub_normalize (sa sb : bool) (ma mb : positive) (ea eb : Z) :
  bounded 53 1024 ma ea = true -> bounded 53 1024 mb eb = true ->
  exists D ez,
    SFsub 53 1024 (S754_finite sa ma ea) (S754_finite sb mb eb)
    = binary_normalize 53 1024 D ez false
    /\ -1074 <= ez
    /\ D * 2 ^ (ez + 1074)
       = ulps (S754_finite sa ma ea) - ulps (S754_finite sb mb eb).
Proof.
  intros Va Vb.
  pose proof (bounded_spec ma ea Va) as (Hea & _).
  pose proof (bounded_spec mb eb Vb) as (Heb & _).
  set (ez := Z.min ea eb).
  assert (Hez : -1074 <= ez) by (subst ez; lia).
  exists (cond_Zopp sa (Zpos (fst (shl_align ma ea ez)))
          - cond_Zopp sb (Zpos (fst (shl_align mb eb ez)))), ez.
  split; [reflexivity|]. split; [exact Hez|].
  cbn [ulps]. rewrite Z.mul_sub_distr_r.
  pose proof (shl_align_ulps ma ea ez ltac:(subst ez; lia) Hez) as H1.
  pose proof (shl_align_ulps mb eb ez ltac:(subst ez; lia) Hez) as H2.
  destruct sa, sb; cbn [cond_Zopp]; lia.
Qed.

(** Rounding keeps the sign. *)
Lemma round_sign (s : bool) (m : positive) (e : Z) :
  match binary_round 53 1024 s m e with
  | S754_zero s' | S754_infinity s' | S754_finite s' _ _ => s' = s
  | S754_nan => True
  end.
Proof.
  unfold binary_round, binary_round_aux.
  destruct (shl_align _ _ _) as [mz ez].
  destruct (shr_fexp _ _ _ _ _) as [mrs' e'].
  destruct (shr_fexp _ _ _ _ _) as [mrs'' e''].
  destruct (shr_m mrs''); [reflexivity | | exact I].
  destruct (e'' <=? 1024 - 53); reflexivity.
Qed.

Lemma int_of_float_sign (f : double) (w : Z) :
  int_of_float f = Ok w ->
  match f with
  | S754_finite true _ _ => w <= 0
  | _ => 0 <= w
  end.
Proof.
  destruct f as [s|s| |s m e]; simpl; try congruence.
  - intros [= <-]. lia.
  - intros [= <-].
    pose proof (proj2 (Z.shiftl_nonneg (Zpos m) e) ltac:(lia)).
    destruct s; simpl; lia.
Qed.

(** A difference that is not negative does not truncate below 0. *)
Lemma sub_nonneg (a b : double) (w : Z) :
  valid_double a = true -> valid_double b = true ->
  is_finite a = true -> is_finite b = true ->
  ulps b <= ulps a ->
  int_of_float (SFsub 53 1024 a b) = Ok w -> 0 <= w.
Proof.
  intros Va Vb Fa Fb Hle Hw.
  destruct a as [sa|sa| |sa ma ea]; try discriminate;
    destruct b as [sb|sb| |sb mb eb]; try discriminate.
  - destruct sa, sb; simpl in Hw; injection Hw as <-; lia.
  - simpl in Vb. pose proof (bounded_spec mb eb Vb) as (He & _).
    pose proof (ulps_finite sb mb eb ltac:(lia)) as Hs.
    change (ulps (S754_zero sa)) with 0 in Hle.
    destruct sb; [|lia]. cbn [SFsub negb] in Hw.
    apply int_of_float_sign in Hw. exact Hw.
  - simpl in Va. pose proof (bounded_spec ma ea Va) as (He & _).
    pose proof (ulps_finite sa ma ea ltac:(lia)) as Hs.
    change (ulps (S754_zero sb)) with 0 in Hle.
    destruct sa; [lia|]. cbn [SFsub] in Hw.
    apply int_of_float_sign in Hw. exact Hw.
  - simpl in Va, Vb.
    destruct (sub_normalize sa sb ma mb ea eb Va Vb) as (D & ez & Heq & Hez & HD).
    rewrite Heq in Hw.
    pose proof (pow2_pos (ez + 1074) ltac:(lia)) as Hp.
    assert (HD0 : 0 <= D) by nia.
    destruct D as [|d|d]; [injection Hw as <-; lia | | lia].
    cbn [binary_normalize] in Hw.
    pose proof (round_sign false d ez) as Hs.
    apply int_of_float_sign in Hw.
    destruct (binary_round 53 1024 false d ez) as [s|s| |s m e]; try exact Hw.
    subst s. exact Hw.
Qed.

(** A double minus its integer part truncates to 0. *)
Lemma sub_int_part (c k : double) (z : Z) :
  valid_double c = true ->
  int_of_float c = Ok z -> float_of_int z = Ok k ->
  int_of_float (SFsub 53 1024 c k) = Ok 0.
Proof.
  intros Vc Hz Hk. pose proof scale_pos as HT.
  pose proof (int_of_float_finite c z Hz) as Fc.
  destruct (float_of_int_trunc c z Vc Hz) as (k' & Hk' & Vk & Fk & Uk).
  assert (k' = k) by congruence. subst k'. clear Hk'.
  pose proof (proj1 (int_of_float_spec c z Vc Fc) Hz) as Htr.
  destruct (Z.eq_dec z 0) as [->|Hnz].
  - assert (k = S754_zero false) by (unfold float_of_int in Hk; simpl in Hk; congruence).
    subst k. destruct c as [s|s| |s m e]; try discriminate.
    + destruct s; reflexivity.
    + exact Hz.
  - destruct c as [s|s| |s m e]; try discriminate.
    { simpl in Hz. congruence. }
    simpl in Vc. pose proof (bounded_spec m e Vc) as (He & _).
    pose proof (mantissa_bound m e Vc) as Hm.
    assert (He52 : -52 <= e).
    { destruct (Z_le_gt_dec (-52) e) as [|Hlt]; [assumption|exfalso].
      assert (Hsmall : Z.abs (ulps (S754_finite s m e)) < scale).
      { cbn [ulps]. rewrite Z.abs_mul.
        assert (Z.abs (cond_Zopp s (Zpos m)) = Zpos m) as -> by (destruct s; simpl; lia).
        pose proof (pow2_pos (e + 1074) ltac:(lia)) as Hp.
        rewrite (Z.abs_eq (2 ^ (e + 1074))) by lia.
        apply Z.lt_le_trans with (2 ^ 53 * 2 ^ (e + 1074)).
        - apply Z.mul_lt_mono_pos_r; assumption.
        - unfold scale. rewrite <- Z.pow_add_r by lia. apply Z.pow_le_mono_r; lia. }
      unfold truncates in Htr.
      assert (Hlt' : forall u v, u * scale < v * scale -> u < v)
        by (intros u v; apply Z.mul_lt_mono_pos_r; exact HT).
      destruct Htr as [[H0 H1]|[H0 H1]].
      - assert (z < 1) by (apply Hlt'; lia). assert (-1 < z) by (apply Hlt'; lia). lia.
      - assert (z - 1 < 0) by (apply Hlt'; lia). assert (-1 < z) by (apply Hlt'; lia). lia. }
    set (D := cond_Zopp s (Zpos m) * 2 ^ (e + 52) - z * 2 ^ 52).
    assert (HT' : scale = 2 ^ 52 * 2 ^ 1022) by (unfold scale; rewrite <- Z.pow_add_r by lia; reflexivity).
    assert (HD : D * 2 ^ 1022 = ulps (S754_finite s m e) - z * scale).
    { subst D. cbn [ulps]. rewrite HT'.
      replace (e + 1074) with ((e + 52) + 1022) by lia.
      rewrite (Z.pow_add_r 2 (e + 52)) by lia. ring. }
    assert (Hsmall : Z.abs D < 2 ^ 53).
    { assert (Z.abs (D * 2 ^ 1022) < 2 ^ 52 * 2 ^ 1022).
      { rewrite HD, <- HT'. unfold truncates in Htr. lia. }
      rewrite Z.abs_mul, (Z.abs_eq (2 ^ 1022)) in H by (apply Z.lt_le_incl, pow2_pos; lia).
      apply Z.mul_lt_mono_pos_r in H; [|apply pow2_pos; lia].
      assert (2 ^ 52 < 2 ^ 53) by (apply Z.pow_lt_mono_r; lia). lia. }
    destruct (representable_small D 1022 Hsmall ltac:(lia)) as (f & Vf & Ff & Uf).
    destruct (sub_exact (S754_finite s m e) k f Vc Vk Vf eq_refl Fk Ff) as (Fd & Vd & Ud).
    { rewrite Uf, HD, Uk. reflexivity. }
    apply (int_of_float_spec _ 0 Vd Fd). rewrite Ud, Uk.
    unfold truncates in Htr |- *. lia.
Qed.

(** The difference of two integers of at most 53 bits is exact. *)
Lemma sub_integers (a b : double) (za zb : Z) :
  valid_double a = true -> valid_double b = true ->
  is_finite a = true -> is_finite b = true ->
  ulps a = za * scale -> ulps b = zb * scale -> Z.abs (za - zb) <= 2 ^ 53 ->
  int_of_float (SFsub 53 1024 a b) = Ok (za - zb).
Proof.
  intros Va Vb Fa Fb Ua Ub Hd. pose proof scale_pos as HT.
  assert (Hrep : exists f, valid_double f = true /\ is_finite f = true
                           /\ ulps f = (za - zb) * scale).
  { destruct (Z_lt_le_dec (Z.abs (za - zb)) (2 ^ 53)) as [Hlt|Hge].
    - apply (representable_small (za - zb) 1074 Hlt). lia.
    - assert (Heq : Z.abs (za - zb) = 2 ^ 53) by lia.
      assert (HT' : scale = 2 * 2 ^ 1073) by reflexivity.
      assert (H53 : 2 ^ 53 = 2 * 2 ^ 52) by reflexivity.
      destruct (Z_le_gt_dec 0 (za - zb)).
      + destruct (representable_small (2 ^ 52) 1075) as (f & Vf & Ff & Uf);
          [rewrite Z.abs_eq by lia; apply Z.pow_lt_mono_r; lia | lia |].
        exists f. split; [exact Vf|]. split; [exact Ff|]. rewrite Uf.
        replace (za - zb) with (2 ^ 53) by lia. unfold scale.
        rewrite <- !Z.pow_add_r by lia. reflexivity.
      + destruct (representable_small (- 2 ^ 52) 1075) as (f & Vf & Ff & Uf);
          [rewrite Z.abs_opp, Z.abs_eq by lia; apply Z.pow_lt_mono_r; lia | lia |].
        exists f. split; [exact Vf|]. split; [exact Ff|]. rewrite Uf.
        replace (za - zb) with (- 2 ^ 53) by lia. unfold scale.
        rewrite !Z.mul_opp_l, <- !Z.pow_add_r by lia. reflexivity. }
  destruct Hrep as (f & Vf & Ff & Uf).
  destruct (sub_exact a b f Va Vb Vf Fa Fb Ff) as (Fd & Vd & Ud).
  { rewrite Uf, Ua, Ub. ring. }
  apply (int_of_float_spec _ _ Vd Fd). rewrite Ud, Ua, Ub.
  unfold truncates. destruct (Z_le_gt_dec 0 (za - zb)); [left|right]; nia.
Qed.

(** *** The value of a double as a rational *)

Lemma float_value_ulps (f : double) :
  valid_double f = true ->
  (float_value f * inject_Z scale == inject_Z (ulps f))%Q.
Proof.
  intros Hv. destruct f as [s|s| |s m e]; try (simpl; ring).
  simpl in Hv. pose proof (bounded_spec m e Hv) as (He & _).
  cbn [float_value ulps]. unfold scale.
  rewrite inject_Z_mult, !Zpower_Qpower by lia.
  rewrite (Qpower_plus (inject_Z 2) e 1074) by discriminate.
  symmetry. apply Qmult_assoc.
Qed.

Lemma float_value_integer (f : double) (z : Z) :
  valid_double f = true ->
  (float_value f == inject_Z z)%Q <-> ulps f = z * scale.
Proof.
  intros Hv. pose proof (float_value_ulps f Hv) as Hu. pose proof scale_pos as HT.
  split; intros H.
  - rewrite H, <- inject_Z_mult in Hu. symmetry.
    exact (proj1 (inject_Z_injective _ _) Hu).
  - rewrite H, inject_Z_mult in Hu.
    apply Qmult_inj_r in Hu; [exact Hu|].
    intros HT0. apply (proj1 (inject_Z_injective scale 0)) in HT0. lia.
Qed.

(** *** The envelope of a polygon along one axis *)

Lemma rank_finite (f : double) : is_finite f = true -> rank f = ulps f.
Proof. destruct f; try discriminate; reflexivity. Qed.

Lemma sub_finite_l (a b : double) :
  is_finite (SFsub 53 1024 a b) = true -> is_finite b = true -> is_finite a = true.
Proof.
  destruct a as [sa|sa| |sa ma ea]; try reflexivity;
    destruct b as [sb|sb| |sb mb eb]; try discriminate.
Qed.

Lemma SFeqb_of_rank (a b : double) :
  valid_double a = true -> valid_double b = true ->
  is_nan a = false -> is_nan b = false -> rank a = rank b -> SFeqb a b = true.
Proof.
  intros Va Vb Na Nb H. unfold SFeqb.
  rewrite (compare_rank a b Va Vb Na Nb), H, Z.compare_refl. reflexivity.
Qed.

(** What the computation of an envelope goes through. *)
Lemma envelope_ends (cs : list double) (lo len : Z) :
  Forall (fun c => valid_double c = true) cs ->
  axis_envelope cs lo len ->
  exists m M k,
    py_min cs = Ok m /\ py_max cs = Ok M
    /\ float_of_int lo = Ok k
    /\ int_of_float (float_sub M k) = Ok len
    /\ In m cs /\ In M cs
    /\ valid_double m = true /\ valid_double M = true /\ valid_double k = true
    /\ is_finite m = true /\ is_finite M = true /\ is_finite k = true
    /\ truncates (ulps m) lo /\ ulps k = lo * scale
    /\ ulps m <= ulps M
    /\ forall v, In v cs -> is_nan v = false -> rank m <= rank v <= rank M.
Proof.
  intros Hv (m & M & k & Hm & Hlo & HM & Hk & Hlen).
  destruct cs as [|a rest]; [discriminate|].
  cbn [py_min py_max] in Hm, HM. injection Hm as Hm. injection HM as HM.
  pose proof (int_of_float_finite m lo Hlo) as Fm.
  assert (Na : is_nan a = false).
  { destruct a; try reflexivity. rewrite fold_min_nan in Hm. now subst m. }
  pose proof (fold_min_rank rest a Hv Na) as Hmin. cbv zeta in Hmin. rewrite Hm in Hmin.
  destruct Hmin as (Im & Nm & Hmin).
  pose proof (fold_max_rank rest a Hv Na) as Hmax. cbv zeta in Hmax. rewrite HM in Hmax.
  destruct Hmax as (IM & NM & Hmax).
  rewrite Forall_forall in Hv.
  pose proof (Hv m Im) as Vm. pose proof (Hv M IM) as VM.
  destruct (float_of_int_trunc m lo Vm Hlo) as (k' & Hk' & Vk & Fk & Uk).
  assert (k' = k) by congruence. subst k'.
  pose proof (int_of_float_finite _ _ Hlen) as Fd.
  pose proof (sub_finite_l M k Fd Fk) as FM.
  exists m, M, k.
  assert (Hord : forall v, In v (a :: rest) -> is_nan v = false ->
                           rank m <= rank v <= rank M)
    by (intros v Iv Nv; split; [now apply Hmin | now apply Hmax]).
  split; [unfold py_min; now rewrite Hm|]. split; [unfold py_max; now rewrite HM|].
  repeat (split; [assumption|]).
  split; [apply (int_of_float_spec m lo Vm Fm); exact Hlo|].
  split; [exact Uk|]. split; [|exact Hord].
  specialize (Hord a (or_introl eq_refl) Na).
  rewrite (rank_finite m Fm), (rank_finite M FM) in Hord. lia.
Qed.

(** The length of an envelope is never negative. *)
Lemma envelope_nonneg (cs : list double) (lo len : Z) :
  Forall (fun c => valid_double c = true) cs ->
  axis_envelope cs lo len -> 0 <= len.
Proof.
  intros Hv He. pose proof scale_pos as HT.
  destruct (envelope_ends cs lo len Hv He)
    as (m & M & k & _ & _ & Hk & Hlen & _ & _ & Vm & VM & Vk & Fm & FM & Fk
        & Htr & Uk & Hle & _).
  destruct (Z_le_gt_dec (ulps k) (ulps M)) as [Hge|Hlt].
  - exact (sub_nonneg M k len VM Vk FM Fk Hge Hlen).
  - assert (HtrM : truncates (ulps M) lo).
    { unfold truncates in Htr |- *. right.
      destruct Htr as [[H0 H1]|[H0 H1]]; [lia|].
      assert (lo - 1 < 0) by (apply (Z.mul_lt_mono_pos_r scale); lia).
      assert (lo * scale <= 0) by nia. lia. }
    apply (int_of_float_spec M lo VM FM) in HtrM.
    unfold float_sub in Hlen. rewrite (sub_int_part M k lo VM HtrM Hk) in Hlen.
    injection Hlen as <-. lia.
Qed.

(** It is 0 when the points have the same coordinate. *)
Lemma envelope_shared (cs : list double) (lo len : Z) :
  Forall (fun c => valid_double c = true) cs ->
  axis_envelope cs lo len -> shared cs -> len = 0.
Proof.
  intros Hv He Hs.
  destruct (envelope_ends cs lo len Hv He)
    as (m & M & k & _ & _ & Hk & Hlen & Im & IM & Vm & VM & Vk & Fm & FM & Fk
        & Htr & Uk & Hle & _).
  destruct (SFeqb_rank M m VM Vm (Hs M m IM Im)) as (_ & _ & Hr).
  rewrite (rank_finite m Fm), (rank_finite M FM) in Hr.
  rewrite <- Hr in Htr. apply (int_of_float_spec M lo VM FM) in Htr.
  unfold float_sub in Hlen. rewrite (sub_int_part M k lo VM Htr Hk) in Hlen.
  congruence.
Qed.

(** On integer coordinates it is the spread of the coordinates. *)
Lemma envelope_integral (cs : list double) (lo len : Z) :
  Forall (fun c => valid_double c = true) cs ->
  axis_envelope cs lo len -> integral cs -> exact_envelope cs lo len.
Proof.
  intros Hv He Hi. pose proof scale_pos as HT.
  destruct (envelope_ends cs lo len Hv He)
    as (m & M & k & Hm & HM & Hk & Hlen & Im & IM & Vm & VM & Vk & Fm & FM & Fk
        & Htr & Uk & Hle & Hord).
  unfold integral in Hi. rewrite Forall_forall in Hi.
  destruct (Hi m Im) as (_ & zm & Bm & Em). destruct (Hi M IM) as (_ & zM & BM & EM).
  pose proof (proj1 (float_value_integer m zm Vm) Em) as Um.
  pose proof (proj1 (float_value_integer M zM VM) EM) as UM.
  assert (Hlo : lo = zm).
  { apply (truncates_unique (ulps m)); [exact Htr|]. rewrite Um. unfold truncates.
    destruct (Z_le_gt_dec 0 zm); [left|right]; nia. }
  subst lo.
  assert (Hl : len = zM - zm).
  { unfold float_sub in Hlen.
    rewrite (sub_integers M k zM zm VM Vk FM Fk UM Uk) in Hlen by lia. congruence. }
  exists m, M. split; [exact Hm|]. split; [exact HM|].
  split; [now rewrite Em|]. split.
  - rewrite Hl, EM, Em. unfold Zminus. rewrite inject_Z_plus, inject_Z_opp. ring.
  - rewrite Forall_forall in Hv. split.
    + intros H0 u v Iu Iv.
      destruct (Hi u Iu) as (Fu & _). destruct (Hi v Iv) as (Fv & _).
      assert (Nu : is_nan u = false) by (destruct u; try reflexivity; discriminate).
      assert (Nv : is_nan v = false) by (destruct v; try reflexivity; discriminate).
      apply SFeqb_of_rank; auto.
      pose proof (Hord u Iu Nu). pose proof (Hord v Iv Nv).
      rewrite (rank_finite m Fm), (rank_finite M FM) in *. nia.
    + intros Hs. destruct (SFeqb_rank M m VM Vm (Hs M m IM Im)) as (_ & _ & Hr).
      rewrite (rank_finite m Fm), (rank_finite M FM) in Hr. nia.
Qed.

(** *** Rounding within the exponent range *)








(** *** Coordinates in range *)




End DoubleFacts.

(** ** The layout-engine adapter *)

Section TesseractFacts.
Context {B : Builtins} {Image : Type}.
Variable E : External Image.

Lemma tesseract_step_rows (data : TessData) (i : nat) (results results' : list Row) :
  Forall (tesseract_row data) results ->
  tesseract_step data i results = Ok results' ->
  Forall (tesseract_row data) results'.
Proof.
  intros Hres Hstep. unfold tesseract_step in Hstep.
  inv_bind Hstep. apply index_Ok in Hv.
  destruct (Str.truthy (Str.strip v)) eqn:Htruthy; [|congruence].
  inv_bind Hstep. apply index_Ok in Hv0.
  inv_bind Hstep.
  do 8 inv_bind Hstep.
  injection Hstep as <-.
  apply Forall_app. split; [exact Hres|]. constructor; [|constructor].
  exists i, v, v0. simpl. repeat split; auto.
  - now apply truthy_true.
  - destruct (py_ne_str v0 "-1").
    + inv_bind Hv1. injection Hv1 as <-. eauto.
    + congruence.
Qed.

Lemma ocr_tesseract_rows (image : Image) (data : TessData) (rows : list Row) :
  image_to_data E image = Ok data ->
  _ocr_tesseract E image = Ok rows ->
  Forall (tesseract_row data) rows.
Proof.
  intros Hdata Hrun. unfold _ocr_tesseract in Hrun. rewrite Hdata in Hrun.
  simpl in Hrun.
  eapply for_each_invariant with (P := Forall (tesseract_row data));
    [ constructor | | exact Hrun ].
  intros a t t' _ Ht Hstep. eapply tesseract_step_rows; eauto.
Qed.

End TesseractFacts.

Section PaddleFacts.
Context {B : Builtins} {Image : Type}.
Variable E : External Image.

Lemma paddle_step_rows (all : list paddle_line) (i : nat) (line : paddle_line)
    (results results' : list Row) :
  nth_error all i = Some line ->
  Forall (paddle_row all) results ->
  paddle_step i line results = Ok results' ->
  Forall (paddle_row all) results'.
Proof.
  intros Hnth Hres Hstep. unfold paddle_step in Hstep.
  destruct line as [box text conf|]; [|congruence].
  destruct (Str.truthy text) eqn:Htext; simpl in Hstep; [|congruence].
  do 13 inv_bind Hstep. injection Hstep as <-.
  apply Forall_app. split; [exact Hres|]. constructor; [|constructor].
  exists i, box, text, conf, v, v0, v11. simpl.
  repeat split; auto.
  - now apply truthy_true.
  - exists v1, v5, v6. auto.
  - exists v3, v8, v9. auto.
Qed.

Lemma paddle_loop_rows (all : list paddle_line) :
  forall (lines : list paddle_line) (i : nat) (results results' : list Row),
    (forall k, nth_error lines k = nth_error all (i + k)) ->
    Forall (paddle_row all) results ->
    paddle_loop i lines results = Ok results' ->
    Forall (paddle_row all) results'.
Proof.
  induction lines as [|line lines IH]; simpl; intros i results results' Hall Hres Hrun.
  - congruence.
  - inv_bind Hrun. eapply IH; [ | | exact Hrun ].
    + intros k. specialize (Hall (S k)). simpl in Hall. rewrite Hall.
      f_equal. lia.
    + eapply paddle_step_rows; [ | exact Hres | exact Hv ].
      specialize (Hall 0%nat). rewrite Nat.add_0_r in Hall. symmetry. exact Hall.
Qed.

Lemma ocr_paddle_rows (image : Image) (ocr : Image -> result paddle_result)
    (res : paddle_result) (rows : list Row) :
  PaddleOCR E = Some ocr -> ocr image = Ok res ->
  _ocr_paddle E image = Ok rows ->
  Forall (paddle_row (detected res)) rows.
Proof.
  intros Hocr Hres Hrun. unfold _ocr_paddle, get_paddle_ocr in Hrun.
  rewrite Hocr in Hrun. simpl in Hrun. rewrite Hres in Hrun. simpl in Hrun.
  destruct res as [[|[[|line lines]|] rest]|];
    try (injection Hrun as <-; constructor).
  eapply paddle_loop_rows; [ | constructor | exact Hrun ].
  intros k. reflexivity.
Qed.

Lemma paddle_step_numbers (all : list paddle_line) (i : nat) (line : paddle_line)
    (results results' : list Row) :
  nth_error all i = Some line ->
  paddle_step i line results = Ok results' ->
  map line_number results'
  = map line_number results ++ (if kept_line all i then [Z.of_nat i] else []).
Proof.
  intros Hnth Hstep. unfold kept_line. rewrite Hnth.
  unfold paddle_step in Hstep. destruct line as [box text conf|].
  - destruct (Str.truthy text); cbn [negb] in Hstep.
    + do 13 inv_bind Hstep. injection Hstep as <-. rewrite map_app. reflexivity.
    + injection Hstep as <-. now rewrite app_nil_r.
  - injection Hstep as <-. now rewrite app_nil_r.
Qed.

Lemma paddle_loop_numbers (all : list paddle_line) :
  forall (lines : list paddle_line) (i : nat) (results results' : list Row),
    (forall k, nth_error lines k = nth_error all (i + k)) ->
    paddle_loop i lines results = Ok results' ->
    map line_number results'
    = map line_number results
      ++ map Z.of_nat (filter (kept_line all) (seq i (List.length lines))).
Proof.
  induction lines as [|line lines IH]; simpl; intros i results results' Hall Hrun.
  - injection Hrun as <-. now rewrite app_nil_r.
  - inv_bind Hrun.
    assert (Hline : nth_error all i = Some line)
      by (specialize (Hall 0%nat); rewrite Nat.add_0_r in Hall; now symmetry).
    rewrite (IH (S i) v results'); [ | | exact Hrun ].
    + rewrite (paddle_step_numbers all i line _ _ Hline Hv), <- app_assoc.
      f_equal. destruct (kept_line all i); reflexivity.
    + intros k. specialize (Hall (S k)). simpl in Hall. rewrite Hall.
      f_equal. lia.
Qed.

Lemma ocr_paddle_numbers (image : Image) (ocr : Image -> result paddle_result)
    (res : paddle_result) (rows : list Row) :
  PaddleOCR E = Some ocr -> ocr image = Ok res ->
  _ocr_paddle E image = Ok rows ->
  map line_number rows
  = map Z.of_nat (filter (kept_line (detected res))
                    (seq 0 (List.length (detected res)))).
Proof.
  intros Hocr Hres Hrun. unfold _ocr_paddle, get_paddle_ocr in Hrun.
  rewrite Hocr in Hrun. simpl in Hrun. rewrite Hres in Hrun. simpl in Hrun.
  destruct res as [[|[[|line lines]|] rest]|];
    try (injection Hrun as <-; reflexivity).
  apply (paddle_loop_numbers (line :: lines)) in Hrun; [exact Hrun|].
  intros k. reflexivity.
Qed.

Lemma NoDup_map_eq {A C} (f : A -> C) (l : list A) (a b : A) :
  NoDup (map f l) -> In a l -> In b l -> f a = f b -> a = b.
Proof.
  induction l as [|c l IH]; simpl; intros Hnd Ha Hb Hab; [contradiction|].
  apply NoDup_cons_iff in Hnd as [Hc Hnd].
  destruct Ha as [->|Ha], Hb as [->|Hb]; auto.
  - exfalso. apply Hc. rewrite Hab. now apply in_map.
  - exfalso. apply Hc. rewrite <- Hab. now apply in_map.
Qed.

(** No two rows of a page have the same line number. *)
Lemma ocr_paddle_numbers_NoDup (image : Image) (rows : list Row) :
  _ocr_paddle E image = Ok rows -> NoDup (map line_number rows).
Proof.
  intros Hrun. pose proof Hrun as Hrun'.
  unfold _ocr_paddle, get_paddle_ocr in Hrun'.
  destruct (PaddleOCR E) as [ocr|] eqn:Hocr; [|discriminate].
  simpl in Hrun'. destruct (ocr image) as [res|e] eqn:Hres; [|discriminate].
  rewrite (ocr_paddle_numbers image ocr res rows Hocr Hres Hrun).
  generalize (NoDup_filter (kept_line (detected res))
                (seq_NoDup (List.length (detected res)) 0)).
  generalize (filter (kept_line (detected res)) (seq 0 (List.length (detected res)))).
  induction 1 as [|n l Hn Hl IH]; simpl; constructor; [|exact IH].
  intros Hin. apply in_map_iff in Hin as (k & Hk & Hin).
  apply Nat2Z.inj in Hk. now subst k.
Qed.

(** A coordinate list holds coordinates of the points of its polygon. *)
Lemma coords_In (k : nat) (box : list (list double)) (cs : list double) :
  coords k box = Ok cs ->
  forall c, In c cs -> exists p, In p box /\ In c p.
Proof.
  unfold coords. intros Hrun.
  apply (for_each_invariant
           (fun acc : list double => forall c, In c acc -> exists p, In p box /\ In c p)
           (fun p acc => c <- index p k ;; Ok (acc ++ [c])) box [] cs);
    [intros c [] | | exact Hrun].
  intros p acc acc' Hp Hacc Hbody c Hc.
  inv_bind Hbody. injection Hbody as <-.
  apply in_app_or in Hc as [Hc|[<-|[]]]; [now apply Hacc|].
  exists p. split; [exact Hp|].
  apply index_Ok in Hv. eapply nth_error_In. exact Hv.
Qed.

Lemma coords_valid (k : nat) (box : list (list double)) (cs : list double) :
  Forall valid_coords box -> coords k box = Ok cs -> valid_coords cs.
Proof.
  intros Hbox Hcs. apply Forall_forall. intros c Hc.
  destruct (coords_In k box cs Hcs c Hc) as (p & Hp & Hcp).
  rewrite Forall_forall in Hbox. specialize (Hbox p Hp).
  unfold valid_coords in Hbox. rewrite Forall_forall in Hbox. now apply Hbox.
Qed.

(** A row of the layout-engine adapter carries text that is already
    trimmed and not empty. *)
Lemma ocr_tesseract_text (image : Image) (rows : list Row) (r : Row) :
  _ocr_tesseract E image = Ok rows -> In r rows ->
  Str.strip (line_text r) = line_text r /\ Str.strip (line_text r) <> "".
Proof.
  intros Hrun Hin.
  destruct (image_to_data E image) as [data|e] eqn:Hdata;
    [|unfold _ocr_tesseract in Hrun; rewrite Hdata in Hrun; discriminate].
  pose proof (ocr_tesseract_rows E image data rows Hdata Hrun) as Hrows.
  rewrite Forall_forall in Hrows.
  destruct (Hrows r Hin) as (i & cell & c & _ & _ & Htext & Hne & _).
  assert (Hs : Str.strip (line_text r) = line_text r)
    by (rewrite Htext; apply strip_idempotent).
  split; [exact Hs | rewrite Hs; exact Hne].
Qed.

(** A row of the detector-recognizer adapter carries the engine's text as
    it is, and that text is not empty. *)
Lemma ocr_paddle_text (image : Image) (rows : list Row) (r : Row) :
  _ocr_paddle E image = Ok rows -> In r rows -> line_text r <> "".
Proof.
  intros Hrun Hin. pose proof Hrun as Hrun'.
  unfold _ocr_paddle, get_paddle_ocr in Hrun'.
  destruct (PaddleOCR E) as [ocr|] eqn:Hocr; [|discriminate].
  simpl in Hrun'. destruct (ocr image) as [res|e] eqn:Hres; [|discriminate].
  pose proof (ocr_paddle_rows image ocr res rows Hocr Hres Hrun) as Hrows.
  rewrite Forall_forall in Hrows.
  destruct (Hrows r Hin) as (i & box & text & conf & xs & ys & f & _ & _ & Hne & Htext & _).
  congruence.
Qed.

End PaddleFacts.

(** ** The detector-recognizer adapter: claims *)

(** C1. The detector-recognizer adapter drops empty text only: a detection
    whose text is one space is kept, its [line_text] empty after trimming. *)
Theorem paddle_keeps_whitespace_text :
  exists r,
    _ocr_paddle (B := Sample.builtins) Sample.external "smudge" = Ok [r]
    /\ line_text r = " "
    /\ Str.strip (line_text r) = "".
Proof.
  eexists. split; [reflexivity|]. split; reflexivity.
Qed.

(** C4, as stated, fails on a polygon narrower than a pixel: its points do
    not share an x coordinate, yet the width is 0, and x is not the minimum
    of the xs. *)
Lemma subpixel_box_width_zero :
  exists r xs m,
    Sample.paddle_engine "hairline"
    = Ok (Some [Some [Detection (Sample.quad (51 # 5) 3 (109 # 10) 7) "l"
                        (PyFloat (9 # 10))]])
    /\ _ocr_paddle (B := Sample.builtins) Sample.external "hairline" = Ok [r]
    /\ coords 0 (Sample.quad (51 # 5) 3 (109 # 10) 7) = Ok xs
    /\ py_min xs = Ok m
    /\ x r = 10%Z /\ width r = 0%Z
    /\ ~ shared xs
    /\ ~ (inject_Z (x r) == float_value m)%Q.
Proof.
  eexists. eexists. eexists. split; [reflexivity|].
  split; [vm_compute; reflexivity|]. split; [vm_compute; reflexivity|].
  split; [vm_compute; reflexivity|]. split; [reflexivity|]. split; [reflexivity|].
  split.
  - intros H.
    assert (Hf : SFeqb (Sample.literal (51 # 5)) (Sample.literal (109 # 10)) = true)
      by (apply H; vm_compute; auto).
    vm_compute in Hf. discriminate Hf.
  - intros H. vm_compute in H. discriminate H.
Qed.

Section PaddleClaims.
Context {B : Builtins} {Image : Type}.
Variable E : External Image.

(** C4, amended. The rows of the detector-recognizer adapter are rows of
    detections with text, and every detection with text has one row, the
    row that carries its index as line number. That row has the text of
    the detection and the box of its polygon, computed on doubles by
    truncation: [x = int(min xs)], [width = int(max xs - x)] with the
    difference rounded to the nearest double, and the same for [y] and
    [height]. Width and height are never negative, and are 0 when the
    points share the coordinate. When the coordinates are integers of at
    most 52 bits the box is the exact envelope, and a length is 0 only
    when the points share the coordinate. The coordinates are taken to be
    numbers of the binary64 format. *)
Theorem paddle_bounding_box (image : Image) (ocr : Image -> result paddle_result)
    (res : paddle_result) (rows : list Row) :
  PaddleOCR E = Some ocr -> ocr image = Ok res ->
  Forall valid_line (detected res) ->
  _ocr_paddle E image = Ok rows ->
  (forall r, In r rows ->
     exists i box text conf,
       nth_error (detected res) i = Some (Detection box text conf)
       /\ text <> "" /\ line_number r = Z.of_nat i)
  /\ forall i box text conf,
       nth_error (detected res) i = Some (Detection box text conf) ->
       text <> "" ->
       exists r xs ys,
         In r rows /\ line_number r = Z.of_nat i
         /\ (forall r', In r' rows -> line_number r' = Z.of_nat i -> r' = r)
         /\ line_text r = text
         /\ coords 0 box = Ok xs /\ coords 1 box = Ok ys
         /\ axis_envelope xs (x r) (width r)
         /\ axis_envelope ys (y r) (height r)
         /\ (0 <= width r)%Z /\ (0 <= height r)%Z
         /\ (shared xs -> width r = 0%Z)
         /\ (shared ys -> height r = 0%Z)
         /\ (integral xs -> exact_envelope xs (x r) (width r))
         /\ (integral ys -> exact_envelope ys (y r) (height r)).
Proof.
  intros Hocr Hres Hvalid Hrun.
  pose proof (ocr_paddle_rows E image ocr res rows Hocr Hres Hrun) as Hrows.
  rewrite Forall_forall in Hrows. split.
  - intros r Hin.
    destruct (Hrows r Hin)
      as (i & box & text & conf & xs & ys & f & Hnth & Hi & Hne & _).
    exists i, box, text, conf. auto.
  - intros i box text conf Hnth Htext.
    pose proof (ocr_paddle_numbers E image ocr res rows Hocr Hres Hrun) as Hnum.
    assert (Hin : In (Z.of_nat i) (map line_number rows)).
    { rewrite Hnum. apply in_map. apply filter_In. split.
      - apply in_seq. split; [lia|]. simpl. apply nth_error_Some. congruence.
      - unfold kept_line. rewrite Hnth. now apply truthy_true. }
    apply in_map_iff in Hin as (r & Hr & Hin).
    destruct (Hrows r Hin)
      as (i' & box' & text' & conf' & xs & ys & f & Hnth' & Hi & _ & Ht & Hxs & Hys
          & Hx & Hy & _).
    assert (i' = i) by lia. subst i'.
    rewrite Hnth in Hnth'. injection Hnth' as <- <- <-.
    assert (Hbox : Forall valid_coords box).
    { rewrite Forall_forall in Hvalid.
      exact (Hvalid _ (nth_error_In _ _ Hnth)). }
    pose proof (coords_valid 0 box xs Hbox Hxs) as Vxs.
    pose proof (coords_valid 1 box ys Hbox Hys) as Vys.
    exists r, xs, ys.
    split; [exact Hin|]. split; [exact Hr|]. split.
    { intros r' Hin' Hr'.
      apply (NoDup_map_eq line_number rows r' r);
        [exact (ocr_paddle_numbers_NoDup E image rows Hrun) | assumption..
        | congruence]. }
    split; [exact Ht|]. split; [exact Hxs|]. split; [exact Hys|].
    split; [exact Hx|]. split; [exact Hy|].
    split; [exact (envelope_nonneg xs _ _ Vxs Hx)|].
    split; [exact (envelope_nonneg ys _ _ Vys Hy)|].
    split; [exact (envelope_shared xs _ _ Vxs Hx)|].
    split; [exact (envelope_shared ys _ _ Vys Hy)|].
    split; [exact (envelope_integral xs _ _ Vxs Hx)|].
    exact (envelope_integral ys _ _ Vys Hy).
Qed.

End PaddleClaims.

Lemma paddle_bounding_box_witness :
  let res := Some [Some [Detection (Sample.quad 24 36 304 72) "Invoice"
                           (PyFloat (49 # 50));
                         Malformed;
                         Detection (Sample.quad 24 90 120 110) ""
                           (PyFloat (1 # 10))]] in
  let rows := [{| line_number := 0; line_text := "Invoice";
                  confidence := Some (49 # 50)%Q;
                  x := 24; y := 36; width := 280; height := 36;
                  file_name := None; page_number := None |}] in
  PaddleOCR Sample.external = Some Sample.paddle_engine
  /\ Sample.paddle_engine "invoice" = Ok res
  /\ Forall valid_line (detected res)
  /\ _ocr_paddle (B := Sample.builtins) Sample.external "invoice" = Ok rows
  /\ (forall r, In r rows ->
        exists i box text conf,
          nth_error (detected res) i = Some (Detection box text conf)
          /\ text <> "" /\ line_number r = Z.of_nat i)
  /\ forall i box text conf,
       nth_error (detected res) i = Some (Detection box text conf) ->
       text <> "" ->
       exists r xs ys,
         In r rows /\ line_number r = Z.of_nat i
         /\ (forall r', In r' rows -> line_number r' = Z.of_nat i -> r' = r)
         /\ line_text r = text
         /\ coords 0 box = Ok xs /\ coords 1 box = Ok ys
         /\ axis_envelope xs (x r) (width r)
         /\ axis_envelope ys (y r) (height r)
         /\ (0 <= width r)%Z /\ (0 <= height r)%Z
         /\ (shared xs -> width r = 0%Z)
         /\ (shared ys -> height r = 0%Z)
         /\ (integral xs -> exact_envelope xs (x r) (width r))
         /\ (integral ys -> exact_envelope ys (y r) (height r)).
Proof.
  intros res rows.
  assert (Hvalid : Forall valid_line (detected res)).
  { repeat constructor. }
  split; [reflexivity|]. split; [reflexivity|]. split; [exact Hvalid|].
  split; [vm_compute; reflexivity|].
  apply (paddle_bounding_box (B := Sample.builtins) Sample.external "invoice"
           Sample.paddle_engine res rows).
  - reflexivity.
  - reflexivity.
  - exact Hvalid.
  - vm_compute. reflexivity.
Defined.

(** ** The confidence of a row *)

Lemma py_ne_str_false {B : Builtins} (c : pyval) (s : string) :
  py_ne_str c s = false <-> c = PyStr s.
Proof.
  destruct c as [t|z|q]; simpl; split; try congruence.
  - intros H. apply negb_false_iff in H. apply String.eqb_eq in H. congruence.
  - intros H. injection H as ->. now rewrite String.eqb_refl.
Qed.

(** C7. The layout-engine adapter maps the unknown confidence to an absent
    one by comparing the cell with the string "-1". When the engine
    reports it as the number -1 the comparison misses it: the row keeps
    the numeric value -1.0, which is neither absent nor in 0..100. *)
Lemma numeric_sentinel_kept :
  exists data r,
    image_to_data Sample.external "stamp" = Ok data
    /\ d_conf data = [PyInt (-1)]
    /\ _ocr_tesseract (B := Sample.builtins) Sample.external "stamp" = Ok [r]
    /\ confidence r = Some (inject_Z (-1))
    /\ ~ confidence_in_range r.
Proof.
  eexists. eexists. split; [reflexivity|]. split; [reflexivity|].
  split; [reflexivity|]. split; [reflexivity|].
  intros [H | (q & H & H0 & _)]; [discriminate H|].
  simpl in H. injection H as <-. apply H0. reflexivity.
Qed.

Section ConfidenceClaims.
Context {B : Builtins} {Image : Type}.
Variable E : External Image.

(** X29. What the adapters compute for the confidence of a row: the
    engine's own value, converted by [float] and not checked against any
    range. The layout-engine adapter leaves it absent when the engine's
    cell is the string "-1" and converts every other cell; the
    detector-recognizer adapter always sets it. It is absent or in 0..100
    whenever the value that is converted is in 0..100. *)
Theorem row_confidence (engine : SupportedEngine) (image : Image)
    (rows : list Row) (r : Row) :
  ocr_page E engine image = Ok rows -> In r rows ->
  match engine with
  | tesseract =>
      exists data i c,
        image_to_data E image = Ok data
        /\ line_number r = Z.of_nat i
        /\ nth_error (d_conf data) i = Some c
        /\ (c = PyStr "-1" -> confidence r = None)
        /\ (c <> PyStr "-1" ->
            exists f, py_float c = Ok f /\ confidence r = Some f)
        /\ ((c <> PyStr "-1" ->
             forall f, py_float c = Ok f -> (0 <= f)%Q /\ (f <= 100)%Q) ->
            confidence_in_range r)
  | paddle =>
      exists ocr res i box text conf f,
        PaddleOCR E = Some ocr /\ ocr image = Ok res
        /\ nth_error (detected res) i = Some (Detection box text conf)
        /\ line_number r = Z.of_nat i
        /\ py_float conf = Ok f /\ confidence r = Some f
        /\ ((0 <= f)%Q /\ (f <= 100)%Q -> confidence_in_range r)
  end.
Proof.
  intros Hrun Hin. destruct engine; simpl in Hrun.
  - destruct (image_to_data E image) as [data|e] eqn:Hdata;
      [|unfold _ocr_tesseract in Hrun; rewrite Hdata in Hrun; discriminate].
    pose proof (ocr_tesseract_rows E image data rows Hdata Hrun) as Hrows.
    rewrite Forall_forall in Hrows.
    destruct (Hrows r Hin) as (i & cell & c & Hi & _ & _ & _ & Hc & Hconf).
    exists data, i, c. repeat (split; [assumption || reflexivity|]).
    destruct (py_ne_str c "-1") eqn:Hne.
    + assert (Hc' : c <> PyStr "-1")
        by (intros Heq; apply py_ne_str_false in Heq; congruence).
      destruct Hconf as (f & Hf & Hr).
      split; [congruence|]. split; [eauto|].
      intros Hrange. right. exists f. split; [exact Hr|]. now apply Hrange.
    + apply py_ne_str_false in Hne.
      split; [auto|]. split; [congruence|]. intros _. now left.
  - pose proof Hrun as Hrun'. unfold _ocr_paddle, get_paddle_ocr in Hrun'.
    destruct (PaddleOCR E) as [ocr|] eqn:Hocr; [|discriminate].
    simpl in Hrun'. destruct (ocr image) as [res|e] eqn:Hres; [|discriminate].
    pose proof (ocr_paddle_rows E image ocr res rows Hocr Hres Hrun) as Hrows.
    rewrite Forall_forall in Hrows.
    destruct (Hrows r Hin)
      as (i & box & text & conf & xs & ys & f & Hnth & Hi & _ & _ & _ & _ & _ & _ & Hf & Hr).
    exists ocr, res, i, box, text, conf, f.
    repeat (split; [assumption || reflexivity|]).
    intros Hrange. right. exists f. split; [exact Hr | exact Hrange].
Qed.

End ConfidenceClaims.

Lemma row_confidence_witness :
  let r1 := {| line_number := 1; line_text := "Invoice";
               confidence := Some (inject_Z 96);
               x := 12; y := 30; width := 80; height := 14;
               file_name := None; page_number := None |} in
  let r3 := {| line_number := 3; line_text := "Total";
               confidence := Some (inject_Z 91);
               x := 12; y := 30; width := 80; height := 14;
               file_name := None; page_number := None |} in
  ocr_page (B := Sample.builtins) Sample.external tesseract "invoice" = Ok [r1; r3]
  /\ In r1 [r1; r3]
  /\ exists data i c,
       image_to_data Sample.external "invoice" = Ok data
       /\ line_number r1 = Z.of_nat i
       /\ nth_error (d_conf data) i = Some c
       /\ (c = PyStr "-1" -> confidence r1 = None)
       /\ (c <> PyStr "-1" ->
           exists f, py_float (B := Sample.builtins) c = Ok f /\ confidence r1 = Some f)
       /\ ((c <> PyStr "-1" ->
            forall f, py_float (B := Sample.builtins) c = Ok f -> (0 <= f)%Q /\ (f <= 100)%Q) ->
           confidence_in_range r1).
Proof.
  intros r1 r3. split; [reflexivity|]. split; [simpl; auto|].
  apply (row_confidence (B := Sample.builtins) Sample.external tesseract
           "invoice" [r1; r3] r1).
  - reflexivity.
  - simpl; auto.
Defined.

(** ** Page extraction *)

Section ExtractionFacts.
Context {Image : Type}.
Variable E : External Image.

(** One turn of the [while True] loop. *)
Lemma tiff_loop_turn (frames : list Image) (i : nat) (images : list (Z * Image)) :
  tiff_loop E frames i images =
  match nth_error frames i with
  | None => (images, Exn EOFError "attempt to seek outside sequence")
  | Some frame =>
      match convert_RGB E frame with
      | Raise e => (images, e)
      | Ok rgb => tiff_loop E frames (S i) (images ++ [(Z.of_nat i + 1, rgb)])%Z
      end
  end.
Proof.
  funelim (tiff_loop E frames i images).
  - rewrite e. reflexivity.
  - rewrite e, Heq. reflexivity.
  - rewrite e1, Heq. reflexivity.
Qed.

Lemma tiff_loop_all_frames :
  forall (rest done : list Image) (rgbs : list Image) (images : list (Z * Image)),
    Forall2 (fun frame rgb => convert_RGB E frame = Ok rgb) rest rgbs ->
    tiff_loop E (done ++ rest) (List.length done) images =
    (images ++ numbered (Z.of_nat (List.length done) + 1) rgbs,
     Exn EOFError "attempt to seek outside sequence").
Proof.
  induction rest as [|frame rest IH]; intros done rgbs images Hconv;
    inversion Hconv as [|? rgb ? rgbs' Hrgb Hrest]; subst;
    rewrite tiff_loop_turn.
  - rewrite app_nil_r.
    replace (nth_error done (List.length done)) with (@None Image)
      by (symmetry; apply nth_error_None; lia).
    simpl. rewrite app_nil_r. reflexivity.
  - rewrite nth_error_app2 by lia. rewrite Nat.sub_diag. simpl nth_error. cbv beta iota.
    rewrite Hrgb.
    replace (done ++ frame :: rest) with ((done ++ [frame]) ++ rest)
      by (rewrite <- app_assoc; reflexivity).
    replace (S (List.length done)) with (List.length (done ++ [frame]))
      by (rewrite length_app; simpl; lia).
    rewrite (IH (done ++ [frame]) rgbs' _ Hrest).
    rewrite <- app_assoc. simpl. rewrite length_app. simpl.
    replace (Z.of_nat (List.length done + 1) + 1)%Z
      with (Z.of_nat (List.length done) + 1 + 1)%Z by lia.
    reflexivity.
Qed.

Lemma numbered_length (first : Z) (rgbs : list Image) :
  List.length (numbered first rgbs) = List.length rgbs.
Proof.
  revert first. induction rgbs as [|rgb rgbs IH]; intros first; simpl;
    [reflexivity | now rewrite IH].
Qed.

Lemma numbered_pages (rgbs : list Image) (n : nat) :
  map fst (numbered (Z.of_nat n) rgbs)
  = map Z.of_nat (seq n (List.length rgbs)).
Proof.
  revert n. induction rgbs as [|rgb rgbs IH]; intros n; simpl;
    [reflexivity|].
  f_equal. rewrite <- IH. do 2 f_equal. lia.
Qed.

Lemma numbered_nth (rgbs : list Image) (first : Z) (k : nat) (rgb : Image) :
  nth_error rgbs k = Some rgb ->
  nth_error (numbered first rgbs) k = Some ((first + Z.of_nat k)%Z, rgb).
Proof.
  revert first k. induction rgbs as [|a rgbs IH]; intros first k Hk.
  - destruct k; discriminate.
  - destruct k as [|k]; simpl in *.
    + injection Hk as ->. now rewrite Z.add_0_r.
    + rewrite (IH _ _ Hk). do 2 f_equal. lia.
Qed.

(** C3. A TIFF whose decoder gives N frames, each of which converts to RGB,
    yields exactly N pairs: the frame at index k (from 0) is page k + 1,
    the page numbers are 1..N in order, and the [EOFError] that ends the
    iteration is not raised to the caller. *)
Theorem tiff_pages (fs : filesystem) (path : string) (contents : bytes)
    (frames rgbs : list Image) :
  fs (os_path.abspath (getcwd E) path) = Some contents ->
  file_ext E path = ".tif" \/ file_ext E path = ".tiff" ->
  Image_open E contents = Ok frames ->
  Forall2 (fun frame rgb => convert_RGB E frame = Ok rgb) frames rgbs ->
  exists images,
    snd (_images_from_file E fs path) = Ok images
    /\ List.length images = List.length frames
    /\ map fst images = map Z.of_nat (seq 1 (List.length frames))
    /\ forall k frame,
         nth_error frames k = Some frame ->
         exists rgb,
           convert_RGB E frame = Ok rgb
           /\ nth_error images k = Some ((Z.of_nat k + 1)%Z, rgb).
Proof.
  intros Hfile Hext Hopen Hconv.
  exists (numbered 1 rgbs).
  assert (Hlen : List.length rgbs = List.length frames)
    by (symmetry; eapply Forall2_length; eassumption).
  split; [|split; [|split]].
  - unfold _images_from_file. rewrite Hfile. fold (file_ext E path).
    assert (Hpdf : (file_ext E path =? ".pdf") = false)
      by (destruct Hext as [-> | ->]; reflexivity).
    assert (Htif : (file_ext E path =? ".tif") || (file_ext E path =? ".tiff") = true)
      by (destruct Hext as [-> | ->]; reflexivity).
    rewrite Hpdf, Htif. simpl. rewrite Hopen.
    pose proof (tiff_loop_all_frames frames [] rgbs [] Hconv) as Hloop.
    simpl in Hloop. rewrite Hloop. reflexivity.
  - rewrite numbered_length. exact Hlen.
  - rewrite <- Hlen. apply (numbered_pages rgbs 1).
  - intros k frame Hk.
    assert (Hex : exists rgb, nth_error rgbs k = Some rgb /\ convert_RGB E frame = Ok rgb).
    { clear - Hconv Hk. revert k Hk.
      induction Hconv as [|f r fs' rs' Hfr _ IH]; intros k Hk.
      - destruct k; discriminate.
      - destruct k as [|k]; simpl in Hk.
        + injection Hk as ->. exists r. split; [reflexivity | exact Hfr].
        + apply IH. exact Hk. }
    destruct Hex as (rgb & Hrgb & Hc). exists rgb. split; [exact Hc|].
    rewrite (numbered_nth rgbs 1 k rgb Hrgb). do 2 f_equal. lia.
Qed.

(** C8, amended. A path whose extension is none of .pdf, .tif, .tiff: when
    the file exists the call fails with the unsupported-format
    [ValueError]; when it does not, with [FileNotFoundError]. Either way
    the existence check is the only access to the file system, and no
    file is opened or read. *)
Theorem unsupported_extension (fs : filesystem) (path : string) :
  file_ext E path <> ".pdf" ->
  file_ext E path <> ".tif" ->
  file_ext E path <> ".tiff" ->
  let abs_path := os_path.abspath (getcwd E) path in
  fst (_images_from_file E fs path) = [IoExists abs_path]
  /\ existsb reads_file (fst (_images_from_file E fs path)) = false
  /\ snd (_images_from_file E fs path) =
     match fs abs_path with
     | Some _ =>
         Raise (Exn ValueError
                  "Unsupported file format. Only PDF and TIFF are supported.")
     | None =>
         Raise (Exn FileNotFoundError ("File not found: " ++ abs_path))
     end.
Proof.
  intros Hpdf Htif Htiff abs_path.
  apply String.eqb_neq in Hpdf, Htif, Htiff.
  unfold file_ext in Hpdf, Htif, Htiff. fold abs_path in Hpdf, Htif, Htiff.
  unfold _images_from_file. cbv zeta. fold abs_path.
  destruct (fs abs_path) as [contents|]; [|repeat split].
  rewrite Hpdf, Htif, Htiff. repeat split.
Qed.

End ExtractionFacts.

Lemma tiff_pages_witness :
  Sample.files (os_path.abspath (getcwd Sample.external) "scans/ledger.tiff")
    = Some Sample.tiff_bytes
  /\ (file_ext Sample.external "scans/ledger.tiff" = ".tif"
      \/ file_ext Sample.external "scans/ledger.tiff" = ".tiff")
  /\ exists images,
       snd (_images_from_file Sample.external Sample.files "scans/ledger.tiff")
         = Ok images
       /\ List.length images = 3%nat
       /\ map fst images = map Z.of_nat (seq 1 3)
       /\ forall k frame,
            nth_error ["invoice"; "blank"; "stamp"] k = Some frame ->
            exists rgb,
              convert_RGB Sample.external frame = Ok rgb
              /\ nth_error images k = Some ((Z.of_nat k + 1)%Z, rgb).
Proof.
  split; [reflexivity|]. split; [right; reflexivity|].
  apply (tiff_pages Sample.external Sample.files "scans/ledger.tiff"
           Sample.tiff_bytes ["invoice"; "blank"; "stamp"]
           ["invoice"; "blank"; "stamp"]).
  - reflexivity.
  - right; reflexivity.
  - reflexivity.
  - repeat constructor.
Defined.

(** C8, as stated, fails on a path that does not exist: the extension .png
    is unsupported, yet the error is [FileNotFoundError], raised after the
    file system was asked whether the file exists. An existing .png fails as
    unsupported, also after that check. *)
Lemma missing_file_not_unsupported :
  file_ext Sample.external "scans/missing.png" = ".png"
  /\ _images_from_file Sample.external Sample.files "scans/missing.png"
     = ([IoExists "/srv/app/scans/missing.png"],
        Raise (Exn FileNotFoundError "File not found: /srv/app/scans/missing.png"))
  /\ _images_from_file Sample.external Sample.files "scans/notes.png"
     = ([IoExists "/srv/app/scans/notes.png"],
        Raise (Exn ValueError
                 "Unsupported file format. Only PDF and TIFF are supported.")).
Proof. repeat split. Qed.

Lemma unsupported_extension_witness :
  file_ext Sample.external "scans/notes.png" <> ".pdf"
  /\ file_ext Sample.external "scans/notes.png" <> ".tif"
  /\ file_ext Sample.external "scans/notes.png" <> ".tiff"
  /\ fst (_images_from_file Sample.external Sample.files "scans/notes.png")
     = [IoExists "/srv/app/scans/notes.png"]
  /\ existsb reads_file
       (fst (_images_from_file Sample.external Sample.files "scans/notes.png"))
     = false
  /\ snd (_images_from_file Sample.external Sample.files "scans/notes.png")
     = Raise (Exn ValueError
                "Unsupported file format. Only PDF and TIFF are supported.").
Proof.
  split; [vm_compute; discriminate|].
  split; [vm_compute; discriminate|].
  split; [vm_compute; discriminate|].
  generalize (unsupported_extension Sample.external Sample.files "scans/notes.png").
  vm_compute. intros H. apply H; discriminate.
Defined.

(** ** The OCR runner *)

Section RunnerFacts.
Context {B : Builtins} {Image : Type}.
Variable E : External Image.

Lemma pages_loop_failure (name : string) (engine : SupportedEngine) :
  forall (before : list (Z * Image)) (page : Z) (image : Image)
         (after : list (Z * Image)) (e : exn) (acc : list Row),
    Forall (fun pi => exists rows, ocr_page E engine (snd pi) = Ok rows) before ->
    ocr_page E engine image = Raise e ->
    pages_loop E name engine (before ++ (page, image) :: after) acc
    = Raise (ocr_failed page e).
Proof.
  induction before as [|[p im] before IH]; intros page image after e acc Hok Hfail.
  - simpl. rewrite Hfail. reflexivity.
  - inversion Hok as [|? ? [rows Hrows] Hrest]; subst. simpl in Hrows.
    simpl. rewrite Hrows. apply IH; assumption.
Qed.

Lemma pages_loop_no_rows (name : string) (engine : SupportedEngine) :
  forall (images : list (Z * Image)) (acc : list Row),
    Forall (fun pi => ocr_page E engine (snd pi) = Ok []) images ->
    pages_loop E name engine images acc = Ok acc.
Proof.
  induction images as [|[p im] images IH]; intros acc Hall.
  - reflexivity.
  - inversion Hall as [|? ? Hrows Hrest]; subst. simpl in Hrows.
    simpl. rewrite Hrows. simpl. rewrite app_nil_r. apply IH. exact Hrest.
Qed.

Lemma pages_loop_tagged (name : string) (engine : SupportedEngine) :
  forall (images : list (Z * Image)) (acc batch : list Row),
    Forall (tagged name) acc ->
    pages_loop E name engine images acc = Ok batch ->
    Forall (tagged name) batch.
Proof.
  induction images as [|[p im] images IH]; intros acc batch Hacc Hrun; simpl in Hrun.
  - congruence.
  - destruct (ocr_page E engine im) as [rows|e]; [|discriminate].
    eapply IH; [|exact Hrun].
    apply Forall_app. split; [exact Hacc|].
    apply Forall_forall. intros r Hr. apply in_map_iff in Hr.
    destruct Hr as (r0 & <- & _). split; simpl; eauto.
Qed.

(** Tagged rows pass the NOT NULL constraints: all of them are staged. *)
Lemma stage_tagged (name : string) :
  forall (rows : list Row) (key stamp : Z),
    Forall (tagged name) rows ->
    exists recs,
      stage key stamp rows = (recs, None)
      /\ List.length recs = List.length rows.
Proof.
  induction rows as [|r rows IH]; intros key stamp Hall.
  - exists []. split; reflexivity.
  - inversion Hall as [|? ? [Hname [p Hpage]] Hrest]; subst.
    destruct (IH (key + 1)%Z stamp Hrest) as (recs & Hrecs & Hlen).
    simpl. unfold to_record. rewrite Hname, Hpage. rewrite Hrecs.
    eexists. split; [reflexivity|]. simpl. now rewrite Hlen.
Qed.

(** C5. When the adapter raises on a page, the pages before it having been
    read, [run_ocr_on_file] raises a [RuntimeError] whose message names
    that page and carries the cause, and the session is returned as it
    was: no insert, no commit, no row of any page. *)
Theorem page_failure_aborts (fs : filesystem) (path name : string)
    (engine : SupportedEngine) (db : option Session) (io : list io_event)
    (before : list (Z * Image)) (page : Z) (image : Image)
    (after : list (Z * Image)) (e : exn) :
  _images_from_file E fs path = (io, Ok (before ++ (page, image) :: after)) ->
  Forall (fun pi => exists rows, ocr_page E engine (snd pi) = Ok rows) before ->
  ocr_page E engine image = Raise e ->
  run_ocr_on_file E fs path name engine db
  = (io, db, Raise (Exn RuntimeError
                      ("OCR failed on page " ++ Str.of_Z page ++ ": " ++ exn_msg e))).
Proof.
  intros Himages Hbefore Hfail. unfold run_ocr_on_file. rewrite Himages.
  rewrite (pages_loop_failure name engine before page image after e [] Hbefore Hfail).
  reflexivity.
Qed.

(** C6. When no page yields a row, [run_ocr_on_file] returns 0 and the
    number of pages; the session is returned as it was, so nothing was
    inserted and nothing raised. *)
Theorem empty_batch_returns_zero (fs : filesystem) (path name : string)
    (engine : SupportedEngine) (db : option Session) (io : list io_event)
    (images : list (Z * Image)) :
  _images_from_file E fs path = (io, Ok images) ->
  Forall (fun pi => ocr_page E engine (snd pi) = Ok []) images ->
  run_ocr_on_file E fs path name engine db
  = (io, db, Ok (0%Z, Z.of_nat (List.length images))).
Proof.
  intros Himages Hall. unfold run_ocr_on_file. rewrite Himages.
  rewrite (pages_loop_no_rows name engine images [] Hall).
  destruct db; reflexivity.
Qed.

(** C2. A non-empty batch is written by one bulk insert and one commit.
    When both succeed the count returned is the size of the batch and the
    table has grown by the batch. When the insert fails, at whatever row,
    or the commit fails, the transaction is rolled back: the table is as
    before, no row stays pending, and the same exception is raised. *)
Theorem persistence_is_atomic (fs : filesystem) (path name : string)
    (engine : SupportedEngine) (s : Session) (io : list io_event)
    (images : list (Z * Image)) (batch : list Row) :
  _images_from_file E fs path = (io, Ok images) ->
  pages_loop E name engine images [] = Ok batch ->
  batch <> [] ->
  exists s' outcome recs,
    run_ocr_on_file E fs path name engine (Some s) = (io, Some s', outcome)
    /\ stage (next_id s) (now s) batch = (recs, None)
    /\ List.length recs = List.length batch
    /\ match insert_fault E batch, commit_fault E (pending s ++ recs) with
       | None, None =>
           outcome = Ok (Z.of_nat (List.length batch),
                         Z.of_nat (List.length images))
           /\ table s' = table s ++ pending s ++ recs
           /\ pending s' = []
           /\ calls s' = calls s ++ [BulkInsert (List.length batch); Commit]
       | None, Some e =>
           outcome = Raise e
           /\ table s' = table s
           /\ pending s' = []
           /\ calls s' = calls s ++ [BulkInsert (List.length batch); Commit; Rollback]
       | Some (_, e), _ =>
           outcome = Raise e
           /\ table s' = table s
           /\ pending s' = []
           /\ calls s' = calls s ++ [BulkInsert (List.length batch); Rollback]
       end.
Proof.
  intros Himages Hbatch Hne.
  pose proof (pages_loop_tagged name engine images [] batch (Forall_nil _) Hbatch)
    as Htagged.
  destruct (stage_tagged name batch (next_id s) (now s) Htagged)
    as (recs & Hstage & Hlen).
  unfold run_ocr_on_file. rewrite Himages, Hbatch.
  destruct batch as [|r0 batch0]; [congruence|].
  set (batch := r0 :: batch0) in *.
  unfold bulk_insert_mappings.
  destruct (insert_fault E batch) as [[k e]|] eqn:Hfault.
  - assert (Hpre : Forall (tagged name) (firstn k batch)).
    { apply Forall_forall. intros r Hr.
      rewrite Forall_forall in Htagged. apply Htagged.
      rewrite <- (firstn_skipn k batch). apply in_or_app. now left. }
    destruct (stage_tagged name (firstn k batch) (next_id s) (now s) Hpre)
      as (recs' & Hstage' & _).
    rewrite Hstage'. simpl.
    eexists. eexists. exists recs. split; [reflexivity|].
    split; [first [exact Hstage | reflexivity]|]. split; [exact Hlen|].
    simpl. rewrite <- app_assoc. repeat split.
  - rewrite Hstage. simpl. unfold commit. simpl.
    destruct (commit_fault E (pending s ++ recs)) as [e|] eqn:Hcommit.
    + eexists. eexists. exists recs. split; [reflexivity|].
      split; [first [exact Hstage | reflexivity]|]. split; [exact Hlen|].
      simpl. rewrite Hcommit, <- !app_assoc. repeat split.
    + eexists. eexists. exists recs. split; [reflexivity|].
      split; [first [exact Hstage | reflexivity]|]. split; [exact Hlen|].
      simpl. rewrite Hcommit, <- !app_assoc. repeat split.
Qed.

End RunnerFacts.

Lemma page_failure_aborts_witness :
  let io := [IoExists "/srv/app/scans/damaged.tiff";
             IoImageOpen "/srv/app/scans/damaged.tiff"] in
  let cause := Exn TesseractError "Image too small to scale" in
  _images_from_file Sample.external Sample.files "scans/damaged.tiff"
    = (io, Ok ([(1%Z, "invoice")] ++ (2%Z, "torn") :: [(3%Z, "blank")]))
  /\ ocr_page (B := Sample.builtins) Sample.external tesseract "torn" = Raise cause
  /\ run_ocr_on_file (B := Sample.builtins) Sample.external Sample.files
       "scans/damaged.tiff" "damaged.tiff" tesseract (Some Sample.session)
     = (io, Some Sample.session,
        Raise (Exn RuntimeError
                 ("OCR failed on page " ++ Str.of_Z 2 ++ ": " ++ exn_msg cause))).
Proof.
  intros io cause.
  split; [vm_compute; reflexivity|]. split; [vm_compute; reflexivity|].
  apply (page_failure_aborts (B := Sample.builtins) Sample.external Sample.files
           "scans/damaged.tiff" "damaged.tiff" tesseract (Some Sample.session) io
           [(1%Z, "invoice")] 2%Z "torn" [(3%Z, "blank")] cause).
  - vm_compute; reflexivity.
  - constructor; [|constructor]. eexists. vm_compute. reflexivity.
  - vm_compute; reflexivity.
Defined.

Lemma empty_batch_returns_zero_witness :
  let io := [IoExists "/srv/app/scans/blank.tiff";
             IoImageOpen "/srv/app/scans/blank.tiff"] in
  let images := [(1%Z, "blank"); (2%Z, "blank")] in
  _images_from_file Sample.external Sample.files "scans/blank.tiff" = (io, Ok images)
  /\ Forall (fun pi => ocr_page (B := Sample.builtins) Sample.external paddle (snd pi) = Ok [])
       images
  /\ run_ocr_on_file (B := Sample.builtins) Sample.external Sample.files
       "scans/blank.tiff" "blank.tiff" paddle (Some Sample.session)
     = (io, Some Sample.session, Ok (0%Z, Z.of_nat (List.length images))).
Proof.
  intros io images.
  assert (Hall : Forall (fun pi => ocr_page (B := Sample.builtins) Sample.external
                                     paddle (snd pi) = Ok []) images)
    by (repeat constructor).
  split; [vm_compute; reflexivity|]. split; [exact Hall|].
  apply (empty_batch_returns_zero (B := Sample.builtins) Sample.external Sample.files
           "scans/blank.tiff" "blank.tiff" paddle (Some Sample.session) io images).
  - vm_compute; reflexivity.
  - exact Hall.
Defined.

Lemma persistence_is_atomic_witness :
  let io := [IoExists "/srv/app/scans/ledger.tiff";
             IoImageOpen "/srv/app/scans/ledger.tiff"] in
  _images_from_file Sample.external_commit_fails Sample.files "scans/ledger.tiff"
    = (io, Ok Sample.ledger_pages)
  /\ pages_loop (B := Sample.builtins) Sample.external_commit_fails
       "ledger.tiff" tesseract Sample.ledger_pages [] = Ok Sample.ledger_batch
  /\ Sample.ledger_batch <> []
  /\ exists s',
       run_ocr_on_file (B := Sample.builtins) Sample.external_commit_fails
         Sample.files "scans/ledger.tiff" "ledger.tiff" tesseract
         (Some Sample.session)
       = (io, Some s', Raise (Exn OperationalError "database is locked"))
       /\ table s' = table Sample.session
       /\ pending s' = []
       /\ calls s' = [BulkInsert 3; Commit; Rollback].
Proof.
  intros io.
  split; [vm_compute; reflexivity|]. split; [vm_compute; reflexivity|].
  split; [discriminate|].
  destruct (persistence_is_atomic (B := Sample.builtins) Sample.external_commit_fails
              Sample.files "scans/ledger.tiff" "ledger.tiff" tesseract
              Sample.session io Sample.ledger_pages Sample.ledger_batch)
    as (s' & outcome & recs & Hrun & _ & _ & Hcase).
  - vm_compute; reflexivity.
  - vm_compute; reflexivity.
  - discriminate.
  - exists s'. unfold Sample.external_commit_fails at 1 2 in Hcase.
    simpl in Hcase. destruct Hcase as (-> & Htable & Hpending & Hcalls).
    repeat split; assumption.
Defined.

(** ** Queries *)

Lemma key_leb_order (a b : models.OCRResult) :
  key_leb models.page_number models.line_number a b = true <-> stored_order a b.
Proof. unfold key_leb, stored_order. lia. Qed.

Lemma key_leb_total (a b : models.OCRResult) :
  key_leb models.page_number models.line_number a b = false -> stored_order b a.
Proof. unfold key_leb, stored_order. lia. Qed.

Lemma insert_sorted_perm (leb : models.OCRResult -> models.OCRResult -> bool)
    (a : models.OCRResult) (l : list models.OCRResult) :
  Permutation (a :: l) (insert_sorted leb a l).
Proof.
  induction l as [|b l IH]; simpl; [reflexivity|].
  destruct (leb a b); [reflexivity|].
  rewrite perm_swap. now apply perm_skip.
Qed.

Lemma sort_rows_perm (leb : models.OCRResult -> models.OCRResult -> bool)
    (l : list models.OCRResult) :
  Permutation l (sort_rows leb l).
Proof.
  induction l as [|a l IH]; simpl; [reflexivity|].
  rewrite <- insert_sorted_perm. now apply perm_skip.
Qed.

Lemma insert_sorted_sorted (a : models.OCRResult) (l : list models.OCRResult) :
  Sorted stored_order l ->
  Sorted stored_order
    (insert_sorted (key_leb models.page_number models.line_number) a l).
Proof.
  induction l as [|b l IH]; intros Hl; simpl.
  - repeat constructor.
  - destruct (key_leb models.page_number models.line_number a b) eqn:Hab.
    + constructor; [exact Hl|]. constructor. now apply key_leb_order.
    + apply key_leb_total in Hab.
      apply Sorted_inv in Hl as [Hl Hhd].
      constructor; [now apply IH|].
      destruct l as [|c l]; simpl.
      * constructor. exact Hab.
      * destruct (key_leb models.page_number models.line_number a c);
          constructor; [exact Hab|].
        now apply HdRel_inv in Hhd.
Qed.

Lemma sort_rows_sorted (l : list models.OCRResult) :
  Sorted stored_order
    (sort_rows (key_leb models.page_number models.line_number) l).
Proof.
  induction l as [|a l IH]; simpl; [constructor|].
  now apply insert_sorted_sorted.
Qed.

Lemma Sorted_skipn {A} (R : A -> A -> Prop) (n : nat) (l : list A) :
  Sorted R l -> Sorted R (skipn n l).
Proof.
  revert l. induction n as [|n IH]; intros l Hl; [exact Hl|].
  destruct l as [|a l]; [constructor|]. simpl.
  apply IH. now apply Sorted_inv in Hl.
Qed.

Lemma Sorted_firstn {A} (R : A -> A -> Prop) (n : nat) (l : list A) :
  Sorted R l -> Sorted R (firstn n l).
Proof.
  revert l. induction n as [|n IH]; intros l Hl; [constructor|].
  destruct l as [|a l]; [constructor|]. simpl.
  apply Sorted_inv in Hl as [Hl Hhd].
  constructor; [now apply IH|].
  destruct n, l; simpl; constructor. now apply HdRel_inv in Hhd.
Qed.

Lemma Sorted_from_orm (l : list models.OCRResult) :
  Sorted stored_order l -> Sorted page_line_order (map schemas.from_orm l).
Proof.
  induction 1 as [|a l Hl IH Hhd]; simpl; constructor; [exact IH|].
  destruct Hhd; simpl; constructor. assumption.
Qed.

(** C9. A request with a file name, an optional page number of at least 1, a
    limit in 1..500 (50 when absent) and an offset of at least 0 (0 when
    absent) is answered with the number of all rows of that file (and page),
    and with the rows of one window of them: the matching rows are put in
    ascending [(page_number, line_number)] order, [offset] of them are
    skipped, and at most [limit] are returned, in that order. *)
Theorem paginated_results (name : string) (page lim off : option Z) (db : Session) :
  (forall p, page = Some p -> (1 <= p)%Z) ->
  (forall n, lim = Some n -> (1 <= n <= 500)%Z) ->
  (forall n, off = Some n -> (0 <= n)%Z) ->
  let l := match lim with Some n => n | None => 50%Z end in
  let o := match off with Some n => n | None => 0%Z end in
  exists resp sorted,
    get_results_endpoint (Some name) page lim off db = inl resp
    /\ schemas.total resp
       = Z.of_nat (List.length (filter (matches name page) (table db)))
    /\ Permutation (filter (matches name page) (table db)) sorted
    /\ Sorted stored_order sorted
    /\ schemas.items resp
       = map schemas.from_orm (firstn (Z.to_nat l) (skipn (Z.to_nat o) sorted))
    /\ (Z.of_nat (List.length (schemas.items resp)) <= l)%Z
    /\ Sorted page_line_order (schemas.items resp).
Proof.
  intros Hpage Hlim Hoff l o.
  assert (Hl : (1 <= l <= 500)%Z)
    by (subst l; destruct lim; [now apply Hlim | lia]).
  assert (Ho : (0 <= o)%Z)
    by (subst o; destruct off; [now apply Hoff | lia]).
  assert (Hp : match page with Some p => (1 <=? p)%Z | None => true end = true)
    by (destruct page as [p|]; [apply Z.leb_le; now apply Hpage | reflexivity]).
  assert (Hwhere :
    filter (q_where
              (match page with
               | Some p =>
                   if (p =? 0)%Z
                   then q_filter (db_query db) (fun r => models.file_name r =? name)
                   else q_filter
                          (q_filter (db_query db) (fun r => models.file_name r =? name))
                          (fun r => (models.page_number r =? p)%Z)
               | None => q_filter (db_query db) (fun r => models.file_name r =? name)
               end))
           (table db)
    = filter (matches name page) (table db)).
  { apply filter_ext. intros r. unfold matches.
    destruct page as [p|]; simpl.
    - assert (Hp0 : (p =? 0)%Z = false) by (apply Z.eqb_neq; specialize (Hpage p eq_refl); lia).
      rewrite Hp0. reflexivity.
    - now rewrite andb_true_r. }
  set (sorted := sort_rows (key_leb models.page_number models.line_number)
                   (filter (matches name page) (table db))).
  assert (Hitems :
    schemas.items (get_results name page l o db)
    = map schemas.from_orm (firstn (Z.to_nat l) (skipn (Z.to_nat o) sorted))).
  { unfold get_results, q_all. simpl.
    replace (q_from _) with (table db) by (destruct page as [p|]; [destruct (p =? 0)%Z|]; reflexivity).
    rewrite Hwhere. reflexivity. }
  exists (get_results name page l o db), sorted.
  split; [|split; [|split; [|split; [|split; [|split]]]]].
  - unfold get_results_endpoint. fold l o. rewrite Hp.
    replace (1 <=? l)%Z with true by (symmetry; apply Z.leb_le; lia).
    replace (l <=? 500)%Z with true by (symmetry; apply Z.leb_le; lia).
    replace (0 <=? o)%Z with true by (symmetry; apply Z.leb_le; lia).
    reflexivity.
  - unfold get_results, q_count. simpl.
    replace (q_from _) with (table db) by (destruct page as [p|]; [destruct (p =? 0)%Z|]; reflexivity).
    rewrite Hwhere. reflexivity.
  - apply sort_rows_perm.
  - apply sort_rows_sorted.
  - exact Hitems.
  - rewrite Hitems, length_map.
    pose proof (firstn_le_length (Z.to_nat l) (skipn (Z.to_nat o) sorted)). lia.
  - rewrite Hitems. apply Sorted_from_orm, Sorted_firstn, Sorted_skipn.
    apply sort_rows_sorted.
Qed.

Lemma paginated_results_witness :
  (forall p, Some 1%Z = Some p -> (1 <= p)%Z)
  /\ (forall n, Some 2%Z = Some n -> (1 <= n <= 500)%Z)
  /\ (forall n, Some 1%Z = Some n -> (0 <= n)%Z)
  /\ exists resp sorted,
       get_results_endpoint (Some "ledger.tiff") (Some 1%Z) (Some 2%Z) (Some 1%Z)
         Sample.archive = inl resp
       /\ schemas.total resp
          = Z.of_nat (List.length (filter (matches "ledger.tiff" (Some 1%Z))
                                          (table Sample.archive)))
       /\ Permutation (filter (matches "ledger.tiff" (Some 1%Z)) (table Sample.archive))
            sorted
       /\ Sorted stored_order sorted
       /\ schemas.items resp
          = map schemas.from_orm (firstn (Z.to_nat 2) (skipn (Z.to_nat 1) sorted))
       /\ (Z.of_nat (List.length (schemas.items resp)) <= 2)%Z
       /\ Sorted page_line_order (schemas.items resp).
Proof.
  assert (H1 : forall p, Some 1%Z = Some p -> (1 <= p)%Z)
    by (intros p [= <-]; lia).
  assert (H2 : forall n, Some 2%Z = Some n -> (1 <= n <= 500)%Z)
    by (intros n [= <-]; lia).
  assert (H3 : forall n, Some 1%Z = Some n -> (0 <= n)%Z)
    by (intros n [= <-]; lia).
  split; [exact H1|]. split; [exact H2|]. split; [exact H3|].
  exact (paginated_results "ledger.tiff" (Some 1%Z) (Some 2%Z) (Some 1%Z)
           Sample.archive H1 H2 H3).
Defined.

(** The window of the sample table: three rows of page 1 match, the one
    with the smallest line number is skipped, two are returned. *)
Example archive_window_sample :
  match get_results_endpoint (Some "ledger.tiff") (Some 1%Z) (Some 2%Z) (Some 1%Z)
          Sample.archive with
  | inl resp =>
      schemas.total resp = 3%Z
      /\ map (fun r => (schemas.id r, schemas.page_number r, schemas.line_number r))
           (schemas.items resp)
         = [(2, 1, 3); (5, 1, 3)]%Z
  | inr _ => False
  end.
Proof. vm_compute. split; reflexivity. Qed.

(** ** Paths *)




























(** ** Uploads *)

Section UploadClaims.
Context {B : Builtins} {Image : Type}.
Variable E : External Image.




End UploadClaims.


(** The same upload, end to end: declared a PDF, stored as [.tiff], handed
    to the image decoder, which does not recognise it. *)
Example pdf_without_pdf_name_is_read_as_tiff :
  snd (upload_and_process (B := Sample.builtins) Sample.external
         Sample.files Sample.session
         {| filename := "report"; content_type := "application/pdf";
            contents := Sample.pdf_bytes |}
         tesseract "0123456789abcdef0123456789abcdef")
  = inr {| status_code := 500;
           detail := "OCR failed: cannot identify image file" |}.
Proof. vm_compute. reflexivity. Qed.

(** ** Page extraction: the PDF branch and failing frames *)

Section ExtractionMore.
Context {Image : Type}.
Variable E : External Image.

Lemma pdf_loop_all_pages :
  forall (pages rgbs : list Image) (i : Z) (images : list (Z * Image)),
    Forall2 (fun page rgb => convert_RGB E page = Ok rgb) pages rgbs ->
    pdf_loop E i pages images = Ok (images ++ numbered i rgbs).
Proof.
  induction pages as [|page pages IH]; intros rgbs i images Hconv;
    inversion Hconv as [|? rgb ? rgbs' Hrgb Hrest]; subst; simpl.
  - now rewrite app_nil_r.
  - rewrite Hrgb. simpl. rewrite (IH rgbs' _ _ Hrest).
    now rewrite <- app_assoc.
Qed.

Lemma tiff_loop_stops :
  forall (before done rgbs : list Image) (bad : Image) (after : list Image)
         (e : exn) (images : list (Z * Image)),
    Forall2 (fun frame rgb => convert_RGB E frame = Ok rgb) before rgbs ->
    convert_RGB E bad = Raise e ->
    tiff_loop E (done ++ before ++ bad :: after) (List.length done) images =
    (images ++ numbered (Z.of_nat (List.length done) + 1) rgbs, e).
Proof.
  induction before as [|frame before IH]; intros done rgbs bad after e images Hconv Hbad;
    inversion Hconv as [|? rgb ? rgbs' Hrgb Hrest]; subst;
    rewrite tiff_loop_turn;
    rewrite nth_error_app2 by lia; rewrite Nat.sub_diag;
    simpl nth_error; cbv beta iota.
  - rewrite Hbad. simpl. now rewrite app_nil_r.
  - rewrite Hrgb.
    replace (done ++ (frame :: before) ++ bad :: after)
      with ((done ++ [frame]) ++ before ++ bad :: after)
      by (rewrite <- app_assoc; reflexivity).
    replace (S (List.length done)) with (List.length (done ++ [frame]))
      by (rewrite length_app; simpl; lia).
    rewrite (IH (done ++ [frame]) rgbs' bad after e _ Hrest Hbad).
    rewrite <- app_assoc. simpl. rewrite length_app. simpl.
    replace (Z.of_nat (List.length done + 1) + 1)%Z
      with (Z.of_nat (List.length done) + 1 + 1)%Z by lia.
    reflexivity.
Qed.

(** X1. A PDF that the renderer turns into N >= 1 pages, each of which
    converts to RGB, yields exactly N pairs numbered 1..N in page order,
    after one existence check and one rendering of the file. *)
Theorem pdf_pages (fs : filesystem) (path : string) (contents : bytes)
    (pages rgbs : list Image) :
  fs (os_path.abspath (getcwd E) path) = Some contents ->
  file_ext E path = ".pdf" ->
  convert_from_path E contents = Ok pages ->
  pages <> [] ->
  Forall2 (fun page rgb => convert_RGB E page = Ok rgb) pages rgbs ->
  let abs_path := os_path.abspath (getcwd E) path in
  exists images,
    _images_from_file E fs path
    = ([IoExists abs_path; IoConvertFromPath abs_path], Ok images)
    /\ List.length images = List.length pages
    /\ map fst images = map Z.of_nat (seq 1 (List.length pages))
    /\ map snd images = rgbs.
Proof.
  intros Hfile Hext Hrender Hne Hconv abs_path.
  exists (numbered 1 rgbs).
  assert (Hlen : List.length rgbs = List.length pages)
    by (symmetry; eapply Forall2_length; eassumption).
  split; [|split; [|split]].
  - unfold _images_from_file. cbv zeta. fold abs_path. fold abs_path in Hfile.
    rewrite Hfile. unfold file_ext in Hext. fold abs_path in Hext.
    rewrite Hext. cbn [String.eqb Ascii.eqb Bool.eqb]. rewrite Hrender.
    cbn [bind]. destruct pages as [|page pages']; [congruence|].
    rewrite (pdf_loop_all_pages _ _ _ _ Hconv). reflexivity.
  - rewrite numbered_length. exact Hlen.
  - rewrite <- Hlen. apply (numbered_pages rgbs 1).
  - clear. generalize 1%Z. induction rgbs as [|r rgbs IH]; intros z; simpl;
      [reflexivity | now rewrite IH].
Qed.

(** X2. A PDF for which the renderer returns no page at all is refused with
    the [RuntimeError] "No pages extracted from PDF.". *)
Theorem pdf_without_pages (fs : filesystem) (path : string) (contents : bytes) :
  fs (os_path.abspath (getcwd E) path) = Some contents ->
  file_ext E path = ".pdf" ->
  convert_from_path E contents = Ok [] ->
  snd (_images_from_file E fs path)
  = Raise (Exn RuntimeError "No pages extracted from PDF.").
Proof.
  intros Hfile Hext Hrender.
  unfold _images_from_file. cbv zeta. rewrite Hfile.
  unfold file_ext in Hext. rewrite Hext.
  cbn [String.eqb Ascii.eqb Bool.eqb snd]. rewrite Hrender. reflexivity.
Qed.

(** X3. When the conversion of a TIFF frame raises, the frames before it
    having converted, the extraction stops there. An [EOFError] is taken
    for the end of the file: the call returns the pages before that
    frame, numbered from 1, and reports no error. Any other exception is
    raised to the caller. *)
Theorem tiff_frame_failure (fs : filesystem) (path : string) (contents : bytes)
    (before rgbs : list Image) (bad : Image) (after : list Image) (e : exn) :
  fs (os_path.abspath (getcwd E) path) = Some contents ->
  file_ext E path = ".tif" \/ file_ext E path = ".tiff" ->
  Image_open E contents = Ok (before ++ bad :: after) ->
  Forall2 (fun frame rgb => convert_RGB E frame = Ok rgb) before rgbs ->
  convert_RGB E bad = Raise e ->
  snd (_images_from_file E fs path)
  = if is_EOFError e then Ok (numbered 1 rgbs) else Raise e.
Proof.
  intros Hfile Hext Hopen Hconv Hbad.
  unfold _images_from_file. cbv zeta. rewrite Hfile.
  unfold file_ext in Hext.
  assert (Hpdf : (Str.lower (snd (os_path.splitext
                    (os_path.abspath (getcwd E) path))) =? ".pdf") = false)
    by (destruct Hext as [-> | ->]; reflexivity).
  assert (Htif :
    (Str.lower (snd (os_path.splitext (os_path.abspath (getcwd E) path))) =? ".tif")
    || (Str.lower (snd (os_path.splitext (os_path.abspath (getcwd E) path))) =? ".tiff")
    = true)
    by (destruct Hext as [-> | ->]; reflexivity).
  rewrite Hpdf, Htif. cbn [snd]. rewrite Hopen.
  pose proof (tiff_loop_stops before [] rgbs bad after e [] Hconv Hbad) as Hloop.
  simpl in Hloop. rewrite Hloop. reflexivity.
Qed.

(** X4. A failure of the PDF renderer is raised to the caller as it is,
    and so is a failure of the image decoder, unless it is an [EOFError],
    in which case the TIFF is taken to have no page. *)
Theorem decoder_failure (fs : filesystem) (path : string) (contents : bytes)
    (e : exn) :
  fs (os_path.abspath (getcwd E) path) = Some contents ->
  (file_ext E path = ".pdf" ->
   convert_from_path E contents = Raise e ->
   snd (_images_from_file E fs path) = Raise e)
  /\ (file_ext E path = ".tif" \/ file_ext E path = ".tiff" ->
      Image_open E contents = Raise e ->
      snd (_images_from_file E fs path)
      = if is_EOFError e then Ok [] else Raise e).
Proof.
  intros Hfile. unfold _images_from_file, file_ext. cbv zeta. rewrite Hfile.
  split.
  - intros Hext Hrender. rewrite Hext.
    cbn [String.eqb Ascii.eqb Bool.eqb snd]. rewrite Hrender. reflexivity.
  - intros Hext Hopen.
    destruct Hext as [Hext | Hext]; rewrite Hext;
      cbn [String.eqb Ascii.eqb Bool.eqb orb snd]; rewrite Hopen; reflexivity.
Qed.

End ExtractionMore.

Lemma pdf_pages_witness :
  let abs_path := "/srv/app/scans/report.pdf" in
  Documents.files (os_path.abspath (getcwd Documents.external) "scans/report.pdf")
    = Some Sample.pdf_bytes
  /\ file_ext Documents.external "scans/report.pdf" = ".pdf"
  /\ exists images,
       _images_from_file Documents.external Documents.files "scans/report.pdf"
       = ([IoExists abs_path; IoConvertFromPath abs_path], Ok images)
       /\ List.length images = 2%nat
       /\ map fst images = map Z.of_nat (seq 1 2)
       /\ map snd images = ["invoice"; "blank"].
Proof.
  intros abs_path. split; [vm_compute; reflexivity|].
  split; [vm_compute; reflexivity|].
  generalize (pdf_pages Documents.external Documents.files "scans/report.pdf"
                Sample.pdf_bytes ["invoice"; "blank"] ["invoice"; "blank"]).
  vm_compute. intros H. apply H; try reflexivity.
  - discriminate.
  - repeat constructor.
Defined.

Lemma pdf_without_pages_witness :
  Documents.files (os_path.abspath (getcwd Documents.external) "scans/empty.pdf")
    = Some Documents.empty_pdf_bytes
  /\ file_ext Documents.external "scans/empty.pdf" = ".pdf"
  /\ convert_from_path Documents.external Documents.empty_pdf_bytes = Ok []
  /\ snd (_images_from_file Documents.external Documents.files "scans/empty.pdf")
     = Raise (Exn RuntimeError "No pages extracted from PDF.").
Proof.
  split; [vm_compute; reflexivity|]. split; [vm_compute; reflexivity|].
  split; [vm_compute; reflexivity|].
  apply (pdf_without_pages Documents.external Documents.files "scans/empty.pdf"
           Documents.empty_pdf_bytes); vm_compute; reflexivity.
Defined.

Lemma tiff_frame_failure_witness :
  let e := Exn EOFError "unexpected end of file" in
  Image_open Documents.external Sample.damaged_tiff_bytes
    = Ok (["invoice"] ++ "torn" :: ["blank"])
  /\ convert_RGB Documents.external "torn" = Raise e
  /\ snd (_images_from_file Documents.external Documents.files "scans/damaged.tiff")
     = if is_EOFError e then Ok (numbered 1 ["invoice"]) else Raise e.
Proof.
  intros e. split; [vm_compute; reflexivity|]. split; [vm_compute; reflexivity|].
  apply (tiff_frame_failure Documents.external Documents.files "scans/damaged.tiff"
           Sample.damaged_tiff_bytes ["invoice"] ["invoice"] "torn" ["blank"] e).
  - vm_compute; reflexivity.
  - right. vm_compute; reflexivity.
  - vm_compute; reflexivity.
  - repeat constructor.
  - vm_compute; reflexivity.
Defined.

Lemma decoder_failure_witness :
  let e := Exn PDFPageCountError "Unable to get page count." in
  Documents.files (os_path.abspath (getcwd Documents.external) "scans/broken.pdf")
    = Some Sample.png_bytes
  /\ file_ext Documents.external "scans/broken.pdf" = ".pdf"
  /\ convert_from_path Documents.external Sample.png_bytes = Raise e
  /\ snd (_images_from_file Documents.external Documents.files "scans/broken.pdf")
     = Raise e.
Proof.
  intros e. split; [vm_compute; reflexivity|]. split; [vm_compute; reflexivity|].
  split; [vm_compute; reflexivity|].
  apply (proj1 (decoder_failure Documents.external Documents.files "scans/broken.pdf"
                  Sample.png_bytes e ltac:(vm_compute; reflexivity)));
    vm_compute; reflexivity.
Defined.

(** ** The layout-engine adapter: order, completeness, blank pages *)

Lemma StronglySorted_seq (a n : nat) : StronglySorted lt (seq a n).
Proof.
  revert a. induction n as [|n IH]; intros a; simpl; constructor.
  - apply IH.
  - apply Forall_forall. intros k Hk. apply in_seq in Hk. lia.
Qed.

Lemma StronglySorted_filter {A} (R : A -> A -> Prop) (f : A -> bool) (l : list A) :
  StronglySorted R l -> StronglySorted R (filter f l).
Proof.
  induction 1 as [|a l Hl IH Ha]; simpl; [constructor|].
  destruct (f a); [|exact IH].
  constructor; [exact IH|].
  apply Forall_forall. intros b Hb. apply filter_In in Hb as [Hb _].
  rewrite Forall_forall in Ha. auto.
Qed.

Lemma StronglySorted_of_nat (l : list nat) :
  StronglySorted lt l -> StronglySorted Z.lt (map Z.of_nat l).
Proof.
  induction 1 as [|a l Hl IH Ha]; simpl; constructor; [exact IH|].
  apply Forall_forall. intros z Hz. apply in_map_iff in Hz as (b & <- & Hb).
  rewrite Forall_forall in Ha. specialize (Ha b Hb). lia.
Qed.



Section TesseractMore.
Context {B : Builtins} {Image : Type}.
Variable E : External Image.

Lemma tesseract_step_numbers (data : TessData) (i : nat) (results results' : list Row) :
  tesseract_step data i results = Ok results' ->
  map line_number results'
  = map line_number results
    ++ (if nonblank (d_text data) i then [Z.of_nat i] else []).
Proof.
  intros Hstep. unfold tesseract_step in Hstep. unfold nonblank.
  inv_bind Hstep. apply index_Ok in Hv. rewrite Hv.
  destruct (Str.truthy (Str.strip v)).
  - do 10 inv_bind Hstep. injection Hstep as <-.
    rewrite map_app. reflexivity.
  - injection Hstep as <-. now rewrite app_nil_r.
Qed.

Lemma tesseract_loop_numbers (data : TessData) :
  forall (xs : list nat) (results results' : list Row),
    for_each xs (tesseract_step data) results = Ok results' ->
    map line_number results'
    = map line_number results
      ++ map Z.of_nat (filter (nonblank (d_text data)) xs).
Proof.
  induction xs as [|i xs IH]; simpl; intros results results' Hrun.
  - injection Hrun as <-. now rewrite app_nil_r.
  - inv_bind Hrun. rewrite (IH _ _ Hrun), (tesseract_step_numbers _ _ _ _ Hv).
    rewrite <- app_assoc. f_equal.
    destruct (nonblank (d_text data) i); reflexivity.
Qed.

(** X5. The rows of the layout-engine adapter are the non-blank cells of
    the text column, one row each, in the order of the column: their
    line numbers are the indices of those cells, so they increase
    strictly, and there are as many rows as non-blank cells. *)
Theorem tesseract_line_numbers (image : Image) (data : TessData) (rows : list Row) :
  image_to_data E image = Ok data ->
  _ocr_tesseract E image = Ok rows ->
  let kept := filter (nonblank (d_text data))
                (seq 0 (List.length (d_text data))) in
  map line_number rows = map Z.of_nat kept
  /\ List.length rows = List.length kept
  /\ StronglySorted Z.lt (map line_number rows).
Proof.
  intros Hdata Hrun kept. unfold _ocr_tesseract in Hrun.
  rewrite Hdata in Hrun. simpl in Hrun.
  apply tesseract_loop_numbers in Hrun. simpl in Hrun. fold kept in Hrun.
  split; [exact Hrun|]. split.
  - rewrite <- (length_map line_number), Hrun. apply length_map.
  - rewrite Hrun. apply StronglySorted_of_nat, StronglySorted_filter,
      StronglySorted_seq.
Qed.

Lemma tesseract_step_box (data : TessData) (i : nat) (results results' : list Row) :
  Forall (tesseract_box data) results ->
  tesseract_step data i results = Ok results' ->
  Forall (tesseract_box data) results'.
Proof.
  intros Hres Hstep. unfold tesseract_step in Hstep.
  inv_bind Hstep.
  destruct (Str.truthy (Str.strip v)); [|congruence].
  do 10 inv_bind Hstep. injection Hstep as <-.
  apply Forall_app. split; [exact Hres|]. constructor; [|constructor].
  exists i, v2, v4, v6, v8. simpl.
  repeat match goal with
         | H : index _ _ = Ok _ |- _ => apply index_Ok in H
         end.
  repeat split; assumption.
Qed.

(** X6. The box of a row of the layout-engine adapter is the entry of the
    columns [left], [top], [width] and [height] at the row's line number,
    each converted with [int]. *)
Theorem tesseract_geometry (image : Image) (data : TessData)
    (rows : list Row) (r : Row) :
  image_to_data E image = Ok data ->
  _ocr_tesseract E image = Ok rows ->
  In r rows ->
  tesseract_box data r.
Proof.
  intros Hdata Hrun Hin. unfold _ocr_tesseract in Hrun.
  rewrite Hdata in Hrun. simpl in Hrun.
  assert (Hall : Forall (tesseract_box data) rows).
  { eapply for_each_invariant with (P := Forall (tesseract_box data));
      [ constructor | | exact Hrun ].
    intros a t t' _ Ht Hstep. eapply tesseract_step_box; eauto. }
  rewrite Forall_forall in Hall. auto.
Qed.

Lemma nth_error_Forall {A} (P : A -> Prop) (l : list A) (i : nat) :
  Forall P l -> (i < List.length l)%nat ->
  exists a, nth_error l i = Some a /\ P a.
Proof.
  intros Hall Hi. destruct (nth_error l i) as [a|] eqn:Ha.
  - exists a. split; [reflexivity|].
    rewrite Forall_forall in Hall. eapply Hall, nth_error_In, Ha.
  - apply nth_error_None in Ha. lia.
Qed.



(** X8. A page whose text cells are all blank (empty or white space) gives
    no row and no error, whatever the other columns hold. *)
Theorem tesseract_blank_page (image : Image) (data : TessData) :
  image_to_data E image = Ok data ->
  Forall (fun cell => Str.strip cell = "") (d_text data) ->
  _ocr_tesseract E image = Ok [].
Proof.
  intros Hdata Hblank. unfold _ocr_tesseract. rewrite Hdata. cbn [bind].
  unfold range.
  assert (Hgen : forall xs,
             Forall (fun i => (i < List.length (d_text data))%nat) xs ->
             for_each xs (tesseract_step data) [] = Ok []).
  { induction xs as [|i xs IH]; intros Hxs; simpl; [reflexivity|].
    inversion Hxs as [|? ? Hi Hrest]; subst.
    destruct (nth_error_Forall _ _ i Hblank Hi) as (cell & Hcell & Hstrip).
    unfold tesseract_step at 1. unfold index. rewrite Hcell. cbn [bind].
    rewrite Hstrip. cbn [Str.truthy bind]. apply IH. exact Hrest. }
  apply Hgen. apply Forall_forall. intros i Hi. apply in_seq in Hi. lia.
Qed.

End TesseractMore.

Lemma tesseract_line_numbers_witness :
  image_to_data Sample.external "invoice" = Ok Tables.invoice_table
  /\ _ocr_tesseract (B := Sample.builtins) Sample.external "invoice"
     = Ok Tables.invoice_rows
  /\ (let kept := filter (nonblank (d_text Tables.invoice_table))
                    (seq 0 (List.length (d_text Tables.invoice_table))) in
      map line_number Tables.invoice_rows = map Z.of_nat kept
      /\ List.length Tables.invoice_rows = List.length kept
      /\ StronglySorted Z.lt (map line_number Tables.invoice_rows)).
Proof.
  split; [vm_compute; reflexivity|]. split; [vm_compute; reflexivity|].
  apply (tesseract_line_numbers (B := Sample.builtins) Sample.external "invoice"
           Tables.invoice_table Tables.invoice_rows); vm_compute; reflexivity.
Defined.

Lemma tesseract_geometry_witness :
  let r := {| line_number := 0; line_text := "PAID";
              confidence := Some (inject_Z (-1));
              x := 40; y := 40; width := 64; height := 20;
              file_name := None; page_number := None |} in
  image_to_data Sample.external "stamp" = Ok Tables.stamp_table
  /\ _ocr_tesseract (B := Sample.builtins) Sample.external "stamp" = Ok [r]
  /\ In r [r]
  /\ tesseract_box (B := Sample.builtins) Tables.stamp_table r.
Proof.
  intros r. split; [vm_compute; reflexivity|].
  split; [vm_compute; reflexivity|]. split; [left; reflexivity|].
  apply (tesseract_geometry (B := Sample.builtins) Sample.external "stamp"
           Tables.stamp_table [r] r);
    [vm_compute; reflexivity | vm_compute; reflexivity | left; reflexivity].
Defined.


Lemma tesseract_blank_page_witness :
  let data := {| d_text := [""; "   "; " "];
                 d_conf := []; d_left := []; d_top := [];
                 d_width := []; d_height := [] |} in
  image_to_data Tables.external "margins" = Ok data
  /\ Forall (fun cell => Str.strip cell = "") (d_text data)
  /\ _ocr_tesseract (B := Sample.builtins) Tables.external "margins" = Ok [].
Proof.
  intros data.
  assert (Hblank : Forall (fun cell => Str.strip cell = "") (d_text data))
    by (repeat constructor).
  split; [vm_compute; reflexivity|]. split; [exact Hblank|].
  apply (tesseract_blank_page (B := Sample.builtins) Tables.external "margins"
           data); [vm_compute; reflexivity | exact Hblank].
Defined.

(** ** The detector-recognizer adapter: order, completeness, bad polygons *)

(** X30. The box is computed on doubles. With xs -1.5 and the double next
    below 1, [x] is -1 and the difference of the maximum and [x], which
    is not a double, rounds to 2.0: the width is 2, not the integer part 1
    of the exact difference. When the spread of the coordinates exceeds
    the largest double the difference is infinite and [int] raises
    [OverflowError]; when the minimum is a NaN [int] raises
    [ValueError]. *)
Theorem box_in_double_arithmetic :
  (exists r,
      _ocr_paddle (B := Sample.builtins) Polygons.external "rounded" = Ok [r]
      /\ x r = (-1)%Z /\ width r = 2%Z /\ y r = 5%Z /\ height r = 4%Z)
  /\ _ocr_paddle (B := Sample.builtins) Polygons.external "vast"
     = Raise (Exn OverflowError "cannot convert float infinity to integer")
  /\ _ocr_paddle (B := Sample.builtins) Polygons.external "undefined"
     = Raise (Exn ValueError "cannot convert float NaN to integer").
Proof.
  split; [|split]; [|vm_compute; reflexivity|vm_compute; reflexivity].
  eexists. split; [vm_compute; reflexivity|]. repeat split.
Qed.

Section PaddleMore.
Context {B : Builtins} {Image : Type}.
Variable E : External Image.

(** X9. The rows of the detector-recognizer adapter are the detections
    with text, one row each, in the engine's order. The line number of a
    row is the position of its detection in the engine's list, counting
    the malformed and the empty entries that were skipped; so line
    numbers increase strictly but need not be contiguous. *)
Theorem paddle_line_numbers (image : Image) (ocr : Image -> result paddle_result)
    (res : paddle_result) (rows : list Row) :
  PaddleOCR E = Some ocr -> ocr image = Ok res ->
  _ocr_paddle E image = Ok rows ->
  let kept := filter (kept_line (detected res))
                (seq 0 (List.length (detected res))) in
  map line_number rows = map Z.of_nat kept
  /\ List.length rows = List.length kept
  /\ StronglySorted Z.lt (map line_number rows).
Proof.
  intros Hocr Hres Hrun kept.
  assert (Hnum : map line_number rows = map Z.of_nat kept).
  { unfold _ocr_paddle, get_paddle_ocr in Hrun.
    rewrite Hocr in Hrun. simpl in Hrun. rewrite Hres in Hrun. simpl in Hrun.
    subst kept.
    destruct res as [[|[[|line lines]|] rest]|];
      try (injection Hrun as <-; reflexivity).
    apply (paddle_loop_numbers (line :: lines)) in Hrun; [exact Hrun|].
    intros k. reflexivity. }
  split; [exact Hnum|]. split.
  - rewrite <- (length_map line_number), Hnum. apply length_map.
  - rewrite Hnum. apply StronglySorted_of_nat, StronglySorted_filter,
      StronglySorted_seq.
Qed.





Lemma paddle_loop_app :
  forall (a b : list paddle_line) (i : nat) (results : list Row),
    paddle_loop i (a ++ b) results
    = (results' <- paddle_loop i a results ;;
       paddle_loop (i + List.length a) b results').
Proof.
  induction a as [|line a IH]; intros b i results; simpl.
  - now rewrite Nat.add_0_r.
  - destruct (paddle_step i line results) as [results'|e]; cbn [bind];
      [|reflexivity].
    rewrite IH. replace (S i + List.length a)%nat with (i + S (List.length a))%nat by lia.
    reflexivity.
Qed.

(** X11. A detection with text but an empty polygon is not skipped the way
    a malformed entry is: once the entries before it are processed, the
    adapter raises the [ValueError] of [min] on an empty sequence, and the
    page yields no rows at all. *)
Theorem paddle_empty_polygon (image : Image) (ocr : Image -> result paddle_result)
    (before after : list paddle_line) (text : string) (conf : pyval)
    (rest : list (option (list paddle_line))) (done : list Row) :
  PaddleOCR E = Some ocr ->
  ocr image = Ok (Some (Some (before ++ Detection [] text conf :: after) :: rest)) ->
  paddle_loop 0 before [] = Ok done ->
  text <> "" ->
  _ocr_paddle E image = Raise (Exn ValueError "min() arg is an empty sequence").
Proof.
  intros Hocr Hres Hbefore Htext. unfold _ocr_paddle, get_paddle_ocr.
  rewrite Hocr. cbn [bind]. rewrite Hres. cbn [bind].
  assert (Hloop : paddle_loop 0 (before ++ Detection [] text conf :: after) []
                  = Raise (Exn ValueError "min() arg is an empty sequence")).
  { rewrite paddle_loop_app, Hbefore. cbn [bind]. simpl.
    apply truthy_true in Htext. rewrite Htext. reflexivity. }
  destruct before as [|l before]; simpl app in *; exact Hloop.
Qed.

End PaddleMore.

Lemma paddle_line_numbers_witness :
  PaddleOCR Detections.external = Some Detections.engine
  /\ Detections.engine "receipt" = Ok (Some [Some Detections.receipt_lines])
  /\ _ocr_paddle (B := Sample.builtins) Detections.external "receipt"
     = Ok Detections.receipt_rows
  /\ map line_number Detections.receipt_rows = [1%Z; 3%Z]
  /\ (let kept := filter (kept_line (detected (Some [Some Detections.receipt_lines])))
                    (seq 0 (List.length (detected (Some [Some Detections.receipt_lines])))) in
      map line_number Detections.receipt_rows = map Z.of_nat kept
      /\ List.length Detections.receipt_rows = List.length kept
      /\ StronglySorted Z.lt (map line_number Detections.receipt_rows)).
Proof.
  split; [reflexivity|]. split; [vm_compute; reflexivity|].
  split; [vm_compute; reflexivity|]. split; [vm_compute; reflexivity|].
  apply (paddle_line_numbers (B := Sample.builtins) Detections.external "receipt"
           Detections.engine (Some [Some Detections.receipt_lines])
           Detections.receipt_rows);
    [reflexivity | vm_compute; reflexivity | vm_compute; reflexivity].
Defined.


Lemma paddle_empty_polygon_witness :
  let shop := Detection (Sample.quad 8 8 120 30) "Shop" (PyFloat (97 # 100)) in
  let total := Detection (Sample.quad 8 70 140 96) "Total" (PyInt 1) in
  Detections.engine "speck"
    = Ok (Some [Some ([shop] ++ Detection [] "x" (PyFloat (1 # 2)) :: [total])])
  /\ (exists done, paddle_loop (B := Sample.builtins) 0 [shop] [] = Ok done)
  /\ _ocr_paddle (B := Sample.builtins) Detections.external "speck"
     = Raise (Exn ValueError "min() arg is an empty sequence").
Proof.
  intros shop total. split; [vm_compute; reflexivity|].
  split; [eexists; vm_compute; reflexivity|].
  eapply (paddle_empty_polygon (B := Sample.builtins) Detections.external "speck"
            Detections.engine [shop] [total] "x" (PyFloat (1 # 2)) []);
    [reflexivity | vm_compute; reflexivity | vm_compute; reflexivity | discriminate].
Defined.

(** ** The OCR runner: the batch, the session, the table *)

Section RunnerMore.
Context {B : Builtins} {Image : Type}.
Variable E : External Image.

Lemma pages_loop_batch (name : string) (engine : SupportedEngine) :
  forall (images : list (Z * Image)) (rowss : list (list Row)) (acc : list Row),
    Forall2 (fun pi rows => ocr_page E engine (snd pi) = Ok rows) images rowss ->
    pages_loop E name engine images acc = Ok (acc ++ batch_of name images rowss).
Proof.
  induction images as [|[p im] images IH]; intros rowss acc Hall;
    inversion Hall as [|? rows ? rowss' Hrows Hrest]; subst.
  - simpl. now rewrite app_nil_r.
  - simpl in Hrows. simpl. rewrite Hrows.
    rewrite (IH rowss' _ Hrest). unfold batch_of. simpl.
    now rewrite <- app_assoc.
Qed.

(** X12. When the adapter succeeds on every page, the batch of
    [run_ocr_on_file] is the concatenation, in page order, of the rows of
    each page in the adapter's order; every row carries the original file
    name and the number of its page, and is otherwise as the adapter
    built it. *)
Theorem batch_in_page_order (name : string) (engine : SupportedEngine)
    (images : list (Z * Image)) (rowss : list (list Row)) :
  Forall2 (fun pi rows => ocr_page E engine (snd pi) = Ok rows) images rowss ->
  pages_loop E name engine images [] = Ok (batch_of name images rowss)
  /\ Forall (fun r => file_name r = Some name
                      /\ exists pi, In pi images /\ page_number r = Some (fst pi))
       (batch_of name images rowss)
  /\ map line_number (batch_of name images rowss) = map line_number (List.concat rowss)
  /\ map line_text (batch_of name images rowss) = map line_text (List.concat rowss)
  /\ map confidence (batch_of name images rowss) = map confidence (List.concat rowss).
Proof.
  intros Hall. split; [apply (pages_loop_batch name engine images rowss [] Hall)|].
  assert (Hlen : List.length images = List.length rowss)
    by (eapply Forall2_length; eassumption).
  clear Hall. unfold batch_of. split.
  - apply Forall_forall. intros r Hr. apply in_concat in Hr as (l & Hl & Hr).
    apply in_map_iff in Hl as ([pi rows] & <- & Hpr).
    apply in_map_iff in Hr as (r0 & <- & _). simpl.
    split; [reflexivity|]. exists pi. split; [|reflexivity].
    eapply in_combine_l. exact Hpr.
  - revert rowss Hlen. induction images as [|pi images IH]; intros [|rows rowss] Hlen;
      try discriminate; [repeat split|].
    simpl in Hlen. injection Hlen as Hlen. destruct (IH rowss Hlen) as (H1 & H2 & H3).
    simpl. rewrite !map_app, H1, H2, H3. unfold tag_rows. rewrite !map_map.
    repeat split.
Qed.

(** X13. Without a session nothing is stored and the count returned is 0,
    however many rows the pages gave; the page count is still the number
    of extracted pages. *)
Theorem no_session_counts_zero (fs : filesystem) (path name : string)
    (engine : SupportedEngine) (io : list io_event)
    (images : list (Z * Image)) (batch : list Row) :
  _images_from_file E fs path = (io, Ok images) ->
  pages_loop E name engine images [] = Ok batch ->
  run_ocr_on_file E fs path name engine None
  = (io, None, Ok (0%Z, Z.of_nat (List.length images))).
Proof.
  intros Himages Hbatch. unfold run_ocr_on_file. rewrite Himages, Hbatch.
  reflexivity.
Qed.

Lemma stage_names (name : string) :
  forall (rows : list Row) (key stamp : Z) (recs : list models.OCRResult)
         (err : option exn),
    Forall (tagged name) rows ->
    stage key stamp rows = (recs, err) ->
    Forall (fun rec => models.file_name rec = name) recs.
Proof.
  induction rows as [|r rows IH]; intros key stamp recs err Hall Hstage; simpl in Hstage.
  - injection Hstage as <- <-. constructor.
  - inversion Hall as [|? ? [Hname [p Hpage]] Hrest]; subst.
    unfold to_record in Hstage. rewrite Hname, Hpage in Hstage.
    destruct (stage (key + 1) stamp rows) as [recs' err'] eqn:Hrec.
    injection Hstage as <- <-. constructor; [reflexivity|].
    eapply IH; eauto.
Qed.

(** What a call with a session does to the committed table. *)
Lemma run_ocr_table (fs : filesystem) (path name : string)
    (engine : SupportedEngine) (s : Session) (io : list io_event)
    (db' : option Session) (outcome : result (Z * Z)) :
  run_ocr_on_file E fs path name engine (Some s) = (io, db', outcome) ->
  exists s',
    db' = Some s'
    /\ match outcome with
       | Raise _ => table s' = table s
       | Ok (n, _) =>
           (n = 0%Z /\ s' = s)
           \/ exists recs,
                table s' = table s ++ pending s ++ recs
                /\ Z.of_nat (List.length recs) = n
                /\ Forall (fun rec => models.file_name rec = name) recs
       end.
Proof.
  unfold run_ocr_on_file.
  destruct (_images_from_file E fs path) as [io0 [images|e]];
    [|intros [= <- <- <-]; exists s; split; reflexivity].
  destruct (pages_loop E name engine images []) as [batch|e] eqn:Hbatch;
    [|intros [= <- <- <-]; exists s; split; reflexivity].
  pose proof (pages_loop_tagged E name engine images [] batch (Forall_nil _) Hbatch)
    as Htagged.
  destruct batch as [|r0 batch0];
    [intros [= <- <- <-]; exists s; split; [reflexivity | left; split; reflexivity]|].
  set (batch := r0 :: batch0) in *.
  unfold bulk_insert_mappings.
  destruct (insert_fault E batch) as [[k e]|] eqn:Hfault.
  - assert (Hpre : Forall (tagged name) (firstn k batch)).
    { apply Forall_forall. intros r Hr.
      rewrite Forall_forall in Htagged. apply Htagged.
      rewrite <- (firstn_skipn k batch). apply in_or_app. now left. }
    destruct (stage_tagged name (firstn k batch) (next_id s) (now s) Hpre)
      as (recs' & Hstage' & _).
    rewrite Hstage'. intros [= <- <- <-]. eexists. split; reflexivity.
  - destruct (stage_tagged name batch (next_id s) (now s) Htagged)
      as (recs & Hstage & Hlen).
    pose proof (stage_names name batch _ _ _ _ Htagged Hstage) as Hnames.
    rewrite Hstage. unfold commit. cbn [pending].
    destruct (commit_fault E (pending s ++ recs)) as [e|];
      intros [= <- <- <-]; eexists; (split; [reflexivity|]); cbn [table rollback].
    + reflexivity.
    + right. exists recs. split; [reflexivity|].
      split; [rewrite Hlen; reflexivity | exact Hnames].
Qed.

(** X14. Whatever makes [run_ocr_on_file] raise (a missing file, the
    extraction, the adapter on some page, the insert, the commit), the
    committed table of the session it hands back is the table it was
    given. *)
Theorem failure_keeps_table (fs : filesystem) (path name : string)
    (engine : SupportedEngine) (s : Session) (io : list io_event)
    (db' : option Session) (e : exn) :
  run_ocr_on_file E fs path name engine (Some s) = (io, db', Raise e) ->
  exists s', db' = Some s' /\ table s' = table s.
Proof.
  intros Hrun. destruct (run_ocr_table _ _ _ _ _ _ _ _ Hrun) as (s' & Hs' & Htable).
  exists s'. split; assumption.
Qed.

Lemma count_name_app (name : string) (old recs : list models.OCRResult) :
  Forall (fun rec => models.file_name rec = name) recs ->
  forall other,
    List.length (filter (fun r => models.file_name r =? other) (old ++ recs))
    = (List.length (filter (fun r => (models.file_name r =? other)%string) old)
       + (if (other =? name)%string then List.length recs else 0))%nat.
Proof.
  intros Hall other. rewrite filter_app, length_app. f_equal.
  destruct (other =? name) eqn:Heq;
    induction Hall as [|rec recs Hrec _ IH]; simpl; try reflexivity;
    rewrite Hrec, (String.eqb_sym name other), Heq; simpl;
    [now rewrite IH | exact IH].
Qed.

(** X15. Insert, then look up. After a call that returns on a session with
    no pending rows, the total that [get_results] reports for the original
    file name has grown by exactly the count the call returned, and the
    total of every other file name is what it was. *)
Theorem results_total_after_run (fs : filesystem) (path name : string)
    (engine : SupportedEngine) (s s' : Session) (io : list io_event)
    (inserted pages : Z) :
  run_ocr_on_file E fs path name engine (Some s) = (io, Some s', Ok (inserted, pages)) ->
  pending s = [] ->
  forall (other : string) (lim off : Z),
    schemas.total (get_results other None lim off s')
    = (schemas.total (get_results other None lim off s)
       + (if (other =? name)%string then inserted else 0))%Z.
Proof.
  intros Hrun Hpending other lim off.
  destruct (run_ocr_table _ _ _ _ _ _ _ _ Hrun) as (s1 & [= <-] & Hcase).
  assert (Htotal : forall db,
             schemas.total (get_results other None lim off db)
             = Z.of_nat (List.length
                           (filter (fun r => models.file_name r =? other) (table db)))).
  { intros db. unfold get_results, q_count. simpl. reflexivity. }
  rewrite !Htotal.
  destruct Hcase as [[-> ->] | (recs & Htable & Hlen & Hnames)].
  - destruct (other =? name); lia.
  - rewrite Htable, Hpending. cbn [app].
    rewrite (count_name_app name (table s) recs Hnames other).
    destruct (other =? name); lia.
Qed.

(** X16. With the detector-recognizer engine selected and its package
    missing, a document of at least one page fails on its first page: the
    error names that page and tells how to install the package, and the
    session is handed back untouched. *)
Theorem paddle_missing_fails_first_page (fs : filesystem) (path name : string)
    (db : option Session) (io : list io_event) (page : Z) (image : Image)
    (rest : list (Z * Image)) :
  PaddleOCR E = None ->
  _images_from_file E fs path = (io, Ok ((page, image) :: rest)) ->
  run_ocr_on_file E fs path name paddle db
  = (io, db, Raise (Exn RuntimeError
                      ("OCR failed on page " ++ Str.of_Z page ++ ": " ++ paddle_missing))).
Proof.
  intros Hmissing Himages. unfold run_ocr_on_file. rewrite Himages.
  simpl. unfold _ocr_paddle, get_paddle_ocr. rewrite Hmissing. reflexivity.
Qed.

(** X17. A path that does not exist makes [run_ocr_on_file] raise the
    [FileNotFoundError] of the extractor as it is, without page context:
    the existence check is the only thing done, and the session is handed
    back untouched. *)
Theorem missing_file_not_wrapped (fs : filesystem) (path name : string)
    (engine : SupportedEngine) (db : option Session) :
  let abs_path := os_path.abspath (getcwd E) path in
  fs abs_path = None ->
  run_ocr_on_file E fs path name engine db
  = ([IoExists abs_path], db,
     Raise (Exn FileNotFoundError ("File not found: " ++ abs_path))).
Proof.
  intros abs_path Hmissing. unfold run_ocr_on_file, _images_from_file.
  cbv zeta. fold abs_path. rewrite Hmissing. reflexivity.
Qed.

End RunnerMore.

Lemma batch_in_page_order_witness :
  let rowss := [Tables.invoice_rows; []; []] in
  Forall2 (fun pi rows =>
             ocr_page (B := Sample.builtins) Sample.external tesseract (snd pi) = Ok rows)
    [(1%Z, "invoice"); (2%Z, "blank"); (3%Z, "blank")] rowss
  /\ pages_loop (B := Sample.builtins) Sample.external "ledger.tiff" tesseract
       [(1%Z, "invoice"); (2%Z, "blank"); (3%Z, "blank")] []
     = Ok (batch_of "ledger.tiff"
             [(1%Z, "invoice"); (2%Z, "blank"); (3%Z, "blank")] rowss)
  /\ map page_number
       (batch_of "ledger.tiff" [(1%Z, "invoice"); (2%Z, "blank"); (3%Z, "blank")] rowss)
     = [Some 1%Z; Some 1%Z].
Proof.
  intros rowss.
  assert (Hall : Forall2 (fun pi rows =>
             ocr_page (B := Sample.builtins) Sample.external tesseract (snd pi) = Ok rows)
    [(1%Z, "invoice"); (2%Z, "blank"); (3%Z, "blank")] rowss)
    by (repeat constructor).
  split; [exact Hall|].
  split; [|vm_compute; reflexivity].
  exact (proj1 (batch_in_page_order (B := Sample.builtins) Sample.external
                  "ledger.tiff" tesseract _ rowss Hall)).
Defined.

Lemma no_session_counts_zero_witness :
  let io := [IoExists "/srv/app/scans/ledger.tiff";
             IoImageOpen "/srv/app/scans/ledger.tiff"] in
  _images_from_file Sample.external Sample.files "scans/ledger.tiff"
    = (io, Ok Sample.ledger_pages)
  /\ pages_loop (B := Sample.builtins) Sample.external "ledger.tiff" tesseract
       Sample.ledger_pages [] = Ok Sample.ledger_batch
  /\ List.length Sample.ledger_batch = 3%nat
  /\ run_ocr_on_file (B := Sample.builtins) Sample.external Sample.files
       "scans/ledger.tiff" "ledger.tiff" tesseract None
     = (io, None, Ok (0%Z, Z.of_nat (List.length Sample.ledger_pages))).
Proof.
  intros io. split; [vm_compute; reflexivity|]. split; [vm_compute; reflexivity|].
  split; [reflexivity|].
  apply (no_session_counts_zero (B := Sample.builtins) Sample.external Sample.files
           "scans/ledger.tiff" "ledger.tiff" tesseract io Sample.ledger_pages
           Sample.ledger_batch); vm_compute; reflexivity.
Defined.

Lemma failure_keeps_table_witness :
  exists io db' e,
    run_ocr_on_file (B := Sample.builtins) Sample.external_commit_fails Sample.files
      "scans/ledger.tiff" "ledger.tiff" tesseract (Some Sample.session)
    = (io, db', Raise e)
    /\ exists s', db' = Some s' /\ table s' = table Sample.session.
Proof.
  eexists. eexists. eexists. split; [vm_compute; reflexivity|].
  eapply (failure_keeps_table (B := Sample.builtins) Sample.external_commit_fails
            Sample.files "scans/ledger.tiff" "ledger.tiff" tesseract Sample.session).
  vm_compute. reflexivity.
Defined.

Lemma results_total_after_run_witness :
  exists io s',
    run_ocr_on_file (B := Sample.builtins) Sample.external Sample.files
      "scans/ledger.tiff" "ledger.tiff" tesseract (Some Sample.archive)
    = (io, Some s', Ok (3%Z, 3%Z))
    /\ pending Sample.archive = []
    /\ schemas.total (get_results "ledger.tiff" None 50 0 s') = 7%Z
    /\ forall (other : string) (lim off : Z),
         schemas.total (get_results other None lim off s')
         = (schemas.total (get_results other None lim off Sample.archive)
            + (if (other =? "ledger.tiff")%string then 3 else 0))%Z.
Proof.
  eexists. eexists. split; [vm_compute; reflexivity|]. split; [reflexivity|].
  split; [vm_compute; reflexivity|].
  eapply (results_total_after_run (B := Sample.builtins) Sample.external Sample.files
            "scans/ledger.tiff" "ledger.tiff" tesseract Sample.archive);
    [vm_compute; reflexivity | reflexivity].
Defined.

Lemma paddle_missing_fails_first_page_witness :
  let io := [IoExists "/srv/app/scans/ledger.tiff";
             IoImageOpen "/srv/app/scans/ledger.tiff"] in
  PaddleOCR Tables.external = None
  /\ _images_from_file Tables.external Sample.files "scans/ledger.tiff"
     = (io, Ok ((1%Z, "invoice") :: [(2%Z, "blank"); (3%Z, "stamp")]))
  /\ run_ocr_on_file (B := Sample.builtins) Tables.external Sample.files
       "scans/ledger.tiff" "ledger.tiff" paddle (Some Sample.session)
     = (io, Some Sample.session,
        Raise (Exn RuntimeError
                 ("OCR failed on page " ++ Str.of_Z 1 ++ ": " ++ paddle_missing))).
Proof.
  intros io. split; [reflexivity|]. split; [vm_compute; reflexivity|].
  apply (paddle_missing_fails_first_page (B := Sample.builtins) Tables.external
           Sample.files "scans/ledger.tiff" "ledger.tiff" (Some Sample.session) io
           1%Z "invoice" [(2%Z, "blank"); (3%Z, "stamp")]);
    [reflexivity | vm_compute; reflexivity].
Defined.

Lemma missing_file_not_wrapped_witness :
  Sample.files (os_path.abspath (getcwd Sample.external) "scans/missing.tiff") = None
  /\ run_ocr_on_file (B := Sample.builtins) Sample.external Sample.files
       "scans/missing.tiff" "missing.tiff" tesseract (Some Sample.session)
     = ([IoExists (os_path.abspath (getcwd Sample.external) "scans/missing.tiff")],
        Some Sample.session,
        Raise (Exn FileNotFoundError
                 ("File not found: "
                  ++ os_path.abspath (getcwd Sample.external) "scans/missing.tiff"))).
Proof.
  split; [vm_compute; reflexivity|].
  apply (missing_file_not_wrapped (B := Sample.builtins) Sample.external Sample.files
           "scans/missing.tiff" "missing.tiff" tesseract (Some Sample.session)).
  vm_compute. reflexivity.
Defined.

(** ** Uploads: rejections, the temporary file, the response *)

Section UploadMore.
Context {B : Builtins} {Image : Type}.
Variable E : External Image.

(** The shape of [upload_and_process] once the two checks have passed. *)
Lemma upload_accepted (fs : filesystem) (db : Session) (file : UploadFile)
    (engine : SupportedEngine) (temp_id : string) :
  mem_str (content_type file) accepted_content_types = true ->
  (Z.of_nat (List.length (contents file)) <= MAX_FILE_BYTES E)%Z ->
  let temp_path := upload_temp_path E file temp_id in
  let abs_path := os_path.abspath (getcwd E) temp_path in
  let fs1 := fs_write fs abs_path (contents file) in
  let run := run_ocr_on_file E fs1 temp_path (filename file) engine (Some db) in
  upload_and_process E fs db file engine temp_id
  = (fs_remove fs1 abs_path,
     [IoMakedirs (UPLOAD_DIR E); IoWrite abs_path] ++ fst (fst run)
     ++ [IoExists abs_path; IoRemove abs_path],
     match snd (fst run) with Some s => s | None => db end,
     match snd run with
     | Raise e => inr {| status_code := 500; detail := "OCR failed: " ++ exn_msg e |}
     | Ok (total_rows, total_pages) =>
         inl {| schemas.job_file_name := filename file;
                schemas.engine := engine_value engine;
                schemas.pages := total_pages;
                schemas.rows_inserted := total_rows;
                schemas.message := "OCR completed and results stored." |}
     end).
Proof.
  intros Htype Hsize temp_path abs_path fs1 run.
  unfold upload_and_process. rewrite Htype. cbn [negb].
  replace (MAX_FILE_BYTES E <? Z.of_nat (List.length (contents file)))%Z
    with false by (symmetry; apply Z.ltb_ge; exact Hsize).
  fold temp_path. fold abs_path. fold fs1. fold run.
  destruct run as [[io1 db1] outcome]. cbn [fst snd].
  assert (Hthere : fs1 abs_path = Some (contents file))
    by (unfold fs1, fs_write; now rewrite String.eqb_refl).
  rewrite Hthere. destruct outcome as [[rows pages]|e]; reflexivity.
Qed.

(** X18. An upload whose content type is not one of the four accepted is
    answered 415 before anything else happens: no file system call, the
    files and the session as they were. One that is too large is answered
    413 after the upload directory was created and before anything is
    written: no file appears, no OCR runs, the session is as it was. *)
Theorem upload_rejected (fs : filesystem) (db : Session) (file : UploadFile)
    (engine : SupportedEngine) (temp_id : string) :
  (mem_str (content_type file) accepted_content_types = false ->
   upload_and_process E fs db file engine temp_id
   = (fs, [], db,
      inr {| status_code := 415;
             detail := "Unsupported file format. Only PDF or TIFF allowed." |}))
  /\ (mem_str (content_type file) accepted_content_types = true ->
      (MAX_FILE_BYTES E < Z.of_nat (List.length (contents file)))%Z ->
      upload_and_process E fs db file engine temp_id
      = (fs, [IoMakedirs (UPLOAD_DIR E)], db,
         inr {| status_code := 413; detail := "File too large." |})).
Proof.
  unfold upload_and_process. split.
  - intros ->. reflexivity.
  - intros -> Hsize. cbn [negb]. apply Z.ltb_lt in Hsize. rewrite Hsize. reflexivity.
Qed.

(** X21. When the adapter raises on a page of an uploaded document, the
    pages before it having been read, the answer is a 500 whose detail
    names that page and carries the cause:
    "OCR failed: OCR failed on page n: cause". *)
Theorem upload_page_failure_detail (fs : filesystem) (db : Session)
    (file : UploadFile) (engine : SupportedEngine) (temp_id : string)
    (io : list io_event) (before : list (Z * Image)) (page : Z) (image : Image)
    (after : list (Z * Image)) (e : exn) :
  mem_str (content_type file) accepted_content_types = true ->
  (Z.of_nat (List.length (contents file)) <= MAX_FILE_BYTES E)%Z ->
  let temp_path := upload_temp_path E file temp_id in
  let abs_path := os_path.abspath (getcwd E) temp_path in
  _images_from_file E (fs_write fs abs_path (contents file)) temp_path
    = (io, Ok (before ++ (page, image) :: after)) ->
  Forall (fun pi => exists rows, ocr_page E engine (snd pi) = Ok rows) before ->
  ocr_page E engine image = Raise e ->
  snd (upload_and_process E fs db file engine temp_id)
  = inr {| status_code := 500;
           detail := ("OCR failed: OCR failed on page " ++ Str.of_Z page
                      ++ ": " ++ exn_msg e)%string |}
  /\ snd (fst (upload_and_process E fs db file engine temp_id)) = db.
Proof.
  intros Htype Hsize temp_path abs_path Himages Hbefore Hfail.
  rewrite (upload_accepted fs db file engine temp_id Htype Hsize).
  cbn [fst snd]. fold temp_path. fold abs_path.
  unfold run_ocr_on_file. rewrite Himages.
  rewrite (pages_loop_failure E (filename file) engine before page image after e []
             Hbefore Hfail).
  cbn [fst snd]. split; reflexivity.
Qed.

End UploadMore.

Lemma upload_rejected_witness :
  let png := {| filename := "photo.png"; content_type := "image/png";
                contents := Sample.png_bytes |} in
  mem_str (content_type png) accepted_content_types = false
  /\ upload_and_process (B := Sample.builtins) Sample.external Sample.files
       Sample.session png tesseract "0123456789abcdef0123456789abcdef"
     = (Sample.files, [], Sample.session,
        inr {| status_code := 415;
               detail := "Unsupported file format. Only PDF or TIFF allowed." |}).
Proof.
  intros png. split; [reflexivity|].
  apply (proj1 (upload_rejected (B := Sample.builtins) Sample.external Sample.files
                  Sample.session png tesseract "0123456789abcdef0123456789abcdef")).
  reflexivity.
Defined.

Lemma upload_page_failure_detail_witness :
  let file := {| filename := "damaged.tiff"; content_type := "image/x-tiff";
                 contents := Sample.damaged_tiff_bytes |} in
  let temp_id := "0123456789abcdef0123456789abcdef" in
  let cause := Exn TesseractError "Image too small to scale" in
  ocr_page (B := Sample.builtins) Sample.external tesseract "torn" = Raise cause
  /\ snd (upload_and_process (B := Sample.builtins) Sample.external Sample.files
            Sample.session file tesseract temp_id)
     = inr {| status_code := 500;
              detail := ("OCR failed: OCR failed on page " ++ Str.of_Z 2
                         ++ ": " ++ exn_msg cause)%string |}
  /\ snd (fst (upload_and_process (B := Sample.builtins) Sample.external Sample.files
                 Sample.session file tesseract temp_id)) = Sample.session.
Proof.
  intros file temp_id cause. split; [vm_compute; reflexivity|].
  eapply (upload_page_failure_detail (B := Sample.builtins) Sample.external
            Sample.files Sample.session file tesseract temp_id _
            [(1%Z, "invoice")] 2%Z "torn" [(3%Z, "blank")] cause).
  - reflexivity.
  - vm_compute; discriminate.
  - vm_compute. reflexivity.
  - constructor; [|constructor]. eexists. vm_compute. reflexivity.
  - vm_compute; reflexivity.
Defined.

(** ** The listing operation *)

Lemma dict_get_set_same (f : string) (v : Z * Z) (d : tallies) :
  dict_get f (dict_set f v d) = Some v.
Proof.
  induction d as [|[k w] d IH]; simpl.
  - now rewrite String.eqb_refl.
  - destruct (k =? f) eqn:Hk; simpl; rewrite Hk; [reflexivity | exact IH].
Qed.

Lemma dict_get_set_other (f g : string) (v : Z * Z) (d : tallies) :
  g <> f -> dict_get g (dict_set f v d) = dict_get g d.
Proof.
  intros Hg. induction d as [|[k w] d IH]; simpl.
  - apply String.eqb_neq in Hg. now rewrite String.eqb_sym, Hg.
  - destruct (k =? f) eqn:Hk; simpl.
    + apply String.eqb_eq in Hk. subst k.
      apply String.eqb_neq in Hg. now rewrite String.eqb_sym, Hg.
    + destruct (k =? g); [reflexivity | exact IH].
Qed.

Lemma dict_get_keys (f : string) (d : tallies) :
  dict_get f d <> None <-> In f (map fst d).
Proof.
  induction d as [|[k w] d IH]; simpl; [tauto|].
  destruct (k =? f) eqn:Hk.
  - apply String.eqb_eq in Hk. split; [now left | discriminate].
  - apply String.eqb_neq in Hk. rewrite IH. split; [now right | intros [?|?]; tauto].
Qed.

Lemma dict_set_keys (f : string) (v : Z * Z) (d : tallies) :
  map fst (dict_set f v d)
  = match dict_get f d with
    | Some _ => map fst d
    | None => map fst d ++ [f]
    end.
Proof.
  induction d as [|[k w] d IH]; simpl; [reflexivity|].
  destruct (k =? f) eqn:Hk; simpl; [reflexivity|].
  rewrite IH. now destruct (dict_get f d).
Qed.

Lemma dict_set_NoDup (f : string) (v : Z * Z) (d : tallies) :
  NoDup (map fst d) -> NoDup (map fst (dict_set f v d)).
Proof.
  intros Hd. rewrite dict_set_keys.
  destruct (dict_get f d) eqn:Hf; [exact Hd|].
  apply NoDup_app; [exact Hd | repeat constructor; simpl; tauto |].
  intros k Hk [<-|[]]. apply dict_get_keys in Hk. congruence.
Qed.

Lemma dict_get_In (f : string) (v : Z * Z) (d : tallies) :
  NoDup (map fst d) -> In (f, v) d -> dict_get f d = Some v.
Proof.
  induction d as [|[k w] d IH]; simpl; [tauto|].
  intros Hd [Hin|Hin].
  - injection Hin as -> ->. now rewrite String.eqb_refl.
  - inversion Hd as [|? ? Hk Hrest]; subst.
    destruct (k =? f) eqn:Hkf; [|now apply IH].
    apply String.eqb_eq in Hkf. subst k. exfalso. apply Hk.
    apply in_map_iff. exists (f, v). split; [reflexivity | exact Hin].
Qed.

Lemma rows_of_snoc (f : string) (t : list models.OCRResult) (r : models.OCRResult) :
  rows_of f (t ++ [r])
  = rows_of f t ++ (if models.file_name r =? f then [r] else []).
Proof.
  unfold rows_of. rewrite filter_app. simpl.
  now destruct (models.file_name r =? f).
Qed.

Lemma max_page_snoc (f : string) (t : list models.OCRResult) (r : models.OCRResult) :
  models.file_name r = f ->
  max_page f (t ++ [r]) = Z.max (max_page f t) (models.page_number r).
Proof.
  intros Hr. unfold max_page. rewrite rows_of_snoc, Hr, String.eqb_refl.
  now rewrite map_app, fold_left_app.
Qed.

Lemma list_files_loop (t : list models.OCRResult) :
  let d := fold_left list_files_step
             (map (fun r => (models.file_name r, models.page_number r)) t) [] in
  NoDup (map fst d) /\ forall f, dict_get f d = tally_of f t.
Proof.
  induction t as [|r t IH] using rev_ind.
  - simpl. split; [constructor | reflexivity].
  - rewrite map_app, fold_left_app. cbn [map fold_left].
    set (d := fold_left list_files_step
                (map (fun r => (models.file_name r, models.page_number r)) t) []) in *.
    destruct IH as [Hnodup Hget].
    set (f0 := models.file_name r). set (p := models.page_number r).
    unfold list_files_step.
    set (d1 := match dict_get f0 d with
               | Some _ => d
               | None => dict_set f0 (0%Z, 0%Z) d
               end).
    assert (Hd1 : dict_get f0 d1
                  = Some (max_page f0 t, Z.of_nat (List.length (rows_of f0 t)))).
    { subst d1. destruct (dict_get f0 d) as [v|] eqn:Hold.
      - rewrite Hold. rewrite Hget in Hold. unfold tally_of in Hold.
        destruct (rows_of f0 t); [discriminate | symmetry; exact Hold].
      - rewrite dict_get_set_same. rewrite Hget in Hold. unfold tally_of in Hold.
        unfold max_page.
        destruct (rows_of f0 t); [reflexivity | discriminate]. }
    assert (Hother : forall g, g <> f0 -> dict_get g d1 = dict_get g d).
    { intros g Hg. subst d1. destruct (dict_get f0 d); [reflexivity|].
      now apply dict_get_set_other. }
    assert (Hnodup1 : NoDup (map fst d1)).
    { subst d1. destruct (dict_get f0 d); [exact Hnodup|].
      now apply dict_set_NoDup. }
    rewrite Hd1. split; [now apply dict_set_NoDup|].
    intros g. destruct (String.eqb_spec g f0) as [-> | Hg].
    + rewrite dict_get_set_same. unfold tally_of.
      rewrite (max_page_snoc f0 t r eq_refl).
      rewrite rows_of_snoc. fold f0. rewrite String.eqb_refl.
      destruct (rows_of f0 t ++ [r]) eqn:Hrows;
        [apply app_eq_nil in Hrows as [_ Hrows]; discriminate|].
      rewrite <- Hrows, length_app. simpl. do 2 f_equal. lia.
    + rewrite (dict_get_set_other _ _ _ _ Hg), (Hother g Hg), Hget.
      unfold tally_of, max_page. rewrite rows_of_snoc. fold f0.
      assert (Hne : (f0 =? g) = false)
        by (apply String.eqb_neq; congruence).
      now rewrite Hne, app_nil_r.
Qed.

Lemma list_files_names (db : Session) :
  map files.file_name (list_files db)
  = map fst (fold_left list_files_step
               (map (fun r => (models.file_name r, models.page_number r)) (table db)) []).
Proof. unfold list_files. rewrite map_map. reflexivity. Qed.

Lemma rows_of_nonempty (f : string) (t : list models.OCRResult) :
  rows_of f t <> [] <-> exists r, In r t /\ models.file_name r = f.
Proof.
  unfold rows_of. split.
  - destruct (filter _ t) as [|r l] eqn:Hrows; [congruence|]. intros _.
    assert (Hin : In r (filter (fun r => models.file_name r =? f) t))
      by (rewrite Hrows; now left).
    apply filter_In in Hin as [Hin Hname]. apply String.eqb_eq in Hname. eauto.
  - intros (r & Hin & Hname) Hnil.
    assert (Hr : In r (filter (fun r => models.file_name r =? f) t))
      by (apply filter_In; split; [exact Hin | now apply String.eqb_eq]).
    rewrite Hnil in Hr. exact Hr.
Qed.

Lemma fold_left_max_bounds (l : list Z) (a : Z) :
  (a <= fold_left Z.max l a)%Z
  /\ (forall z, In z l -> (z <= fold_left Z.max l a)%Z)
  /\ (fold_left Z.max l a = a \/ In (fold_left Z.max l a) l).
Proof.
  revert a. induction l as [|b l IH]; intros a; simpl.
  - split; [lia|]. split; [tauto | now left].
  - destruct (IH (Z.max a b)) as (H1 & H2 & H3). split; [lia|]. split.
    + intros z [<-|Hz]; [lia | now apply H2].
    + destruct H3 as [H3|H3]; [|now right; right].
      rewrite H3. destruct (Z.max_spec a b) as [[_ ->]|[_ ->]]; [right; now left | now left].
Qed.

(** The summary of a file is in the listing exactly when the table has rows
    of that file, and then it is the tally of those rows. *)
Lemma list_files_lookup (db : Session) (s : files.FileSummary) :
  In s (list_files db) <->
  tally_of (files.file_name s) (table db) = Some (files.pages s, files.rows s).
Proof.
  destruct (list_files_loop (table db)) as [Hnodup Hget].
  unfold list_files. cbv zeta.
  set (d := fold_left list_files_step _ []) in *.
  rewrite <- Hget. split.
  - intros Hin. apply in_map_iff in Hin as ([k [pg rw]] & <- & Hin). simpl.
    now apply dict_get_In.
  - intros Hs. apply in_map_iff. exists (files.file_name s, (files.pages s, files.rows s)).
    split; [now destruct s|].
    clear - Hs. induction d as [|[k w] d IH]; simpl in *; [discriminate|].
    destruct (k =? files.file_name s) eqn:Hk.
    + apply String.eqb_eq in Hk. left. congruence.
    + right. now apply IH.
Qed.

(** X22. The listing has one summary for each file name that occurs in the
    table, and no two summaries for the same name. *)
Theorem listing_names (db : Session) :
  NoDup (map files.file_name (list_files db))
  /\ forall f,
       In f (map files.file_name (list_files db))
       <-> exists r, In r (table db) /\ models.file_name r = f.
Proof.
  destruct (list_files_loop (table db)) as [Hnodup Hget].
  rewrite list_files_names. split; [exact Hnodup|].
  intros f. rewrite <- dict_get_keys, Hget, <- rows_of_nonempty.
  unfold tally_of. destruct (rows_of f (table db)); split; congruence.
Qed.

(** X23. The summary of a file counts its rows in the table, so it counts
    at least one, and its [pages] is the largest page number among them,
    or 0 when none of them is positive. *)
Theorem listing_counts (db : Session) (s : files.FileSummary) :
  In s (list_files db) ->
  let mine := rows_of (files.file_name s) (table db) in
  files.rows s = Z.of_nat (List.length mine)
  /\ (1 <= files.rows s)%Z
  /\ (0 <= files.pages s)%Z
  /\ (forall r, In r mine -> (models.page_number r <= files.pages s)%Z)
  /\ (files.pages s = 0%Z
      \/ exists r, In r mine /\ models.page_number r = files.pages s).
Proof.
  intros Hin mine. subst mine. apply list_files_lookup in Hin.
  unfold tally_of, max_page in Hin.
  remember (rows_of (files.file_name s) (table db)) as mine eqn:Hmine.
  destruct (fold_left_max_bounds (map models.page_number mine) 0) as (H0 & Hle & Hat).
  destruct mine as [|r0 rest]; [discriminate|].
  injection Hin as Hpages Hrows. rewrite <- Hpages, <- Hrows.
  split; [reflexivity|]. split; [simpl List.length; lia|].
  split; [exact H0|]. split.
  - intros r Hr. apply Hle. now apply in_map.
  - destruct Hat as [Hat|Hat]; [now left|]. right.
    apply in_map_iff in Hat as (r & Hr & Hin). eauto.
Qed.

Lemma sum_dict_set (f : string) (v : Z * Z) (d : tallies) :
  sum_Z (map (fun kv => snd (snd kv)) (dict_set f v d))
  = (sum_Z (map (fun kv => snd (snd kv)) d) + snd v
     - match dict_get f d with Some w => snd w | None => 0 end)%Z.
Proof.
  induction d as [|[k w] d IH]; simpl; [lia|].
  destruct (k =? f); simpl; [lia|]. rewrite IH. lia.
Qed.

Lemma list_files_step_sum (d : tallies) (fp : string * Z) :
  sum_Z (map (fun kv => snd (snd kv)) (list_files_step d fp))
  = (sum_Z (map (fun kv => snd (snd kv)) d) + 1)%Z.
Proof.
  destruct fp as [f p]. unfold list_files_step.
  destruct (dict_get f d) as [[pg rw]|] eqn:Hold.
  - rewrite Hold, sum_dict_set, Hold. simpl. lia.
  - rewrite dict_get_set_same, !sum_dict_set, dict_get_set_same, Hold. simpl. lia.
Qed.

(** X24. The row counts of the summaries add up to the number of rows of
    the table: every stored row is counted in exactly one summary. *)
Theorem listing_rows_sum (db : Session) :
  sum_Z (map files.rows (list_files db)) = Z.of_nat (List.length (table db)).
Proof.
  unfold list_files. cbv zeta. rewrite map_map. cbn [files.rows].
  rewrite <- (length_map (fun r => (models.file_name r, models.page_number r)) (table db)).
  assert (Hgen : forall q d,
             sum_Z (map (fun kv : string * (Z * Z) => snd (snd kv))
                        (fold_left list_files_step q d))
             = (sum_Z (map (fun kv => snd (snd kv)) d) + Z.of_nat (List.length q))%Z).
  { induction q as [|fp q IH]; intros d; simpl fold_left; [simpl; lia|].
    rewrite IH, list_files_step_sum. simpl List.length. lia. }
  rewrite Hgen. reflexivity.
Qed.

Section ListingAfterRun.
Context {B : Builtins} {Image : Type}.
Variable E : External Image.

(** X25. Upload, then list. After a call of [run_ocr_on_file] that stored
    at least one row, on a session with no pending rows, the listing has
    a summary for the original file name, and its row count is the number
    of rows the file had before plus the count the call returned. *)
Theorem listing_after_run (fs : filesystem) (path name : string)
    (engine : SupportedEngine) (s s' : Session) (io : list io_event)
    (inserted pages : Z) :
  run_ocr_on_file E fs path name engine (Some s) = (io, Some s', Ok (inserted, pages)) ->
  pending s = [] ->
  (0 < inserted)%Z ->
  exists summary,
    In summary (list_files s')
    /\ files.file_name summary = name
    /\ files.rows summary
       = (Z.of_nat (List.length (rows_of name (table s))) + inserted)%Z.
Proof.
  intros Hrun Hpending Hpos.
  destruct (run_ocr_table E _ _ _ _ _ _ _ _ Hrun) as (s1 & [= <-] & Hcase).
  destruct Hcase as [[-> _] | (recs & Htable & Hlen & Hnames)]; [lia|].
  rewrite Hpending in Htable. cbn [app] in Htable.
  assert (Hrows : rows_of name (table s') = rows_of name (table s) ++ recs).
  { rewrite Htable. unfold rows_of. rewrite filter_app. f_equal.
    clear - Hnames. induction Hnames as [|rec recs Hrec _ IH]; simpl; [reflexivity|].
    now rewrite Hrec, String.eqb_refl, IH. }
  exists {| files.file_name := name;
            files.pages := max_page name (table s');
            files.rows := Z.of_nat (List.length (rows_of name (table s'))) |}.
  split; [|split; [reflexivity|]].
  - apply list_files_lookup. cbn [files.file_name files.pages files.rows].
    unfold tally_of. rewrite Hrows.
    destruct (rows_of name (table s) ++ recs) eqn:Happ; [|reflexivity].
    apply app_eq_nil in Happ as [_ ->]. simpl in Hlen. lia.
  - cbn [files.rows]. rewrite Hrows, length_app. lia.
Qed.

End ListingAfterRun.

Lemma listing_counts_witness :
  let s := {| files.file_name := "ledger.tiff"; files.pages := 2; files.rows := 4 |} in
  list_files Sample.archive
    = [s; {| files.file_name := "memo.pdf"; files.pages := 1; files.rows := 1 |}]
  /\ In s (list_files Sample.archive)
  /\ (let mine := rows_of (files.file_name s) (table Sample.archive) in
      files.rows s = Z.of_nat (List.length mine)
      /\ (1 <= files.rows s)%Z
      /\ (0 <= files.pages s)%Z
      /\ (forall r, In r mine -> (models.page_number r <= files.pages s)%Z)
      /\ (files.pages s = 0%Z
          \/ exists r, In r mine /\ models.page_number r = files.pages s)).
Proof.
  intros s. split; [vm_compute; reflexivity|].
  assert (Hin : In s (list_files Sample.archive)) by (vm_compute; left; reflexivity).
  split; [exact Hin|].
  exact (listing_counts Sample.archive s Hin).
Defined.

Lemma listing_after_run_witness :
  exists io s',
    run_ocr_on_file (B := Sample.builtins) Sample.external Sample.files
      "scans/ledger.tiff" "ledger.tiff" tesseract (Some Sample.archive)
    = (io, Some s', Ok (3%Z, 3%Z))
    /\ pending Sample.archive = []
    /\ (0 < 3)%Z
    /\ exists summary,
         In summary (list_files s')
         /\ files.file_name summary = "ledger.tiff"
         /\ files.rows summary
            = (Z.of_nat (List.length (rows_of "ledger.tiff" (table Sample.archive))) + 3)%Z.
Proof.
  eexists. eexists. split; [vm_compute; reflexivity|]. split; [reflexivity|].
  split; [reflexivity|].
  eapply (listing_after_run (B := Sample.builtins) Sample.external Sample.files
            "scans/ledger.tiff" "ledger.tiff" tesseract Sample.archive);
    [vm_compute; reflexivity | reflexivity | reflexivity].
Defined.

(** ** Paginated results: windows *)

Lemma firstn_window {A} (a b o : nat) (l : list A) :
  firstn a (skipn o l) ++ firstn b (skipn (o + a) l) = firstn (a + b) (skipn o l).
Proof.
  replace (o + a)%nat with (a + o)%nat by lia. rewrite <- skipn_skipn.
  generalize (skipn o l) as m. clear. induction a as [|a IH]; intros m; simpl.
  - reflexivity.
  - destruct m as [|x m]; simpl.
    + now rewrite firstn_nil.
    + now rewrite IH.
Qed.

Lemma In_window {A} (x : A) (n o : nat) (l : list A) :
  In x (firstn n (skipn o l)) -> In x l.
Proof.
  intros Hx. rewrite <- (firstn_skipn o l). apply in_or_app. right.
  rewrite <- (firstn_skipn n (skipn o l)). apply in_or_app. now left.
Qed.

(** The rows a request selects, in order, before the window is cut. *)
Lemma get_results_items (name : string) (page : option Z) (lim off : Z) (db : Session) :
  exists sorted,
    (forall lim off,
        schemas.items (get_results name page lim off db)
        = map schemas.from_orm (firstn (Z.to_nat lim) (skipn (Z.to_nat off) sorted)))
    /\ (forall lim off,
           schemas.total (get_results name page lim off db)
           = Z.of_nat (List.length sorted))
    /\ forall r, In r sorted ->
                 In r (table db) /\ models.file_name r = name
                 /\ forall p, page = Some p -> p <> 0%Z -> models.page_number r = p.
Proof.
  set (base := match page with
               | Some p =>
                   if (p =? 0)%Z
                   then q_filter (db_query db) (fun r => models.file_name r =? name)
                   else q_filter
                          (q_filter (db_query db) (fun r => models.file_name r =? name))
                          (fun r => (models.page_number r =? p)%Z)
               | None => q_filter (db_query db) (fun r => models.file_name r =? name)
               end).
  assert (Hfrom : q_from base = table db)
    by (subst base; destruct page as [p|]; [destruct (p =? 0)%Z|]; reflexivity).
  exists (sort_rows (key_leb models.page_number models.line_number)
            (filter (q_where base) (table db))).
  split; [|split].
  - intros l o. unfold get_results, q_all. fold base. simpl. now rewrite Hfrom.
  - intros l o. unfold get_results, q_count. fold base. simpl. rewrite Hfrom.
    f_equal. apply Permutation_length, sort_rows_perm.
  - intros r Hr.
    apply (Permutation_in _ (Permutation_sym (sort_rows_perm _ _))) in Hr.
    apply filter_In in Hr as [Hin Hwhere]. split; [exact Hin|].
    subst base. destruct page as [p|]; [destruct (p =? 0)%Z eqn:Hp0|]; simpl in Hwhere.
    + apply String.eqb_eq in Hwhere. split; [exact Hwhere|].
      intros q [= <-] Hq. apply Z.eqb_eq in Hp0. contradiction.
    + apply andb_true_iff in Hwhere as [Hname Hpage].
      apply String.eqb_eq in Hname. apply Z.eqb_eq in Hpage.
      split; [exact Hname|]. now intros q [= <-] _.
    + apply String.eqb_eq in Hwhere. split; [exact Hwhere|]. discriminate.
Qed.

Lemma stored_order_trans (a b c : models.OCRResult) :
  stored_order a b -> stored_order b c -> stored_order a c.
Proof. unfold stored_order. lia. Qed.

Lemma stored_order_antisym (a b : models.OCRResult) :
  stored_order a b -> stored_order b a -> sort_key a = sort_key b.
Proof. unfold stored_order, sort_key. intros H1 H2. f_equal; lia. Qed.

(** Without ties there is one sorted arrangement only. *)
Lemma sorted_perm_unique :
  forall l1 l2 : list models.OCRResult,
    Permutation l1 l2 ->
    StronglySorted stored_order l1 -> StronglySorted stored_order l2 ->
    NoDup (map sort_key l1) -> l1 = l2.
Proof.
  induction l1 as [|a l1 IH]; intros l2 Hperm H1 H2 Hnd.
  - apply Permutation_nil in Hperm. now subst.
  - destruct l2 as [|b l2];
      [apply Permutation_sym, Permutation_nil in Hperm; discriminate|].
    apply StronglySorted_inv in H1 as [H1 Ha].
    apply StronglySorted_inv in H2 as [H2 Hb].
    rewrite Forall_forall in Ha, Hb.
    simpl in Hnd. apply NoDup_cons_iff in Hnd as [Hna Hnd].
    assert (Hab : a = b).
    { assert (Hin : In a (b :: l2))
        by (apply (Permutation_in _ Hperm); now left).
      destruct Hin as [<-|Hin]; [reflexivity|].
      assert (Hin' : In b (a :: l1))
        by (apply (Permutation_in _ (Permutation_sym Hperm)); now left).
      destruct Hin' as [->|Hin']; [reflexivity|].
      exfalso. apply Hna.
      rewrite (stored_order_antisym a b (Ha b Hin') (Hb a Hin)).
      now apply in_map. }
    subst b. f_equal. apply IH; try assumption.
    now apply Permutation_cons_inv in Hperm.
Qed.

(** The rows of an answer, in terms of the selected rows. *)
Lemma get_results_window (name : string) (page : option Z) (lim off : Z) (db : Session) :
  schemas.items (get_results name page lim off db)
  = map schemas.from_orm
      (firstn (Z.to_nat lim)
         (skipn (Z.to_nat off)
            (sort_rows (key_leb models.page_number models.line_number)
               (filter (selected name page) (table db))))).
Proof.
  unfold get_results, q_all, selected.
  destruct page as [p|]; [destruct (p =? 0)%Z|]; simpl; do 4 f_equal;
    apply filter_ext; intros r; rewrite ?andb_true_r; reflexivity.
Qed.

(** X26. When no two rows a request selects have the same page and line,
    the ORDER BY of [get_results] admits one order only: whatever sorted
    arrangement of the selected rows the database returns, the answer is
    its window. Consecutive windows then fit together: the rows at offset
    [o] with limit [a], followed by the rows at offset [o + a] with limit
    [b], are the rows at offset [o] with limit [a + b]; paging through the
    file neither repeats nor loses a row. (With ties the order among the
    tied rows is the database's choice on each request, and nothing of
    the kind is claimed.) *)
Theorem windows_compose (name : string) (page : option Z) (a b o : Z) (db : Session) :
  (0 <= a)%Z -> (0 <= b)%Z -> (0 <= o)%Z ->
  NoDup (map sort_key (filter (selected name page) (table db))) ->
  (forall (lim off : Z) (ordered : list models.OCRResult),
      Permutation (filter (selected name page) (table db)) ordered ->
      Sorted stored_order ordered ->
      schemas.items (get_results name page lim off db)
      = map schemas.from_orm
          (firstn (Z.to_nat lim) (skipn (Z.to_nat off) ordered)))
  /\ schemas.items (get_results name page a o db)
     ++ schemas.items (get_results name page b (o + a) db)
     = schemas.items (get_results name page (a + b) o db).
Proof.
  intros Ha Hb Ho Hnd. split.
  - intros lim off ordered Hperm Hsorted.
    rewrite get_results_window. do 3 f_equal.
    set (sel := filter (selected name page) (table db)) in *.
    set (leb := key_leb models.page_number models.line_number).
    assert (Htrans : Relations_1.Transitive stored_order)
      by (intros u v w; apply stored_order_trans).
    apply sorted_perm_unique.
    + rewrite <- Hperm. apply Permutation_sym, sort_rows_perm.
    + apply Sorted_StronglySorted; [exact Htrans | apply sort_rows_sorted].
    + apply Sorted_StronglySorted; assumption.
    + apply (Permutation_NoDup (l := map sort_key sel)); [|exact Hnd].
      apply Permutation_map, sort_rows_perm.
  - rewrite !get_results_window, <- map_app. f_equal.
    rewrite !Z2Nat.inj_add by lia. apply firstn_window.
Qed.

(** X27. Whenever the results operation answers with rows, every row it
    returns is a row of the table for the requested file name (and page,
    when one is given); there are at most 500 of them and no more than the
    total it reports; and an offset at or past the total gives no row. *)
Theorem results_are_matching_rows (file_name : option string)
    (page lim off : option Z) (db : Session) (resp : schemas.PaginatedResults) :
  get_results_endpoint file_name page lim off db = inl resp ->
  exists name,
    file_name = Some name
    /\ (forall item, In item (schemas.items resp) ->
          exists r, In r (table db) /\ item = schemas.from_orm r
                    /\ matches name page r = true)
    /\ (List.length (schemas.items resp) <= 500)%nat
    /\ (Z.of_nat (List.length (schemas.items resp)) <= schemas.total resp)%Z
    /\ (schemas.total resp <= match off with Some o => o | None => 0 end ->
        schemas.items resp = [])%Z.
Proof.
  unfold get_results_endpoint. destruct file_name as [name|]; [|discriminate].
  set (l := match lim with Some n => n | None => 50%Z end).
  set (o := match off with Some n => n | None => 0%Z end).
  destruct (match page with Some p => (1 <=? p)%Z | None => true end) eqn:Hpage;
    [|discriminate].
  destruct (1 <=? l)%Z eqn:Hl1; [|discriminate].
  destruct (l <=? 500)%Z eqn:Hl2; [|discriminate].
  destruct (0 <=? o)%Z eqn:Ho; [|discriminate].
  cbn [andb]. intros [= <-]. exists name. split; [reflexivity|].
  apply Z.leb_le in Hl1, Hl2, Ho.
  destruct (get_results_items name page l o db) as (sorted & Hitems & Htotal & Hsorted).
  rewrite Hitems, Htotal. split; [|split; [|split]].
  - intros item Hitem. apply in_map_iff in Hitem as (r & <- & Hr).
    apply In_window in Hr.
    destruct (Hsorted r Hr) as (Hin & Hname & Hp).
    exists r. split; [exact Hin|]. split; [reflexivity|].
    unfold matches. rewrite Hname, String.eqb_refl. cbn [andb].
    destruct page as [p|]; [|reflexivity].
    apply Z.leb_le in Hpage. apply Z.eqb_eq. apply Hp; [reflexivity | lia].
  - rewrite length_map.
    pose proof (firstn_le_length (Z.to_nat l) (skipn (Z.to_nat o) sorted)). lia.
  - rewrite length_map, length_firstn, length_skipn. lia.
  - intros Hpast. rewrite skipn_all2 by lia. now rewrite firstn_nil.
Qed.

Lemma windows_compose_witness :
  (0 <= 1)%Z /\ (0 <= 2)%Z /\ (0 <= 1)%Z
  /\ NoDup (map sort_key (filter (selected "journal.tiff" None)
                            (table Journal.session)))
  /\ (forall (lim off : Z) (ordered : list models.OCRResult),
        Permutation (filter (selected "journal.tiff" None) (table Journal.session))
          ordered ->
        Sorted stored_order ordered ->
        schemas.items (get_results "journal.tiff" None lim off Journal.session)
        = map schemas.from_orm
            (firstn (Z.to_nat lim) (skipn (Z.to_nat off) ordered)))
  /\ schemas.items (get_results "journal.tiff" None 1 1 Journal.session)
     ++ schemas.items (get_results "journal.tiff" None 2 (1 + 1) Journal.session)
     = schemas.items (get_results "journal.tiff" None (1 + 2) 1 Journal.session).
Proof.
  assert (Hnd : NoDup (map sort_key (filter (selected "journal.tiff" None)
                                       (table Journal.session)))).
  { vm_compute.
    repeat (constructor; [simpl; intuition discriminate|]). constructor. }
  split; [lia|]. split; [lia|]. split; [lia|]. split; [exact Hnd|].
  apply (windows_compose "journal.tiff" None 1 2 1 Journal.session);
    [lia | lia | lia | exact Hnd].
Defined.

Lemma results_are_matching_rows_witness :
  exists resp,
    get_results_endpoint (Some "ledger.tiff") (Some 1%Z) None (Some 1%Z) Sample.archive
    = inl resp
    /\ exists name,
         Some "ledger.tiff" = Some name
         /\ (forall item, In item (schemas.items resp) ->
               exists r, In r (table Sample.archive) /\ item = schemas.from_orm r
                         /\ matches name (Some 1%Z) r = true)
         /\ (List.length (schemas.items resp) <= 500)%nat
         /\ (Z.of_nat (List.length (schemas.items resp)) <= schemas.total resp)%Z
         /\ (schemas.total resp <= 1 -> schemas.items resp = [])%Z.
Proof.
  eexists. split; [vm_compute; reflexivity|].
  eapply (results_are_matching_rows (Some "ledger.tiff") (Some 1%Z) None (Some 1%Z)
            Sample.archive).
  vm_compute. reflexivity.
Defined.

(** ** Uploads: the content type *)

Section UploadContentType.
Context {B : Builtins} {Image : Type}.
Variable E : External Image.

(** X28. Past the acceptance check the declared content type has no
    effect: two uploads with the same file name and the same bytes, under
    any two accepted content types, leave the same files and the same
    session, make the same file system calls and get the same answer. *)
Theorem content_type_irrelevant (fs : filesystem) (db : Session)
    (name : string) (body : bytes) (type1 type2 : string)
    (engine : SupportedEngine) (temp_id : string) :
  mem_str type1 accepted_content_types = true ->
  mem_str type2 accepted_content_types = true ->
  upload_and_process E fs db
    {| filename := name; content_type := type1; contents := body |} engine temp_id
  = upload_and_process E fs db
      {| filename := name; content_type := type2; contents := body |} engine temp_id.
Proof.
  intros H1 H2. unfold upload_and_process. cbn [content_type].
  rewrite H1, H2. reflexivity.
Qed.

End UploadContentType.

Lemma content_type_irrelevant_witness :
  mem_str "application/pdf" accepted_content_types = true
  /\ mem_str "image/tiff" accepted_content_types = true
  /\ upload_and_process (B := Sample.builtins) Sample.external Sample.files Sample.session
       {| filename := "report.pdf"; content_type := "application/pdf";
          contents := Sample.pdf_bytes |}
       tesseract "0123456789abcdef0123456789abcdef"
     = upload_and_process (B := Sample.builtins) Sample.external Sample.files Sample.session
         {| filename := "report.pdf"; content_type := "image/tiff";
            contents := Sample.pdf_bytes |}
         tesseract "0123456789abcdef0123456789abcdef".
Proof.
  split; [reflexivity|]. split; [reflexivity|].
  apply (content_type_irrelevant (B := Sample.builtins) Sample.external Sample.files
           Sample.session "report.pdf" Sample.pdf_bytes "application/pdf" "image/tiff"
           tesseract "0123456789abcdef0123456789abcdef"); reflexivity.
Defined.
